(** * LiveGrade Pro companion module: the adapter of [main.js]

    A shallow embedding of [LiveGradeInstance] (src/main.js): the connection
    life cycle, the challenge/response handshake, the catalogue fetch and the
    [applyGrade] action, together with the parts of the JavaScript platform
    the class relies on (strings, numbers, JSON, MD5). *)

From Stdlib Require Import ZArith List String Ascii Bool Lia.
Import ListNotations.
Local Open Scope Z_scope.

(** ** JavaScript strings

    A JavaScript string is a sequence of 16-bit code units. *)

Module JS.

Definition code_unit := Z.
Definition jsstring := list code_unit.

Definition lit (s : string) : jsstring :=
  map (fun a => Z.of_N (N_of_ascii a)) (list_ascii_of_string s).

(** [q] writes a literal that holds double quotes: every apostrophe of the
    Rocq literal stands for a double quote (code unit 34). *)
Definition q (s : string) : jsstring :=
  map (fun c => if c =? 39 then 34 else c) (lit s).

Fixpoint str_eqb (a b : jsstring) : bool :=
  match a, b with
  | [], [] => true
  | x :: a', y :: b' => (x =? y) && str_eqb a' b'
  | _, _ => false
  end.

(** WhiteSpace and LineTerminator of ECMAScript, the characters removed by
    [String.prototype.trim] and skipped by [parseInt]. *)
Definition is_whitespace (c : code_unit) : bool :=
  (c =? 9) || (c =? 10) || (c =? 11) || (c =? 12) || (c =? 13) || (c =? 32)
  || (c =? 160) || (c =? 5760) || ((8192 <=? c) && (c <=? 8202))
  || (c =? 8232) || (c =? 8233) || (c =? 8239) || (c =? 8287)
  || (c =? 12288) || (c =? 65279).

Fixpoint trimStart (s : jsstring) : jsstring :=
  match s with
  | c :: s' => if is_whitespace c then trimStart s' else s
  | [] => []
  end.

Definition trimEnd (s : jsstring) : jsstring := rev (trimStart (rev s)).

(** [String.prototype.trim] *)
Definition trim (s : jsstring) : jsstring := trimEnd (trimStart s).

(** [String.prototype.toUpperCase] on text of the ASCII range, which is all
    a hexadecimal digest holds; code units outside it are left as they are. *)
Definition toUpperCase (s : jsstring) : jsstring :=
  map (fun c => if (97 <=? c) && (c <=? 122) then c - 32 else c) s.

(** ** Numbers

    A Number is an IEEE 754 double.  A finite one is the dyadic rational
    [m * 2^e], kept with [m] odd (or [m = 0] and [e = 0]); the sign of zero is
    not kept, no operation of the adapter tells the two zeros apart. *)

Inductive number :=
| NaN
| Infinity (negative : bool)
| Fin (m e : Z).

Fixpoint strip2 (p : positive) (e : Z) : positive * Z :=
  match p with
  | xO p' => strip2 p' (e + 1)
  | _ => (p, e)
  end.

Definition mk_fin (m e : Z) : number :=
  match m with
  | Z0 => Fin 0 0
  | Zpos p => let (p', e') := strip2 p e in Fin (Zpos p') e'
  | Zneg p => let (p', e') := strip2 p e in Fin (Zneg p') e'
  end.

Definition of_int (z : Z) : number := mk_fin z 0.

(** [p / (q * b^e)] as a fraction of integers, for any sign of [e]. *)
Definition scale (b p q e : Z) : Z * Z :=
  if 0 <=? e then (p, q * b ^ e) else (p * b ^ (- e), q).

(** the integer nearest to [p / q], ties to even ([0 <= p], [0 < q]) *)
Definition round_half_even (p q : Z) : Z :=
  let d := p / q in
  let r := p mod q in
  if 2 * r <? q then d
  else if q <? 2 * r then d + 1
  else if Z.even d then d else d + 1.

(** The double nearest to [p / q] ([0 <= p], [0 < q]), ties to even, with
    gradual underflow below [2^-1022] and overflow to Infinity; [neg] is the
    sign. *)
Definition to_double (neg : bool) (p q : Z) : number :=
  if p =? 0 then Fin 0 0 else
  let e0 := Z.log2 p - Z.log2 q in
  let '(a0, b0) := scale 2 p q e0 in
  let e := if a0 <? b0 then e0 - 1 else e0 in
  let u := Z.max (e - 52) (-1074) in
  let '(a, b) := scale 2 p q u in
  let m := round_half_even a b in
  if m =? 0 then Fin 0 0
  else if 1024 <=? u + Z.log2 m then Infinity neg
  else mk_fin (if neg then - m else m) u.

(** decimal digits of a natural number *)
Fixpoint uint_digits (u : Decimal.uint) : jsstring :=
  match u with
  | Decimal.Nil => []
  | Decimal.D0 u' => 48 :: uint_digits u'
  | Decimal.D1 u' => 49 :: uint_digits u'
  | Decimal.D2 u' => 50 :: uint_digits u'
  | Decimal.D3 u' => 51 :: uint_digits u'
  | Decimal.D4 u' => 52 :: uint_digits u'
  | Decimal.D5 u' => 53 :: uint_digits u'
  | Decimal.D6 u' => 54 :: uint_digits u'
  | Decimal.D7 u' => 55 :: uint_digits u'
  | Decimal.D8 u' => 56 :: uint_digits u'
  | Decimal.D9 u' => 57 :: uint_digits u'
  end.

Definition dec (z : Z) : jsstring := uint_digits (N.to_uint (Z.to_N z)).

(** [n] with [10^(n-1) <= p/q < 10^n], for [0 < p], [0 < q] *)
Definition decimal_exponent (p q : Z) : Z :=
  let g := (Z.log2 p - Z.log2 q) * 30103 / 100000 in
  let below n := let '(a, b) := scale 10 p q n in a <? b in
  if below (g - 1) then g - 1
  else if below g then g
  else if below (g + 1) then g + 1
  else g + 2.

(** Number::toString picks the shortest digit string [s] (of [k] digits) and
    the exponent [n] such that [s * 10^(n-k)] reads back as the same double,
    the nearest such [s] when there are several.  [digits_with p q n k] tries
    [k] digits for the double [p / q]. *)
Definition digits_with (p q n k : Z) : option (Z * Z) :=
  let '(a, b) := scale 10 p q (n - k) in
  let lo := a / b in
  let hi := lo + 1 in
  let back s :=
    let '(c, d) := scale 10 s 1 (k - n) in
    match to_double false c d, to_double false p q with
    | Fin m1 e1, Fin m2 e2 => (m1 =? m2) && (e1 =? e2)
    | _, _ => false
    end in
  let norm s := if s =? 10 ^ k then (10 ^ (k - 1), n + 1) else (s, n) in
  let dl := a - lo * b in
  let dh := hi * b - a in
  match back lo, back hi with
  | true, true =>
      if dl <? dh then Some (norm lo)
      else if dh <? dl then Some (norm hi)
      else if Z.even lo then Some (norm lo) else Some (norm hi)
  | true, false => Some (norm lo)
  | false, true => Some (norm hi)
  | false, false => None
  end.

Fixpoint shortest_from (p q n k : Z) (fuel : nat) : Z * Z * Z :=
  match fuel with
  | O => (fst (scale 10 p q (n - k)) / snd (scale 10 p q (n - k)), n, k)
  | S fuel' =>
      match digits_with p q n k with
      | Some (s, n') => (s, n', k)
      | None => shortest_from p q n (k + 1) fuel'
      end
  end.

(** seventeen significant digits identify every double *)
Definition shortest (p q : Z) : Z * Z * Z :=
  shortest_from p q (decimal_exponent p q) 1 17.

Definition zeros (n : Z) : jsstring := repeat 48 (Z.to_nat n).

(** Number::toString(x), radix 10, of a positive finite double [p / q] *)
Definition positive_toString (p q : Z) : jsstring :=
  let '(s, n, k) := shortest p q in
  let ds := dec s in
  if (k <=? n) && (n <=? 21) then ds ++ zeros (n - k)
  else if (0 <? n) && (n <=? 21) then
    firstn (Z.to_nat n) ds ++ [46] ++ skipn (Z.to_nat n) ds
  else if (-6 <? n) && (n <=? 0) then [48; 46] ++ zeros (- n) ++ ds
  else
    let ex := [101] ++ (if n - 1 <? 0 then [45] else [43]) ++ dec (Z.abs (n - 1)) in
    if k =? 1 then ds ++ ex
    else firstn 1 ds ++ [46] ++ skipn 1 ds ++ ex.

Definition number_toString (x : number) : jsstring :=
  match x with
  | NaN => lit "NaN"
  | Infinity neg => (if neg then [45] else []) ++ lit "Infinity"
  | Fin m e =>
      if m =? 0 then [48]
      else
        let '(p, q) := scale 2 (Z.abs m) 1 (- e) in
        (if m <? 0 then [45] else []) ++ positive_toString p q
  end.

(** ** Values and errors

    The values the adapter handles are those of JSON documents, plus
    [undefined]: configuration objects, action options, parsed messages and
    response bodies.  An object is its list of own properties in insertion
    order. *)

#[local] Set Warnings "-register-all".

Inductive value :=
| VUndefined
| VNull
| VBool (b : bool)
| VNum (x : number)
| VStr (s : jsstring)
| VArr (items : list value)
| VObj (props : list (jsstring * value)).

Inductive error_kind := TypeError | SyntaxError | OtherError.

(** an exception: its constructor and its [message] *)
Record error := Err { kind : error_kind; message : jsstring }.

Inductive completion (A : Type) :=
| Normal (a : A)
| Throw (e : error).
Arguments Normal {A} a.
Arguments Throw {A} e.

(** ToBoolean *)
Definition truthy (v : value) : bool :=
  match v with
  | VUndefined | VNull => false
  | VBool b => b
  | VNum NaN => false
  | VNum (Infinity _) => true
  | VNum (Fin m _) => negb (m =? 0)
  | VStr s => match s with [] => false | _ => true end
  | VArr _ | VObj _ => true
  end.

(** [a || b] *)
Definition or_else (a b : value) : value := if truthy a then a else b.

Fixpoint lookup (k : jsstring) (props : list (jsstring * value)) : option value :=
  match props with
  | [] => None
  | (k', v) :: rest => if str_eqb k k' then Some v else lookup k rest
  end.

(** installs [k: v], keeping the position of an earlier [k] *)
Fixpoint define (k : jsstring) (v : value) (props : list (jsstring * value))
  : list (jsstring * value) :=
  match props with
  | [] => [(k, v)]
  | (k', v') :: rest =>
      if str_eqb k k' then (k, v) :: rest else (k', v') :: define k v rest
  end.

(** [v.k] for one of the property names the adapter reads ([type],
    [subtype], [arguments], [challenge], [success], [result], [index],
    [label], [uid], [name], [host], [port], [slot], [look], [options]): none
    of them is a property of a primitive or of an array, and reading a
    property of [undefined] or [null] throws. *)
Definition get (v : value) (k : jsstring) : completion value :=
  match v with
  | VUndefined =>
      Throw (Err TypeError (lit "Cannot read properties of undefined (reading '" ++ k ++ lit "')"))
  | VNull =>
      Throw (Err TypeError (lit "Cannot read properties of null (reading '" ++ k ++ lit "')"))
  | VObj props => Normal (match lookup k props with Some x => x | None => VUndefined end)
  | _ => Normal VUndefined
  end.

Fixpoint join (sep : jsstring) (parts : list jsstring) : jsstring :=
  match parts with
  | [] => []
  | [x] => x
  | x :: rest => x ++ sep ++ join sep rest
  end.

(** ToString, as applied by [String(v)], template literals and [v + 'text'].
    An array goes through [join]; a plain object renders as
    [[object Object]] unless an own [toString] property (never callable in
    JSON data) shadows the inherited method, in which case the conversion
    throws. *)
Fixpoint ToString (v : value) : completion jsstring :=
  match v with
  | VUndefined => Normal (lit "undefined")
  | VNull => Normal (lit "null")
  | VBool b => Normal (if b then lit "true" else lit "false")
  | VNum x => Normal (number_toString x)
  | VStr s => Normal s
  | VArr items =>
      let fix elements (l : list value) : completion (list jsstring) :=
        match l with
        | [] => Normal []
        | x :: l' =>
            match (match x with
                   | VUndefined | VNull => Normal []
                   | _ => ToString x
                   end) with
            | Throw e => Throw e
            | Normal t =>
                match elements l' with
                | Throw e => Throw e
                | Normal ts => Normal (t :: ts)
                end
            end
        end in
      match elements items with
      | Throw e => Throw e
      | Normal ts => Normal (join [44] ts)
      end
  | VObj props =>
      match lookup (lit "toString") props with
      | Some _ => Throw (Err TypeError (lit "Cannot convert object to primitive value"))
      | None => Normal (lit "[object Object]")
      end
  end.

(** ** parseInt *)

Definition digit_value (radix c : Z) : option Z :=
  let d :=
    if (48 <=? c) && (c <=? 57) then c - 48
    else if (97 <=? c) && (c <=? 122) then c - 87
    else if (65 <=? c) && (c <=? 90) then c - 55
    else 36 in
  if d <? radix then Some d else None.

(** the value of the longest prefix of digits, and whether it is empty *)
Fixpoint digits_prefix (radix : Z) (s : jsstring) (acc : Z) (seen : bool) : option Z :=
  match s with
  | c :: s' =>
      match digit_value radix c with
      | Some d => digits_prefix radix s' (acc * radix + d) true
      | None => if seen then Some acc else None
      end
  | [] => if seen then Some acc else None
  end.

(** [parseInt(string)] with no radix argument: leading white space is
    skipped, a sign is read, [0x] or [0X] selects radix 16, and the longest
    prefix of digits is the result, NaN when there is none. *)
Definition parseInt_string (s : jsstring) : number :=
  let s1 := trimStart s in
  let '(neg, s2) :=
    match s1 with
    | 45 :: r => (true, r)
    | 43 :: r => (false, r)
    | _ => (false, s1)
    end in
  let '(radix, s3) :=
    match s2 with
    | 48 :: 120 :: r => (16, r)
    | 48 :: 88 :: r => (16, r)
    | _ => (10, s2)
    end in
  match digits_prefix radix s3 0 false with
  | None => NaN
  | Some z => to_double neg z 1
  end.

Definition parseInt (v : value) : completion number :=
  match ToString v with
  | Throw e => Throw e
  | Normal s => Normal (parseInt_string s)
  end.

(** ** JSON.stringify *)

Definition hex_digit (d : Z) : code_unit := if d <? 10 then 48 + d else 87 + d.

Definition is_high_surrogate (c : code_unit) : bool := (55296 <=? c) && (c <=? 56319).
Definition is_low_surrogate (c : code_unit) : bool := (56320 <=? c) && (c <=? 57343).

Definition unicode_escape (c : code_unit) : jsstring :=
  [92; 117; hex_digit (c / 4096); hex_digit (c / 256 mod 16);
   hex_digit (c / 16 mod 16); hex_digit (c mod 16)].

(** the characters of QuoteJSONString, without the enclosing quotes *)
Fixpoint quote_chars (s : jsstring) : jsstring :=
  match s with
  | [] => []
  | c :: s' =>
      if c =? 8 then [92; 98] ++ quote_chars s'
      else if c =? 9 then [92; 116] ++ quote_chars s'
      else if c =? 10 then [92; 110] ++ quote_chars s'
      else if c =? 12 then [92; 102] ++ quote_chars s'
      else if c =? 13 then [92; 114] ++ quote_chars s'
      else if c =? 34 then [92; 34] ++ quote_chars s'
      else if c =? 92 then [92; 92] ++ quote_chars s'
      else if c <? 32 then unicode_escape c ++ quote_chars s'
      else if is_high_surrogate c then
        match s' with
        | c2 :: s'' =>
            if is_low_surrogate c2 then c :: c2 :: quote_chars s''
            else unicode_escape c ++ quote_chars s'
        | [] => unicode_escape c
        end
      else if is_low_surrogate c then unicode_escape c ++ quote_chars s'
      else c :: quote_chars s'
  end.

Definition quote (s : jsstring) : jsstring := [34] ++ quote_chars s ++ [34].

(** [JSON.stringify(v)] with no replacer and no indentation; [None] is the
    result [undefined].  A number that is not finite serialises as [null];
    a property whose value is [undefined] is left out, an array element that
    is [undefined] becomes [null]. *)
Fixpoint stringify (v : value) : option jsstring :=
  match v with
  | VUndefined => None
  | VNull => Some (lit "null")
  | VBool b => Some (if b then lit "true" else lit "false")
  | VNum (Fin m e) => Some (number_toString (Fin m e))
  | VNum _ => Some (lit "null")
  | VStr s => Some (quote s)
  | VArr items =>
      let fix elements (l : list value) : list jsstring :=
        match l with
        | [] => []
        | x :: l' =>
            match stringify x with
            | Some t => t
            | None => lit "null"
            end :: elements l'
        end in
      Some ([91] ++ join [44] (elements items) ++ [93])
  | VObj props =>
      let fix members (l : list (jsstring * value)) : list jsstring :=
        match l with
        | [] => []
        | (k, x) :: l' =>
            match stringify x with
            | Some t => (quote k ++ [58] ++ t) :: members l'
            | None => members l'
            end
        end in
      Some ([123] ++ join [44] (members props) ++ [125])
  end.

(** ** JSON.parse

    The text is read in one pass, code unit by code unit: a scanner state and
    a stack of the containers still open.  [None] is a SyntaxError.  A
    property written twice keeps its first position and its last value; the
    adapter never enumerates a parsed object, so the order JavaScript gives to
    integer-like names is not modelled. *)

Inductive token :=
| TLBrace | TRBrace | TLBrack | TRBrack | TColon | TComma
| TStr (s : jsstring)
| TAtom (v : value).

Fixpoint take_digits (s : jsstring) (acc n : Z) : Z * Z * jsstring :=
  match s with
  | c :: s' =>
      if (48 <=? c) && (c <=? 57) then take_digits s' (acc * 10 + (c - 48)) (n + 1)
      else (acc, n, s)
  | [] => (acc, n, [])
  end.

(** a JSON number: an optional minus sign; the digit 0 or digits that do
    not start with 0; optionally a point and digits; optionally e or E, a
    sign and digits *)
Definition numeral (s : jsstring) : option number :=
  let '(neg, s1) := match s with 45 :: r => (true, r) | _ => (false, s) end in
  let '(ip, ni, s2) := take_digits s1 0 0 in
  let leading_zero := match s1 with 48 :: _ => 1 <? ni | _ => false end in
  if (ni =? 0) || leading_zero then None else
  let frac :=
    match s2 with
    | 46 :: r =>
        let '(m, nf, r') := take_digits r ip 0 in
        if nf =? 0 then None else Some (m, nf, r')
    | _ => Some (ip, 0, s2)
    end in
  match frac with
  | None => None
  | Some (m, nf, s3) =>
      let expo :=
        match s3 with
        | [] => Some 0
        | c :: r =>
            if (c =? 101) || (c =? 69) then
              let '(eneg, r1) :=
                match r with
                | 45 :: r' => (true, r')
                | 43 :: r' => (false, r')
                | _ => (false, r)
                end in
              match take_digits r1 0 0 with
              | (ex, ne, []) => if ne =? 0 then None else Some (if eneg then - ex else ex)
              | _ => None
              end
            else None
        end in
      match expo with
      | None => None
      | Some ex => let '(a, b) := scale 10 m 1 (nf - ex) in Some (to_double neg a b)
      end
  end.

(** [true], [false], [null] or a number *)
Definition word (s : jsstring) : option value :=
  if str_eqb s (lit "true") then Some (VBool true)
  else if str_eqb s (lit "false") then Some (VBool false)
  else if str_eqb s (lit "null") then Some VNull
  else option_map VNum (numeral s).

Definition is_word_char (c : code_unit) : bool :=
  ((48 <=? c) && (c <=? 57)) || ((97 <=? c) && (c <=? 122))
  || ((65 <=? c) && (c <=? 90)) || (c =? 43) || (c =? 45) || (c =? 46).

Inductive frame :=
| FArr (items_rev : list value)
| FObj (props : list (jsstring * value))
| FKey (props : list (jsstring * value)) (key : jsstring).

Inductive mode :=
| MValue        (* a value must follow *)
| MValueOrEnd   (* just after an opening bracket *)
| MKeyOrEnd     (* just after an opening brace *)
| MKey          (* after a comma inside an object *)
| MColon        (* after a property name *)
| MAfter        (* after a value inside a container *)
| MDone (v : value).

Definition pstate := (list frame * mode)%type.

Definition complete (stack : list frame) (v : value) : option pstate :=
  match stack with
  | [] => Some ([], MDone v)
  | FArr items :: st => Some (FArr (v :: items) :: st, MAfter)
  | FKey props k :: st => Some (FObj (define k v props) :: st, MAfter)
  | FObj _ :: _ => None
  end.

Definition feed (ps : pstate) (t : token) : option pstate :=
  let '(stack, m) := ps in
  match t, m with
  | TAtom v, (MValue | MValueOrEnd) => complete stack v
  | TStr s, (MValue | MValueOrEnd) => complete stack (VStr s)
  | TStr s, (MKeyOrEnd | MKey) =>
      match stack with
      | FObj props :: st => Some (FKey props s :: st, MColon)
      | _ => None
      end
  | TColon, MColon => Some (stack, MValue)
  | TComma, MAfter =>
      match stack with
      | FArr _ :: _ => Some (stack, MValue)
      | FObj _ :: _ => Some (stack, MKey)
      | _ => None
      end
  | TLBrack, (MValue | MValueOrEnd) => Some (FArr [] :: stack, MValueOrEnd)
  | TLBrace, (MValue | MValueOrEnd) => Some (FObj [] :: stack, MKeyOrEnd)
  | TRBrack, (MValueOrEnd | MAfter) =>
      match stack with
      | FArr items :: st => complete st (VArr (rev items))
      | _ => None
      end
  | TRBrace, (MKeyOrEnd | MAfter) =>
      match stack with
      | FObj props :: st => complete st (VObj props)
      | _ => None
      end
  | _, _ => None
  end.

Inductive scanner :=
| LIdle
| LString (acc_rev : jsstring)
| LEscape (acc_rev : jsstring)
| LUnicode (acc_rev : jsstring) (digits_rev : list Z)
| LWord (chars_rev : jsstring).

(** a code unit read between tokens *)
Definition scan_idle (ps : pstate) (c : code_unit) : option (scanner * pstate) :=
  if (c =? 9) || (c =? 10) || (c =? 13) || (c =? 32) then Some (LIdle, ps)
  else if c =? 34 then Some (LString [], ps)
  else if is_word_char c then Some (LWord [c], ps)
  else
    let structural :=
      if c =? 123 then Some TLBrace
      else if c =? 125 then Some TRBrace
      else if c =? 91 then Some TLBrack
      else if c =? 93 then Some TRBrack
      else if c =? 58 then Some TColon
      else if c =? 44 then Some TComma
      else None in
    match structural with
    | Some t => option_map (pair LIdle) (feed ps t)
    | None => None
    end.

Definition end_word (ps : pstate) (chars_rev : jsstring) : option pstate :=
  match word (rev chars_rev) with
  | Some v => feed ps (TAtom v)
  | None => None
  end.

Definition scan (st : scanner * pstate) (c : code_unit) : option (scanner * pstate) :=
  let '(l, ps) := st in
  match l with
  | LIdle => scan_idle ps c
  | LString acc =>
      if c =? 34 then option_map (pair LIdle) (feed ps (TStr (rev acc)))
      else if c =? 92 then Some (LEscape acc, ps)
      else if c <? 32 then None
      else Some (LString (c :: acc), ps)
  | LEscape acc =>
      if (c =? 34) || (c =? 92) || (c =? 47) then Some (LString (c :: acc), ps)
      else if c =? 98 then Some (LString (8 :: acc), ps)
      else if c =? 102 then Some (LString (12 :: acc), ps)
      else if c =? 110 then Some (LString (10 :: acc), ps)
      else if c =? 114 then Some (LString (13 :: acc), ps)
      else if c =? 116 then Some (LString (9 :: acc), ps)
      else if c =? 117 then Some (LUnicode acc [], ps)
      else None
  | LUnicode acc ds =>
      match digit_value 16 c with
      | None => None
      | Some d =>
          match ds with
          | [d3; d2; d1] => Some (LString (d1 * 4096 + d2 * 256 + d3 * 16 + d :: acc), ps)
          | _ => Some (LUnicode acc (d :: ds), ps)
          end
      end
  | LWord cs =>
      if is_word_char c then Some (LWord (c :: cs), ps)
      else
        match end_word ps cs with
        | Some ps' => scan_idle ps' c
        | None => None
        end
  end.

Fixpoint scan_all (st : scanner * pstate) (text : jsstring) : option (scanner * pstate) :=
  match text with
  | [] => Some st
  | c :: text' =>
      match scan st c with
      | Some st' => scan_all st' text'
      | None => None
      end
  end.

(** [JSON.parse(text)], with no reviver *)
Definition JSON_parse (text : jsstring) : option value :=
  match scan_all (LIdle, ([], MValue)) text with
  | Some (LIdle, ([], MDone v)) => Some v
  | Some (LWord cs, ps) =>
      match end_word ps cs with
      | Some ([], MDone v) => Some v
      | _ => None
      end
  | _ => None
  end.

(** ** UTF-8 and MD5: [createHash('md5')]

    [hash.update(text)] hashes the UTF-8 encoding of the text, in which a
    surrogate that has no partner is replaced by U+FFFD. *)

Definition byte := Z.

Fixpoint utf8 (s : jsstring) : list byte :=
  match s with
  | [] => []
  | c :: s' =>
      if c <? 128 then c :: utf8 s'
      else if c <? 2048 then [192 + c / 64; 128 + c mod 64] ++ utf8 s'
      else if is_high_surrogate c then
        match s' with
        | c2 :: s'' =>
            if is_low_surrogate c2 then
              let cp := 65536 + (c - 55296) * 1024 + (c2 - 56320) in
              [240 + cp / 262144; 128 + cp / 4096 mod 64;
               128 + cp / 64 mod 64; 128 + cp mod 64] ++ utf8 s''
            else [239; 191; 189] ++ utf8 s'
        | [] => [239; 191; 189]
        end
      else if is_low_surrogate c then [239; 191; 189] ++ utf8 s'
      else [224 + c / 4096; 128 + c / 64 mod 64; 128 + c mod 64] ++ utf8 s'
  end.

Module MD5.

Definition w32 (x : Z) : Z := x mod 4294967296.
Definition add32 (x y : Z) : Z := w32 (x + y).
Definition not32 (x : Z) : Z := Z.lxor x 4294967295.
Definition rotl32 (x n : Z) : Z :=
  Z.lor (w32 (Z.shiftl x n)) (Z.shiftr x (32 - n)).

(** [floor (2^32 * |sin (i + 1)|)] for [i] from 0 to 63 *)
Definition K : list Z :=
  [3614090360; 3905402710; 606105819; 3250441966;
   4118548399; 1200080426; 2821735955; 4249261313;
   1770035416; 2336552879; 4294925233; 2304563134;
   1804603682; 4254626195; 2792965006; 1236535329;
   4129170786; 3225465664; 643717713; 3921069994;
   3593408605; 38016083; 3634488961; 3889429448;
   568446438; 3275163606; 4107603335; 1163531501;
   2850285829; 4243563512; 1735328473; 2368359562;
   4294588738; 2272392833; 1839030562; 4259657740;
   2763975236; 1272893353; 4139469664; 3200236656;
   681279174; 3936430074; 3572445317; 76029189;
   3654602809; 3873151461; 530742520; 3299628645;
   4096336452; 1126891415; 2878612391; 4237533241;
   1700485571; 2399980690; 4293915773; 2240044497;
   1873313359; 4264355552; 2734768916; 1309151649;
   4149444226; 3174756917; 718787259; 3951481745].

Definition shifts : list Z :=
  [7; 12; 17; 22; 7; 12; 17; 22; 7; 12; 17; 22; 7; 12; 17; 22;
   5; 9; 14; 20; 5; 9; 14; 20; 5; 9; 14; 20; 5; 9; 14; 20;
   4; 11; 16; 23; 4; 11; 16; 23; 4; 11; 16; 23; 4; 11; 16; 23;
   6; 10; 15; 21; 6; 10; 15; 21; 6; 10; 15; 21; 6; 10; 15; 21].

Definition state := (Z * Z * Z * Z)%type.

Definition init : state := (1732584193, 4023233417, 2562383102, 271733878).

(** the [g]-th little-endian word of a 64-byte block *)
Definition word_at (block : list byte) (g : nat) : Z :=
  nth (4 * g) block 0 + 256 * nth (4 * g + 1) block 0
  + 65536 * nth (4 * g + 2) block 0 + 16777216 * nth (4 * g + 3) block 0.

Definition step (block : list byte) (s : state) (i : nat) : state :=
  let '(a, b, c, d) := s in
  let '(f, g) :=
    match (i / 16)%nat with
    | 0%nat => (Z.lor (Z.land b c) (Z.land (not32 b) d), i)
    | 1%nat => (Z.lor (Z.land d b) (Z.land (not32 d) c), ((5 * i + 1) mod 16)%nat)
    | 2%nat => (Z.lxor (Z.lxor b c) d, ((3 * i + 5) mod 16)%nat)
    | _ => (Z.lxor c (Z.lor b (not32 d)), ((7 * i) mod 16)%nat)
    end in
  let x := add32 (add32 (add32 f a) (nth i K 0)) (word_at block g) in
  (d, add32 b (rotl32 x (nth i shifts 0)), b, c).

Definition compress (s : state) (block : list byte) : state :=
  let '(a0, b0, c0, d0) := s in
  let '(a, b, c, d) := fold_left (step block) (seq 0 64) s in
  (add32 a0 a, add32 b0 b, add32 c0 c, add32 d0 d).

(** feeds the bytes through, compressing each time 64 of them are buffered *)
Fixpoint absorb (s : state) (buffer_rev : list byte) (n : nat) (bytes : list byte)
  : state * list byte :=
  match bytes with
  | [] => (s, buffer_rev)
  | x :: rest =>
      if Nat.eqb n 63 then absorb (compress s (rev (x :: buffer_rev))) [] 0 rest
      else absorb s (x :: buffer_rev) (S n) rest
  end.

Definition le_bytes (count : nat) (x : Z) : list byte :=
  map (fun i => Z.shiftr x (8 * Z.of_nat i) mod 256) (seq 0 count).

Definition padding (len : Z) : list byte :=
  [128] ++ repeat 0 (Z.to_nat ((55 - len) mod 64))
  ++ le_bytes 8 ((8 * len) mod 18446744073709551616).

(** the 16 bytes of the digest *)
Definition digest (message : list byte) : list byte :=
  let '(a, b, c, d) :=
    fst (absorb init [] 0 (message ++ padding (Z.of_nat (List.length message)))) in
  le_bytes 4 a ++ le_bytes 4 b ++ le_bytes 4 c ++ le_bytes 4 d.

End MD5.

(** [digest('hex')]: two lower-case hexadecimal digits for each byte *)
Definition hex (bytes : list byte) : jsstring :=
  flat_map (fun b => [hex_digit (b / 16); hex_digit (b mod 16)]) bytes.

End JS.

(** ** The adapter: [class LiveGradeInstance]

    The fields of the instance, the objects the platform keeps on its behalf
    (sockets with their listeners, pending timers, pending requests) and the
    calls it makes on its collaborators (the host framework, the WebSocket
    library, timers, [fetch]). *)

Module LiveGrade.
Import JS.

Definition handle := nat.       (* a WebSocket object *)
Definition timer_id := nat.     (* a Timeout object *)
Definition request_id := nat.   (* a request issued with fetch *)

Inductive InstanceStatus := Connecting | Ok | BadConfig | ConnectionFailure | Disconnected.

(** the two functions handed to [setTimeout] *)
Inductive timer_callback :=
| Reconnect                      (* () => this._connectWebSocket() *)
| DelayComplete (slot : number). (* the settling delay of applyGrade *)

(** An activation of [_fetchSlotsAndLooks] suspended at an [await], with the
    constants [host], [port] and [auth] it holds. *)
Inductive suspended :=
| AwaitSlots (host port : jsstring) (auth : value)
| AwaitLooks (host port : jsstring) (auth : value).

Record choice := { id : value; label : value }.

(** the [readyState] of a WebSocket object of the ws library *)
Inductive readyState := CONNECTING | OPEN | CLOSING | CLOSED.

(** The calls the instance makes on its collaborators, in the order it makes
    them.  A call is recorded when it returns: [new WebSocket] that throws is
    recorded without an object, and [send] that the library refuses by
    throwing is not recorded, the exception is all there is of it.  What a
    socket, a timer or a request does later comes back as an [event]. *)
Inductive effect :=
| updateStatus (status : InstanceStatus) (message : option jsstring)
| log (level text : jsstring)
| new_WebSocket (url : jsstring) (protocols : list jsstring) (object : option handle)
| ws_send (socket : handle) (data : value)
| ws_close (socket : handle)
| setTimeout (t : timer_id) (callback : timer_callback) (delay : Z)
| clearTimeout (t : timer_id)
| fetch (r : request_id) (url : jsstring)
| setActionDefinitions (slotChoices lookChoices : list choice)
| unhandledRejection (e : error).

(** the fields set by the constructor, and [config] *)
Record instance := {
  config : value;
  ws : option handle;
  reconnectTimer : option timer_id;
  lastAuthCode : value;
  slots : value;
  looks : value
}.

Record world := {
  this : instance;
  (** the sockets that carry the listeners of [_connectWebSocket], each with
      the url its [open] listener logs *)
  sockets : list (handle * jsstring);
  (** the [readyState] of every WebSocket object created so far *)
  readyStates : list (handle * readyState);
  (** the timers that have not fired and were not cleared *)
  timers : list (timer_id * timer_callback);
  (** the activations of [_fetchSlotsAndLooks] waiting for a response *)
  requests : list (request_id * suspended);
  (** whether [setActionDefinitions] has installed the applyGrade action *)
  actions : bool;
  (** the identity of the next object the platform creates *)
  next_id : nat;
  (** the urls for which [new WebSocket(url)] throws, and what it throws *)
  WebSocket_throws : jsstring -> option error
}.

(** *** Computations: state, calls made, exceptions *)

Definition M (A : Type) : Type := world -> completion A * world * list effect.

Definition ret {A} (a : A) : M A := fun w => (Normal a, w, []).

Definition bind {A B} (m : M A) (k : A -> M B) : M B :=
  fun w =>
    match m w with
    | (Normal a, w1, e1) => let '(r, w2, e2) := k a w1 in (r, w2, e1 ++ e2)
    | (Throw e, w1, e1) => (Throw e, w1, e1)
    end.

Notation "x <- m ;; k" := (bind m (fun x => k))
  (at level 61, m at next level, right associativity).
Notation "m ;; k" := (bind m (fun _ => k))
  (at level 61, right associativity).

Definition throw {A} (e : error) : M A := fun w => (Throw e, w, []).

Definition lift {A} (c : completion A) : M A := fun w => (c, w, []).

(** [try { body } catch (e) { handler }] *)
Definition try_catch {A} (body : M A) (handler : error -> M A) : M A :=
  fun w =>
    match body w with
    | (Throw e, w1, e1) => let '(r, w2, e2) := handler e w1 in (r, w2, e1 ++ e2)
    | r => r
    end.

(** a call of an [async] method that is not awaited: what it throws rejects
    a promise nobody handles *)
Definition not_awaited (m : M unit) : M unit :=
  fun w =>
    match m w with
    | (Throw e, w1, e1) => (Normal tt, w1, e1 ++ [unhandledRejection e])
    | r => r
    end.

Definition emit (e : effect) : M unit := fun w => (Normal tt, w, [e]).

Definition read {A} (f : instance -> A) : M A := fun w => (Normal (f (this w)), w, []).

Definition update (f : world -> world) : M unit := fun w => (Normal tt, f w, []).

Definition with_this (f : instance -> instance) (w : world) : world :=
  {| this := f (this w); sockets := sockets w; readyStates := readyStates w;
     timers := timers w; requests := requests w; actions := actions w; next_id := next_id w;
     WebSocket_throws := WebSocket_throws w |}.

Definition set_config (v : value) : M unit :=
  update (with_this (fun i =>
    {| config := v; ws := ws i; reconnectTimer := reconnectTimer i;
       lastAuthCode := lastAuthCode i; slots := slots i; looks := looks i |})).

Definition set_ws (h : handle) : M unit :=
  update (with_this (fun i =>
    {| config := config i; ws := Some h; reconnectTimer := reconnectTimer i;
       lastAuthCode := lastAuthCode i; slots := slots i; looks := looks i |})).

Definition set_reconnectTimer (t : timer_id) : M unit :=
  update (with_this (fun i =>
    {| config := config i; ws := ws i; reconnectTimer := Some t;
       lastAuthCode := lastAuthCode i; slots := slots i; looks := looks i |})).

Definition set_lastAuthCode (v : value) : M unit :=
  update (with_this (fun i =>
    {| config := config i; ws := ws i; reconnectTimer := reconnectTimer i;
       lastAuthCode := v; slots := slots i; looks := looks i |})).

Definition set_slots (v : value) : M unit :=
  update (with_this (fun i =>
    {| config := config i; ws := ws i; reconnectTimer := reconnectTimer i;
       lastAuthCode := lastAuthCode i; slots := v; looks := looks i |})).

Definition set_looks (v : value) : M unit :=
  update (with_this (fun i =>
    {| config := config i; ws := ws i; reconnectTimer := reconnectTimer i;
       lastAuthCode := lastAuthCode i; slots := slots i; looks := v |})).

(** *** The platform *)

(** the world once the platform has created a WebSocket object: the object
    is CONNECTING *)
Definition created (w : world) : world :=
  {| this := this w; sockets := sockets w;
     readyStates := readyStates w ++ [(next_id w, CONNECTING)]; timers := timers w;
     requests := requests w; actions := actions w; next_id := S (next_id w);
     WebSocket_throws := WebSocket_throws w |}.

(** [new WebSocket(url, protocols)] *)
Definition WebSocket (url : jsstring) (protocols : list jsstring) : M handle :=
  fun w =>
    match WebSocket_throws w url with
    | Some e => (Throw e, w, [new_WebSocket url protocols None])
    | None => (Normal (next_id w), created w, [new_WebSocket url protocols (Some (next_id w))])
    end.

(** the four [on] calls that attach the listeners of [_connectWebSocket] *)
Definition on_listeners (h : handle) (url : jsstring) : M unit :=
  update (fun w =>
    {| this := this w; sockets := sockets w ++ [(h, url)];
       readyStates := readyStates w; timers := timers w;
       requests := requests w; actions := actions w; next_id := next_id w;
       WebSocket_throws := WebSocket_throws w |}).

Definition remove {A} (k : nat) (l : list (nat * A)) : list (nat * A) :=
  filter (fun e => negb (Nat.eqb (fst e) k)) l.

Fixpoint find {A} (k : nat) (l : list (nat * A)) : option A :=
  match l with
  | [] => None
  | (k', a) :: l' => if Nat.eqb k k' then Some a else find k l'
  end.

Definition set_timers (ts : list (timer_id * timer_callback)) (n : nat) (w : world) : world :=
  {| this := this w; sockets := sockets w; readyStates := readyStates w;
     timers := ts; requests := requests w; actions := actions w; next_id := n;
     WebSocket_throws := WebSocket_throws w |}.

Definition set_requests (rs : list (request_id * suspended)) (n : nat) (w : world) : world :=
  {| this := this w; sockets := sockets w; readyStates := readyStates w;
     timers := timers w; requests := rs; actions := actions w; next_id := n;
     WebSocket_throws := WebSocket_throws w |}.

(** [setTimeout(callback, delay)] *)
Definition set_timeout (callback : timer_callback) (delay : Z) : M timer_id :=
  fun w =>
    let t := next_id w in
    (Normal t, set_timers (timers w ++ [(t, callback)]) (S t) w,
     [setTimeout t callback delay]).

(** [clearTimeout(t)] *)
Definition clear_timeout (t : timer_id) : M unit :=
  fun w => (Normal tt, set_timers (remove t (timers w)) (next_id w) w, [clearTimeout t]).

(** [await fetch(url)] followed by [await res.json()]: the request is issued
    and the activation is suspended until the exchange settles.  The two
    awaits are one suspension here: the method does nothing between them, and
    a rejection of either lands in the same [catch]. *)
Definition fetch_await (url : jsstring) (k : suspended) : M unit :=
  fun w =>
    let r := next_id w in
    (Normal tt, set_requests (requests w ++ [(r, k)]) (S r) w, [fetch r url]).

Definition set_actions (w : world) : world :=
  {| this := this w; sockets := sockets w; readyStates := readyStates w;
     timers := timers w; requests := requests w; actions := true; next_id := next_id w;
     WebSocket_throws := WebSocket_throws w |}.

(** [v.trim()], where [callee] is the text of the expression [v.trim] as
    the engine prints it in the TypeError of a call of what is no function *)
Definition call_trim (callee : jsstring) (v : value) : completion jsstring :=
  match v with
  | VStr s => Normal (trim s)
  | VUndefined => Throw (Err TypeError (lit "Cannot read properties of undefined (reading 'trim')"))
  | VNull => Throw (Err TypeError (lit "Cannot read properties of null (reading 'trim')"))
  | _ => Throw (Err TypeError (callee ++ lit " is not a function"))
  end.

(** [v === 'text'] *)
Definition strict_eq (v : value) (text : jsstring) : bool :=
  match v with
  | VStr s => str_eqb s text
  | _ => false
  end.

(** [JSON.stringify(v)] as a value: a string or [undefined] *)
Definition JSON_stringify (v : value) : value :=
  match stringify v with
  | Some text => VStr text
  | None => VUndefined
  end.

(** the world once the [readyState] of socket [h] has changed as [f] says *)
Definition moved (h : handle) (f : readyState -> readyState) (w : world) : world :=
  {| this := this w; sockets := sockets w;
     readyStates :=
       map (fun s => if Nat.eqb (fst s) h then (fst s, f (snd s)) else s) (readyStates w);
     timers := timers w; requests := requests w; actions := actions w;
     next_id := next_id w; WebSocket_throws := WebSocket_throws w |}.

(** what [close()] does to the [readyState] before it returns: a socket that
    is connecting or open is CLOSING from then on *)
Definition begin_closing (s : readyState) : readyState :=
  match s with
  | CONNECTING | OPEN => CLOSING
  | CLOSING | CLOSED => s
  end.

(** [socket.close()]: it never throws *)
Definition socket_close (h : handle) : M unit :=
  emit (ws_close h) ;;
  update (moved h begin_closing).

(** what [send] throws on a socket that has not opened *)
Definition not_open : error :=
  Err OtherError (lit "WebSocket is not open: readyState 0 (CONNECTING)").

(** [socket.send(data)]: the library throws while the socket is CONNECTING.
    Once the socket is closing or closed the call returns and the library
    discards the data. *)
Definition socket_send (h : handle) (data : value) : M unit :=
  fun w =>
    match find h (readyStates w) with
    | Some CONNECTING => throw not_open w
    | _ => emit (ws_send h data) w
    end.

(** [this.ws.send(data)] *)
Definition this_ws_send (data : value) : M unit :=
  w <- read ws ;;
  match w with
  | None => throw (Err TypeError (lit "Cannot read properties of null (reading 'send')"))
  | Some h => socket_send h data
  end.

(** [this.ws.close()] *)
Definition this_ws_close : M unit :=
  w <- read ws ;;
  match w with
  | None => throw (Err TypeError (lit "Cannot read properties of null (reading 'close')"))
  | Some h => socket_close h
  end.

(** [array.map(f)] for a function [f] that only reads its argument *)
Fixpoint map_items {A} (f : value -> completion A) (items : list value)
  : completion (list A) :=
  match items with
  | [] => Normal []
  | x :: rest =>
      match f x with
      | Throw e => Throw e
      | Normal a =>
          match map_items f rest with
          | Throw e => Throw e
          | Normal l => Normal (a :: l)
          end
      end
  end.

(** [v.map(f)], where [callee] is the text of the expression [v.map] *)
Definition call_map {A} (callee : jsstring) (v : value) (f : value -> completion A)
  : completion (list A) :=
  match v with
  | VArr items => map_items f items
  | VUndefined => Throw (Err TypeError (lit "Cannot read properties of undefined (reading 'map')"))
  | VNull => Throw (Err TypeError (lit "Cannot read properties of null (reading 'map')"))
  | _ => Throw (Err TypeError (callee ++ lit " is not a function"))
  end.

Definition and_then {A B} (c : completion A) (k : A -> completion B) : completion B :=
  match c with
  | Normal a => k a
  | Throw e => Throw e
  end.

(** *** The methods of [LiveGradeInstance] *)

(** the salt of [_computeAuth], concatenated as the source does *)
Definition salt : jsstring :=
  lit "SwPx0b" ++ lit "jRFqVWm6" ++ lit "LCQ8et9h" ++ lit "hYt26L8G" ++ lit "ktOVB8d1R".

(** [_computeAuth(challenge)]: [challenge + salt] converts the challenge to
    a string; the digest of the text is rendered in hexadecimal and put in
    upper case. *)
Definition _computeAuth (challenge : value) : completion jsstring :=
  and_then (ToString challenge) (fun c =>
  let h := MD5.digest (utf8 (c ++ salt)) in
  Normal (toUpperCase (hex h))).

(** [_scheduleReconnect()] *)
Definition _scheduleReconnect : M unit :=
  pending <- read reconnectTimer ;;
  match pending with
  | Some t => clear_timeout t
  | None => ret tt
  end ;;
  t <- set_timeout Reconnect 5000 ;;
  set_reconnectTimer t.

(** the [open], [error] and [close] listeners attached by
    [_connectWebSocket] *)
Definition on_open (url : jsstring) : M unit :=
  emit (updateStatus Ok None) ;;
  emit (log (lit "info") (lit "WebSocket opened to " ++ url)).

Definition on_error (err : error) : M unit :=
  emit (log (lit "error") (lit "WS error: " ++ message err)) ;;
  emit (updateStatus ConnectionFailure (Some (message err))) ;;
  _scheduleReconnect.

Definition on_close : M unit :=
  emit (log (lit "warn") (lit "WS closed, scheduling reconnect")) ;;
  _scheduleReconnect.

(** [_connectWebSocket()] *)
Definition _connectWebSocket : M unit :=
  cfg <- read config ;;
  h <- lift (get cfg (lit "host")) ;;
  host <- lift (call_trim (q "(this.config.host || '').trim") (or_else h (VStr []))) ;;
  p <- lift (get cfg (lit "port")) ;;
  port <- lift (and_then (ToString (or_else p (VStr (lit "9000"))))
                         (fun text => Normal (trim text))) ;;
  if negb (truthy (VStr host)) then
    emit (updateStatus BadConfig (Some (lit "Enter server IP")))
  else
    let url := lit "ws://" ++ host ++ lit ":" ++ port in
    emit (log (lit "info") ([8594] ++ lit " Connecting to " ++ url)) ;;
    try_catch
      (socket <- WebSocket url [lit "livegrade-live-updates"] ;;
       set_ws socket ;;
       on_listeners socket url)
      (fun e =>
         emit (log (lit "error") (lit "Connect failed: " ++ message e)) ;;
         emit (updateStatus ConnectionFailure (Some (message e))) ;;
         _scheduleReconnect).

(** [init(config)] *)
Definition init (cfg : value) : M unit :=
  set_config cfg ;;
  emit (updateStatus Connecting None) ;;
  _connectWebSocket.

(** [configUpdated(config)] *)
Definition configUpdated (cfg : value) : M unit :=
  set_config cfg ;;
  socket <- read ws ;;
  match socket with
  | Some h => socket_close h
  | None => ret tt
  end ;;
  emit (updateStatus Connecting None) ;;
  _connectWebSocket.

(** [destroy()] *)
Definition destroy : M unit :=
  socket <- read ws ;;
  match socket with
  | Some h => socket_close h
  | None => ret tt
  end ;;
  pending <- read reconnectTimer ;;
  match pending with
  | Some t => clear_timeout t
  | None => ret tt
  end ;;
  emit (updateStatus Disconnected None).

Definition command (subtype : jsstring) (arguments : value) : value :=
  VObj [(lit "type", VStr (lit "command"));
        (lit "subtype", VStr subtype);
        (lit "arguments", arguments)].

(** the [callback] of the applyGrade action, built by [_buildApplyAction] *)
Definition applyGrade_callback (action : value) : M unit :=
  options <- lift (get action (lit "options")) ;;
  slot_option <- lift (get options (lit "slot")) ;;
  slot <- lift (parseInt slot_option) ;;
  options' <- lift (get action (lit "options")) ;;
  uid <- lift (get options' (lit "look")) ;;
  let changeCmd := command (lit "changeDevice") (VObj [(lit "index", VNum slot)]) in
  let applyCmd := command (lit "applyGrade") (VObj [(lit "uid", uid)]) in
  emit (log (lit "info") ([8594] ++ lit " Changing to slot " ++ number_toString slot)) ;;
  this_ws_send (JSON_stringify changeCmd) ;;
  uid_text <- lift (ToString uid) ;;
  emit (log (lit "info")
          ([8594] ++ lit " Applying UID " ++ uid_text ++ lit " to slot "
           ++ number_toString slot)) ;;
  this_ws_send (JSON_stringify applyCmd) ;;
  _ <- set_timeout (DelayComplete slot) 500 ;;
  ret tt.

(** the function armed by the callback's [setTimeout] *)
Definition delay_complete (slot : number) : M unit :=
  emit (log (lit "info")
          ([8594] ++ lit " Delay complete after applying grade to slot "
           ++ number_toString slot)).

Definition slot_choice (s : value) : completion choice :=
  and_then (get s (lit "index")) (fun index =>
  and_then (ToString index) (fun id_text =>
  and_then (get s (lit "label")) (fun lab =>
  if truthy lab then Normal {| id := VStr id_text; label := lab |}
  else
    and_then (get s (lit "index")) (fun index' =>
    and_then (ToString index') (fun text =>
    Normal {| id := VStr id_text; label := VStr (lit "Slot " ++ text) |}))))).

Definition look_choice (l : value) : completion choice :=
  and_then (get l (lit "uid")) (fun uid =>
  and_then (get l (lit "name")) (fun name =>
  Normal {| id := uid; label := name |})).

(** [_buildApplyAction()] *)
Definition _buildApplyAction : M unit :=
  current_slots <- read slots ;;
  slotChoices <- lift (call_map (lit "this.slots.map") current_slots slot_choice) ;;
  current_looks <- read looks ;;
  lookChoices <- lift (call_map (lit "this.looks.map") current_looks look_choice) ;;
  emit (setActionDefinitions slotChoices lookChoices) ;;
  update set_actions.

Definition endpoint (host port path : jsstring) (auth : value) : completion jsstring :=
  and_then (ToString auth) (fun a =>
  Normal (lit "http://" ++ host ++ lit ":" ++ port ++ path ++ lit "?auth=" ++ a)).

(** the [catch] clause of [_fetchSlotsAndLooks] *)
Definition fetch_failed (e : error) : M unit :=
  emit (log (lit "error") (lit "Fetch error: " ++ message e)).

(** [_fetchSlotsAndLooks()], up to its first [await] *)
Definition _fetchSlotsAndLooks : M unit :=
  cfg <- read config ;;
  h <- lift (get cfg (lit "host")) ;;
  host <- lift (call_trim (lit "this.config.host.trim") h) ;;
  p <- lift (get cfg (lit "port")) ;;
  port <- lift (and_then (ToString (or_else p (VStr (lit "9000"))))
                         (fun text => Normal (trim text))) ;;
  auth <- read lastAuthCode ;;
  try_catch
    (url <- lift (endpoint host port (lit "/devices/slots") auth) ;;
     fetch_await url (AwaitSlots host port auth))
    fetch_failed.

(** [_fetchSlotsAndLooks()] resumed when the exchange it awaits settles:
    [outcome] is the parsed body, or what [fetch] or [res.json()] rejected
    with *)
Definition resume (k : suspended) (outcome : completion value) : M unit :=
  match k with
  | AwaitSlots host port auth =>
      try_catch
        (body <- lift outcome ;;
         result <- lift (get body (lit "result")) ;;
         set_slots (or_else result (VArr [])) ;;
         url <- lift (endpoint host port (lit "/library/grades") auth) ;;
         fetch_await url (AwaitLooks host port auth))
        fetch_failed
  | AwaitLooks host port auth =>
      try_catch
        (body <- lift outcome ;;
         result <- lift (get body (lit "result")) ;;
         set_looks (or_else result (VArr [])) ;;
         _buildApplyAction)
        fetch_failed
  end.

(** [msg.type === 'authentication' && msg.subtype === subtype] *)
Definition tagged (msg : value) (subtype : jsstring) : completion bool :=
  and_then (get msg (lit "type")) (fun t =>
  if strict_eq t (lit "authentication") then
    and_then (get msg (lit "subtype")) (fun s => Normal (strict_eq s subtype))
  else Normal false).

(** [_onWsMessage(raw)] *)
Definition _onWsMessage (raw : jsstring) : M unit :=
  match JSON_parse raw with
  | None => ret tt
  | Some msg =>
      is_challenge <- lift (tagged msg (lit "challenge")) ;;
      if is_challenge then
        arguments <- lift (get msg (lit "arguments")) ;;
        chal <- lift (get arguments (lit "challenge")) ;;
        chal_text <- lift (ToString chal) ;;
        emit (log (lit "info") ([55357; 56592] ++ lit " Challenge: " ++ chal_text)) ;;
        code <- lift (_computeAuth chal) ;;
        set_lastAuthCode (VStr code) ;;
        emit (log (lit "info") ([55357; 57056] ++ lit " Auth code: " ++ code)) ;;
        this_ws_send (JSON_stringify
          (VObj [(lit "type", VStr (lit "authentication"));
                 (lit "subtype", VStr (lit "response"));
                 (lit "arguments",
                  VObj [(lit "response", VStr code);
                        (lit "device", VStr (lit "Companion"))])]))
      else
        is_result <- lift (tagged msg (lit "result")) ;;
        if is_result then
          arguments <- lift (get msg (lit "arguments")) ;;
          success <- lift (get arguments (lit "success")) ;;
          if truthy success then
            emit (log (lit "info")
                    ([9989] ++ lit " Auth OK, fetching slots & looks" ++ [8230])) ;;
            not_awaited _fetchSlotsAndLooks
          else
            emit (log (lit "error") ([10060] ++ lit " Auth failed, closing")) ;;
            this_ws_close
        else ret tt
  end.

(** *** Events

    What the host framework, the sockets, the timers and the pending
    requests deliver to the instance, one at a time. *)

Inductive socket_event :=
| Open
| Message (data : jsstring)
| Error (err : error)
| Close.

Inductive event :=
| EInit (config : value)
| EConfigUpdated (config : value)
| EDestroy
| ESocket (h : handle) (ev : socket_event)
| ETimeout (t : timer_id)
| ESettled (r : request_id) (outcome : completion value)
| EAction (action : value).

Definition idle : M unit := ret tt.

(** what the library does to the [readyState] of a socket before it emits
    the event: the socket is OPEN when [open] is emitted, CLOSING when [error]
    is, and CLOSED when [close] is *)
Definition library_state (sev : socket_event) (s : readyState) : readyState :=
  match sev with
  | Open => match s with CONNECTING => OPEN | _ => s end
  | Message _ => s
  | Error _ => begin_closing s
  | Close => CLOSED
  end.

(** the world in which the listener of [sev] on socket [h] starts *)
Definition arrived (h : handle) (sev : socket_event) (w : world) : world :=
  moved h (library_state sev) w.

Definition deliver (ev : event) : M unit :=
  fun w =>
    match ev with
    | EInit cfg => init cfg w
    | EConfigUpdated cfg => configUpdated cfg w
    | EDestroy => destroy w
    | ESocket h sev =>
        match find h (sockets w) with
        | None => idle w
        | Some url =>
            match sev with
            | Open => on_open url (arrived h sev w)
            | Message data => _onWsMessage data w
            | Error err => on_error err (arrived h sev w)
            | Close => on_close (arrived h sev w)
            end
        end
    | ETimeout t =>
        match find t (timers w) with
        | None => idle w
        | Some callback =>
            let w' := set_timers (remove t (timers w)) (next_id w) w in
            match callback with
            | Reconnect => _connectWebSocket w'
            | DelayComplete slot => delay_complete slot w'
            end
        end
    | ESettled r outcome =>
        match find r (requests w) with
        | None => idle w
        | Some k =>
            not_awaited (resume k outcome)
              (set_requests (remove r (requests w)) (next_id w) w)
        end
    | EAction action =>
        if actions w then applyGrade_callback action w else idle w
    end.

Definition world_after {A} (r : completion A * world * list effect) : world := snd (fst r).
Definition effects_of {A} (r : completion A * world * list effect) : list effect := snd r.

(** the instance as its constructor leaves it *)
Definition constructed (env : jsstring -> option error) : world :=
  {| this := {| config := VUndefined; ws := None; reconnectTimer := None;
                lastAuthCode := VNull; slots := VArr []; looks := VArr [] |};
     sockets := []; readyStates := []; timers := []; requests := []; actions := false;
     next_id := O; WebSocket_throws := env |}.

Fixpoint run (w : world) (events : list event) : world * list effect :=
  match events with
  | [] => (w, [])
  | ev :: rest =>
      let r := deliver ev w in
      let '(w', effs) := run (world_after r) rest in
      (w', effects_of r ++ effs)
  end.

Inductive reachable : world -> Prop :=
| reachable_constructed env : reachable (constructed env)
| reachable_deliver w ev : reachable w -> reachable (world_after (deliver ev w)).

(** *** The authentication code in the words of the specification

    The upper-case hexadecimal MD5 digest of the UTF-8 bytes of the challenge
    followed by those of the shared secret, one constant. *)

Definition secret : jsstring := lit "SwPx0bjRFqVWm6LCQ8et9hhYt26L8GktOVB8d1R".

Definition upper_hex_digit (d : Z) : code_unit := if d <? 10 then 48 + d else 55 + d.

Definition upper_hex (bytes : list byte) : jsstring :=
  flat_map (fun b => [upper_hex_digit (b / 16); upper_hex_digit (b mod 16)]) bytes.

Definition computeAuthCode_spec (challenge : jsstring) : jsstring :=
  upper_hex (MD5.digest (utf8 challenge ++ utf8 secret)).

(** a digit or a letter from A to F *)
Definition is_upper_hex (c : code_unit) : bool :=
  ((48 <=? c) && (c <=? 57)) || ((65 <=? c) && (c <=? 70)).

(** a host that [_connectWebSocket] takes for missing: a value that is
    falsy, or a string of white space *)
Definition is_blank (v : value) : bool :=
  match v with
  | VStr s => forallb is_whitespace s
  | _ => negb (truthy v)
  end.

(** the world once [this.config = cfg] is done *)
Definition configured (cfg : value) (w : world) : world :=
  world_after (set_config cfg w).

(** the call [if (this.ws) this.ws.close()] makes *)
Definition closing (w : world) : list effect :=
  match ws (this w) with
  | Some h => [ws_close h]
  | None => []
  end.

(** the world it leaves: the socket [this.ws] holds is closing, if it was
    connecting or open *)
Definition ws_closed (w : world) : world :=
  match ws (this w) with
  | Some h => moved h begin_closing w
  | None => w
  end.

Definition is_byte (b : Z) : Prop := 0 <= b < 256.

(** *** Invariants of the instance *)

(** a property of the world that a computation keeps, whether it returns or
    throws *)
Definition preserves {A} (P : world -> Prop) (m : M A) : Prop :=
  forall w, P w -> P (world_after (m w)).

(** [this.ws] holds a socket *)
Definition ws_set (w : world) : Prop := ws (this w) <> None.

(** while [this.ws] is null there is no socket with listeners, no pending
    request and no action installed *)
Definition anchored (w : world) : Prop :=
  ws (this w) = None -> sockets w = [] /\ requests w = [] /\ actions w = false.

(** [this.lastAuthCode] is null or a string *)
Definition auth_kept (w : world) : Prop :=
  lastAuthCode (this w) = VNull \/ exists code, lastAuthCode (this w) = VStr code.

Definition is_reconnect (e : timer_id * timer_callback) : bool :=
  match snd e with
  | Reconnect => true
  | DelayComplete _ => false
  end.

(** the reconnect timers that are pending *)
Definition pending_reconnects (w : world) : list timer_id :=
  map fst (filter is_reconnect (timers w)).

(** pending timers are distinct objects created earlier, and a pending
    reconnect timer is the one [this.reconnectTimer] holds *)
Definition timers_kept (w : world) : Prop :=
  NoDup (map fst (timers w))
  /\ (forall t, In t (map fst (timers w)) -> (t < next_id w)%nat)
  /\ (forall t, In (t, Reconnect) (timers w) -> reconnectTimer (this w) = Some t).

(** *** Sample runs *)

(** a platform on which every url is accepted by [new WebSocket] *)
Definition accepting : jsstring -> option error := fun _ => None.

Definition sample_config : value :=
  VObj [(lit "host", VStr (lit "10.0.0.5")); (lit "port", VStr (lit "9000"))].

Definition blank_config : value :=
  VObj [(lit "host", VStr (lit "   ")); (lit "port", VStr (lit "9000"))].

Definition challenge_text : jsstring :=
  q "{'type':'authentication','subtype':'challenge','arguments':{'challenge':'abc123'}}".

Definition result_text (success : bool) : jsstring :=
  q "{'type':'authentication','subtype':'result','arguments':{'success':"
  ++ (if success then lit "true" else lit "false") ++ q "}}".

Definition catalog (entries : list value) : value := VObj [(lit "result", VArr entries)].

Definition slot_entry (index : Z) (name : jsstring) : value :=
  VObj [(lit "index", VNum (of_int index)); (lit "label", VStr name)].

Definition look_entry (uid name : jsstring) : value :=
  VObj [(lit "uid", VStr uid); (lit "name", VStr name)].

Definition apply_action (slot look : value) : value :=
  VObj [(lit "options", VObj [(lit "slot", slot); (lit "look", look)])].

(** what makes a step of the catalogue fetch fail: the exchange rejects, or
    the body has no readable [result] *)
Definition failure (outcome : completion value) : option error :=
  match outcome with
  | Throw e => Some e
  | Normal body =>
      match get body (lit "result") with
      | Throw e => Some e
      | Normal _ => None
      end
  end.

(** how [JSON.stringify] renders a number *)
Definition number_json (x : number) : jsstring :=
  match x with
  | Fin m e => number_toString (Fin m e)
  | _ => lit "null"
  end.

(** the socket of the first connection is open *)
Definition connected : world :=
  fst (run (constructed accepting) [EInit sample_config; ESocket 0%nat Open]).

(** the challenge was answered *)
Definition answered : world :=
  fst (run connected [ESocket 0%nat (Message challenge_text)]).

(** the server accepted the answer: the slot request, number 1, is pending *)
Definition fetching : world :=
  fst (run answered [ESocket 0%nat (Message (result_text true))]).

(** both requests resolved with an empty list *)
Definition empty_catalog : world :=
  fst (run fetching [ESettled 1%nat (Normal (catalog [])); ESettled 2%nat (Normal (catalog []))]).

(** both requests resolved with one entry, and the server accepted a second
    handshake: the slot request of the second sequence, number 3, is pending *)
Definition refetching : world :=
  fst (run fetching
         [ESettled 1%nat (Normal (catalog [slot_entry 1 (lit "Main")]));
          ESettled 2%nat (Normal (catalog [look_entry (lit "uid-xyz") (lit "Warm")]));
          ESocket 0%nat (Message challenge_text);
          ESocket 0%nat (Message (result_text true))]).

(** the second fetch sequence of [refetching]: the slot request resolves
    with a new list, then the look request fails *)
Definition look_fetch_fails : world :=
  fst (run refetching
         [ESettled 3%nat (Normal (catalog [slot_entry 2 (lit "Spare")]));
          ESettled 4%nat (Throw (Err OtherError (lit "fetch failed")))]).

(** [destroy()] while the socket is open *)
Definition stopped : world := world_after (deliver EDestroy connected).

(** the first connection failed: the reconnect timer, number 1, is pending *)
Definition retrying : world :=
  world_after (deliver (ESocket 0%nat (Error (Err OtherError (lit "connect ECONNREFUSED")))) connected).

Definition other_config : value :=
  VObj [(lit "host", VStr (lit "10.0.0.6")); (lit "port", VStr (lit "9000"))].

(** the host was blanked while the socket of the first connection was open *)
Definition blanked : world :=
  world_after (deliver (EConfigUpdated blank_config) connected).

(** the host was blanked while the reconnect timer, number 1, was pending *)
Definition blanked_retrying : world :=
  world_after (deliver (EConfigUpdated blank_config) retrying).

(** the server moved right after the first socket opened: socket 0 is
    closing and [this.ws] holds the socket of the new connection, number 1,
    which has not opened yet *)
Definition two_sockets : world :=
  world_after (deliver (EConfigUpdated other_config) connected).

(** the server moved after the catalogue was fetched: [this.ws] holds the
    socket of the new connection, number 3, which has not opened yet, and the
    action is installed *)
Definition reconfigured : world :=
  world_after (deliver (EConfigUpdated other_config) empty_catalog).

(** a call that is not the creation of a socket *)
Definition no_socket (e : effect) : Prop :=
  match e with
  | new_WebSocket _ _ _ => False
  | _ => True
  end.

(** a computation all of whose calls satisfy [Q], from any state *)
Definition silent {A} (Q : effect -> Prop) (m : M A) : Prop :=
  forall w, Forall Q (effects_of (m w)).

(** an event other than the host handing over a configuration *)
Definition keeps_config (ev : event) : bool :=
  match ev with
  | EInit _ | EConfigUpdated _ => false
  | _ => true
  end.

(** *** Vocabulary of the further properties *)

Definition completion_of {A} (r : completion A * world * list effect) : completion A :=
  fst (fst r).

(** the call [if (this.reconnectTimer) clearTimeout(this.reconnectTimer)]
    makes *)
Definition cleared (w : world) : list effect :=
  match reconnectTimer (this w) with
  | Some t => [clearTimeout t]
  | None => []
  end.

(** the pending timers once the timer [this.reconnectTimer] holds is cleared *)
Definition without_held_timer (w : world) : list (timer_id * timer_callback) :=
  match reconnectTimer (this w) with
  | Some t => remove t (timers w)
  | None => timers w
  end.

(** the world [_scheduleReconnect] leaves *)
Definition rearmed (w : world) : world :=
  world_after
    (set_reconnectTimer (next_id w)
       (set_timers (without_held_timer w ++ [(next_id w, Reconnect)]) (S (next_id w)) w)).

(** the world [destroy] leaves *)
Definition disarmed (w : world) : world :=
  match reconnectTimer (this w) with
  | Some t => set_timers (remove t (timers w)) (next_id w) (ws_closed w)
  | None => ws_closed w
  end.

(** the world once [new WebSocket(url, ...)] has returned, [this.ws] holds
    the new socket and the listeners are attached *)
Definition opened (url : jsstring) (w : world) : world :=
  let h := next_id w in
  {| this := {| config := config (this w); ws := Some h;
                reconnectTimer := reconnectTimer (this w);
                lastAuthCode := lastAuthCode (this w);
                slots := slots (this w); looks := looks (this w) |};
     sockets := sockets w ++ [(h, url)];
     readyStates := readyStates w ++ [(h, CONNECTING)]; timers := timers w;
     requests := requests w; actions := actions w; next_id := S h;
     WebSocket_throws := WebSocket_throws w |}.

(** the sub-protocol [_connectWebSocket] asks for *)
Definition subprotocols : list jsstring := [lit "livegrade-live-updates"].

(** [ws://host:port] with both parts trimmed *)
Definition ws_url (host port_text : jsstring) : jsstring :=
  lit "ws://" ++ trim host ++ lit ":" ++ trim port_text.

(** a configuration with a padded host and no port *)
Definition padded_config : value := VObj [(lit "host", VStr (lit " 10.0.0.5 "))].

(** a platform on which [new WebSocket] throws for every url *)
Definition refusing : jsstring -> option error :=
  fun _ => Some (Err SyntaxError (lit "Invalid URL")).

(** a push update of the server, a challenge without a nonce and a result
    without arguments *)
Definition update_text : jsstring :=
  q "{'type':'update','subtype':'lookChanged','arguments':{'uid':'uid-xyz'}}".

Definition bare_challenge_text : jsstring :=
  q "{'type':'authentication','subtype':'challenge','arguments':{}}".

Definition result_without_arguments : jsstring :=
  q "{'type':'authentication','subtype':'result'}".

(** the configuration was replaced by one without a host while the socket of
    the first connection still delivers messages *)
Definition unconfigured : world :=
  world_after (deliver (EConfigUpdated (VObj [])) answered).

(** a slot as the server reports it: an index and, optionally, a label *)
Definition slot_object (s : number * option jsstring) : value :=
  VObj ((lit "index", VNum (fst s))
        :: match snd s with
           | Some l => [(lit "label", VStr l)]
           | None => []
           end).

(** the choice expected for it: the index as text, and the label, or
    "Slot " and the index when the label is missing or empty *)
Definition slot_choice_of (s : number * option jsstring) : choice :=
  {| id := VStr (number_toString (fst s));
     label := match snd s with
              | Some (c :: l) => VStr (c :: l)
              | _ => VStr (lit "Slot " ++ number_toString (fst s))
              end |}.

(** a look as the server reports it, and the choice expected for it *)
Definition look_object (l : jsstring * jsstring) : value := look_entry (fst l) (snd l).

Definition look_choice_of (l : jsstring * jsstring) : choice :=
  {| id := VStr (fst l); label := VStr (snd l) |}.

(** pending requests were issued earlier *)
Definition requests_kept (w : world) : Prop :=
  forall r, In r (map fst (requests w)) -> (r < next_id w)%nat.

(** the world once a look step has stored [result] *)
Definition looks_stored (r : request_id) (result : value) (w : world) : world :=
  world_after
    (set_looks (or_else result (VArr []))
       (set_requests (remove r (requests w)) (next_id w) w)).

(** [this.lastAuthCode] is null or thirty-two upper-case hexadecimal
    digits *)
Definition auth_shaped (w : world) : Prop :=
  lastAuthCode (this w) = VNull
  \/ exists code,
       lastAuthCode (this w) = VStr code
       /\ List.length code = 32%nat /\ forallb is_upper_hex code = true.

(** the sockets and their states belong to objects created earlier *)
Definition sockets_kept (w : world) : Prop :=
  (forall h, In h (map fst (sockets w)) -> (h < next_id w)%nat)
  /\ (forall h, In h (map fst (readyStates w)) -> (h < next_id w)%nat).

(** the socket created last, if any *)
Definition latest_socket (w : world) : option handle :=
  last (map (fun s => Some (fst s)) (sockets w)) None.

(** [this.ws] holds the socket created last *)
Definition ws_latest (w : world) : Prop := ws (this w) = latest_socket w.

(** The calls each kind of event can lead to, read off the methods it runs:
    [init], [configUpdated] and the reconnect timer run [_connectWebSocket];
    the error and close listeners run [_scheduleReconnect]; a message runs
    [_onWsMessage] and, not awaited, the start of [_fetchSlotsAndLooks]; a
    settlement resumes [_fetchSlotsAndLooks], whose [try] covers all it does;
    the action runs the applyGrade callback. *)
Definition may_call (ev : event) (e : effect) : bool :=
  match e with
  | updateStatus Connecting _ =>
      match ev with EInit _ | EConfigUpdated _ => true | _ => false end
  | updateStatus Ok _ => match ev with ESocket _ Open => true | _ => false end
  | updateStatus BadConfig _ =>
      match ev with EInit _ | EConfigUpdated _ | ETimeout _ => true | _ => false end
  | updateStatus ConnectionFailure _ =>
      match ev with
      | EInit _ | EConfigUpdated _ | ETimeout _ | ESocket _ (Error _) => true
      | _ => false
      end
  | updateStatus Disconnected _ => match ev with EDestroy => true | _ => false end
  | log _ _ => match ev with EDestroy => false | _ => true end
  | new_WebSocket _ _ _ =>
      match ev with EInit _ | EConfigUpdated _ | ETimeout _ => true | _ => false end
  | ws_send _ _ =>
      match ev with ESocket _ (Message _) | EAction _ => true | _ => false end
  | ws_close _ =>
      match ev with
      | EConfigUpdated _ | EDestroy | ESocket _ (Message _) => true
      | _ => false
      end
  | setTimeout _ callback delay =>
      match callback, ev with
      | Reconnect, (EInit _ | EConfigUpdated _ | ETimeout _
                    | ESocket _ (Error _) | ESocket _ Close) => delay =? 5000
      | DelayComplete _, EAction _ => delay =? 500
      | _, _ => false
      end
  | clearTimeout _ =>
      match ev with
      | EInit _ | EConfigUpdated _ | ETimeout _ | EDestroy
      | ESocket _ (Error _) | ESocket _ Close => true
      | _ => false
      end
  | fetch _ _ =>
      match ev with ESocket _ (Message _) | ESettled _ _ => true | _ => false end
  | setActionDefinitions _ _ => match ev with ESettled _ _ => true | _ => false end
  | unhandledRejection _ => match ev with ESocket _ (Message _) => true | _ => false end
  end.

(** the events whose handling catches or cannot meet an exception *)
Definition cannot_throw (ev : event) : bool :=
  match ev with
  | EDestroy | ESettled _ _ => true
  | ESocket _ Open | ESocket _ (Error _) | ESocket _ Close => true
  | _ => false
  end.

(** the world once a slot step has stored [result] and issued the look
    request *)
Definition slots_stored (r : request_id) (result : value) (k : suspended) (w : world)
  : world :=
  let w1 :=
    world_after
      (set_slots (or_else result (VArr []))
         (set_requests (remove r (requests w)) (next_id w) w)) in
  set_requests (requests w1 ++ [(next_id w, k)]) (S (next_id w)) w1.

(** a 16-bit code unit *)
Definition is_code_unit (c : Z) : Prop := 0 <= c < 65536.

(** the authentication response that carries [code], as an object *)
Definition response_message (code : jsstring) : value :=
  VObj [(lit "type", VStr (lit "authentication"));
        (lit "subtype", VStr (lit "response"));
        (lit "arguments",
         VObj [(lit "response", VStr code); (lit "device", VStr (lit "Companion"))])].

(** a uid with a quote, a backslash, a line feed, a control character, an
    accented letter, a surrogate pair and a lone surrogate *)
Definition awkward_uid : jsstring :=
  lit "a" ++ [34; 92; 10; 1; 233; 55357; 56848; 55357] ++ lit "z".

End LiveGrade.
(** * Properties *)

Import JS LiveGrade.

(** ** The platform model on known values *)

Example md5_empty : hex (MD5.digest []) = lit "d41d8cd98f00b204e9800998ecf8427e".
Proof. vm_compute. reflexivity. Qed.

Example md5_abc : hex (MD5.digest (utf8 (lit "abc"))) = lit "900150983cd24fb0d6963f7d28e17f72".
Proof. vm_compute. reflexivity. Qed.

Example md5_two_blocks :
  hex (MD5.digest (utf8 (List.concat (repeat (lit "1234567890") 8))))
  = lit "57edf4a22be3c955ac49da2e2107b67a".
Proof. vm_compute. reflexivity. Qed.

Example utf8_pair_and_lone_surrogate :
  utf8 [233; 8364; 55357; 56848; 55357; 65]
  = [195; 169; 226; 130; 172; 240; 159; 152; 144; 239; 191; 189; 65].
Proof. vm_compute. reflexivity. Qed.

Example trim_spaces : trim ([9; 32; 160] ++ lit "10.0.0.5 " ++ [8232]) = lit "10.0.0.5".
Proof. vm_compute. reflexivity. Qed.

Example toString_numbers :
  map number_toString
    [of_int 0; of_int (-12); of_int (2 ^ 60); of_int (10 ^ 21);
     to_double false 1 10; to_double false 5 (10 ^ 324); to_double true 15 10;
     to_double false 1 (10 ^ 7); NaN; Infinity true]
  = [lit "0"; lit "-12"; lit "1152921504606847000"; lit "1e+21";
     lit "0.1"; lit "5e-324"; lit "-1.5"; lit "1e-7"; lit "NaN"; lit "-Infinity"].
Proof. vm_compute. reflexivity. Qed.

Example parseInt_strings :
  map parseInt_string
    [lit "3"; lit "  42abc"; lit "-0"; lit "0x1F"; lit "1e3"; lit "abc"; lit ""; lit "0x"]
  = [of_int 3; of_int 42; of_int 0; of_int 31; of_int 1; NaN; NaN; NaN].
Proof. vm_compute. reflexivity. Qed.

Example parse_document :
  JSON_parse (q " { 'a' : [1, -2.5e1, true, null, 'xA\n'], 'b' : {}, 'a' : 'last' } ")
  = Some (VObj [(lit "a", VStr (lit "last")); (lit "b", VObj [])]).
Proof. vm_compute. reflexivity. Qed.

Example parse_array :
  JSON_parse (q "[1, -2.5e1, true, null, 'xA\n']")
  = Some (VArr [VNum (of_int 1); VNum (of_int (-25)); VBool true; VNull;
                VStr (lit "xA" ++ [10])]).
Proof. vm_compute. reflexivity. Qed.

Example parse_rejects :
  map JSON_parse
    [lit ""; lit "not json"; q "{'a':1,}"; lit "[1 2]"; lit "01"; lit "1."; q "'open";
     lit "undefined"; lit "NaN"; q "{'a'}"; lit "[]]"]
  = repeat None 11.
Proof. vm_compute. reflexivity. Qed.

Example stringify_values :
  stringify
    (VObj [(lit "n", VNum NaN); (lit "u", VUndefined);
           (lit "a", VArr [VUndefined; VNum (of_int 3); VStr ([34; 10] ++ lit "x")])])
  = Some (q "{'n':null,'a':[null,3,'\'\nx']}").
Proof. vm_compute. reflexivity. Qed.

Example toString_values :
  map ToString
    [VArr [VNum (of_int 1); VNull; VArr [VStr (lit "a"); VUndefined]]; VObj []; VUndefined]
  = [Normal (lit "1,,a,"); Normal (lit "[object Object]"); Normal (lit "undefined")].
Proof. vm_compute. reflexivity. Qed.

(** the choices [_buildApplyAction] derives from a slot without a label and
    a slot with one *)
Example slot_choices :
  call_map (lit "this.slots.map")
    (VArr [VObj [(lit "index", VNum (of_int 1)); (lit "label", VUndefined)];
           VObj [(lit "index", VNum (of_int 2)); (lit "label", VStr (lit "Main"))]])
    slot_choice
  = Normal [ {| id := VStr (lit "1"); label := VStr (lit "Slot 1") |};
             {| id := VStr (lit "2"); label := VStr (lit "Main") |} ].
Proof. vm_compute. reflexivity. Qed.
(** ** Text and digest *)

Lemma trimStart_blank (s : jsstring) : forallb is_whitespace s = true -> trimStart s = [].
Proof.
  induction s as [|c s IH]; [reflexivity|].
  cbn [forallb trimStart]. intros H. apply andb_true_iff in H as [Hc Hs].
  rewrite Hc. auto.
Qed.

Lemma trim_blank (s : jsstring) : forallb is_whitespace s = true -> trim s = [].
Proof. intros H. unfold trim, trimEnd. rewrite (trimStart_blank s H). reflexivity. Qed.

Lemma blank_host_trims (callee : jsstring) (h : value) :
  is_blank h = true -> call_trim callee (or_else h (VStr [])) = Normal [].
Proof.
  intros H. unfold or_else.
  destruct h as [| |b|x|s|l|l]; cbn [is_blank] in H; try discriminate; try reflexivity.
  - destruct (truthy (VBool b)); [discriminate | reflexivity].
  - destruct (truthy (VNum x)); [discriminate | reflexivity].
  - destruct s as [|c s]; [reflexivity|]. cbn [truthy call_trim].
    rewrite (trim_blank _ H). reflexivity.
Qed.

(** The encoding of a text followed by another is the two encodings in a
    row, provided the second does not start with the second half of a
    surrogate pair. *)
Lemma utf8_app_bounded (t : jsstring) :
  match t with [] => True | c :: _ => is_low_surrogate c = false end ->
  forall n s, (List.length s <= n)%nat -> utf8 (s ++ t) = utf8 s ++ utf8 t.
Proof.
  intros Ht n. induction n as [|n IH]; intros s Hs.
  - destruct s; [reflexivity | simpl in Hs; lia].
  - destruct s as [|c s]; [reflexivity|].
    simpl in Hs.
    assert (IH1 : utf8 (s ++ t) = utf8 s ++ utf8 t) by (apply IH; lia).
    cbn [app utf8].
    destruct (c <? 128); [rewrite IH1; reflexivity|].
    destruct (c <? 2048); [rewrite IH1; reflexivity|].
    destruct (is_high_surrogate c).
    + destruct s as [|c2 s].
      * cbn [app]. destruct t as [|x t]; [reflexivity|]. rewrite Ht. reflexivity.
      * cbn [app]. destruct (is_low_surrogate c2).
        -- rewrite (IH s) by (simpl in Hs; lia). reflexivity.
        -- cbn [app] in IH1. rewrite IH1. reflexivity.
    + destruct (is_low_surrogate c); rewrite IH1; reflexivity.
Qed.

Lemma utf8_salt (s : jsstring) : utf8 (s ++ salt) = utf8 s ++ utf8 secret.
Proof.
  change secret with salt.
  apply (utf8_app_bounded salt) with (n := List.length s); [reflexivity | lia].
Qed.

Lemma upper_digit (d : Z) :
  0 <= d < 16 ->
  (let c := hex_digit d in if (97 <=? c) && (c <=? 122) then c - 32 else c)
  = upper_hex_digit d.
Proof.
  intros Hd. unfold hex_digit, upper_hex_digit. cbv zeta.
  destruct (d <? 10) eqn:E.
  - apply Z.ltb_lt in E.
    replace (97 <=? 48 + d) with false by (symmetry; apply Z.leb_gt; lia). reflexivity.
  - apply Z.ltb_ge in E.
    replace (97 <=? 87 + d) with true by (symmetry; apply Z.leb_le; lia).
    replace (87 + d <=? 122) with true by (symmetry; apply Z.leb_le; lia).
    cbn [andb]. lia.
Qed.

Lemma nibbles (b : Z) : is_byte b -> 0 <= b / 16 < 16 /\ 0 <= b mod 16 < 16.
Proof.
  unfold is_byte. intros Hb. split.
  - split; [apply Z.div_pos; lia | apply Z.div_lt_upper_bound; lia].
  - apply Z.mod_pos_bound; lia.
Qed.

Lemma toUpperCase_hex (bytes : list byte) :
  Forall is_byte bytes -> toUpperCase (hex bytes) = upper_hex bytes.
Proof.
  induction 1 as [|b bs Hb _ IH]; [reflexivity|].
  unfold toUpperCase, hex, upper_hex in *. cbn [flat_map app map].
  rewrite IH. destruct (nibbles b Hb) as [H1 H2].
  pose proof (upper_digit _ H1) as E1. pose proof (upper_digit _ H2) as E2.
  cbv zeta in E1, E2. rewrite E1, E2. reflexivity.
Qed.

Lemma le_bytes4_range (x : Z) : Forall is_byte (MD5.le_bytes 4 x).
Proof.
  unfold MD5.le_bytes. cbn [seq map].
  repeat constructor; apply Z.mod_pos_bound; lia.
Qed.

(** the digest is sixteen bytes, whatever the message *)
Lemma digest_bytes (m : list byte) :
  List.length (MD5.digest m) = 16%nat /\ Forall is_byte (MD5.digest m).
Proof.
  unfold MD5.digest.
  destruct (fst (MD5.absorb MD5.init [] 0 (m ++ MD5.padding (Z.of_nat (List.length m)))))
    as [[[a b] c] d].
  split; [reflexivity|].
  repeat (apply Forall_app; split); apply le_bytes4_range.
Qed.

Lemma upper_hex_digit_ok (d : Z) : 0 <= d < 16 -> is_upper_hex (upper_hex_digit d) = true.
Proof.
  intros Hd. unfold is_upper_hex, upper_hex_digit.
  destruct (d <? 10) eqn:E; [apply Z.ltb_lt in E | apply Z.ltb_ge in E].
  - apply orb_true_iff; left. apply andb_true_iff; split; apply Z.leb_le; lia.
  - apply orb_true_iff; right. apply andb_true_iff; split; apply Z.leb_le; lia.
Qed.

Lemma upper_hex_shape (bytes : list byte) :
  Forall is_byte bytes ->
  List.length (upper_hex bytes) = (2 * List.length bytes)%nat
  /\ forallb is_upper_hex (upper_hex bytes) = true.
Proof.
  induction 1 as [|b bs Hb _ [IHl IHf]]; [split; reflexivity|].
  unfold upper_hex in *. cbn [flat_map app List.length forallb].
  rewrite IHl, IHf. destruct (nibbles b Hb) as [H1 H2].
  split; [lia|]. rewrite !upper_hex_digit_ok by assumption. reflexivity.
Qed.

Lemma computeAuth_meets_spec (challenge : jsstring) :
  _computeAuth (VStr challenge) = Normal (computeAuthCode_spec challenge).
Proof.
  unfold _computeAuth, computeAuthCode_spec. cbn [ToString and_then].
  rewrite utf8_salt. rewrite toUpperCase_hex by apply digest_bytes. reflexivity.
Qed.

Lemma computeAuthCode_spec_shape (challenge : jsstring) :
  List.length (computeAuthCode_spec challenge) = 32%nat
  /\ forallb is_upper_hex (computeAuthCode_spec challenge) = true.
Proof.
  destruct (digest_bytes (utf8 challenge ++ utf8 secret)) as [L R].
  destruct (upper_hex_shape _ R) as [L2 F2].
  unfold computeAuthCode_spec. rewrite L2, L. split; [reflexivity | exact F2].
Qed.

(** a hexadecimal text needs no escape in a JSON string *)
Lemma quote_chars_hex (s : jsstring) : forallb is_upper_hex s = true -> quote_chars s = s.
Proof.
  induction s as [|c s IH]; [reflexivity|].
  cbn [forallb]. intros H. apply andb_true_iff in H as [Hc Hs].
  assert (R : 48 <= c <= 70).
  { unfold is_upper_hex in Hc. apply orb_true_iff in Hc as [Hc|Hc];
      apply andb_true_iff in Hc as [H1 H2]; apply Z.leb_le in H1, H2; lia. }
  cbn [quote_chars].
  replace (c =? 8) with false by (symmetry; apply Z.eqb_neq; lia).
  replace (c =? 9) with false by (symmetry; apply Z.eqb_neq; lia).
  replace (c =? 10) with false by (symmetry; apply Z.eqb_neq; lia).
  replace (c =? 12) with false by (symmetry; apply Z.eqb_neq; lia).
  replace (c =? 13) with false by (symmetry; apply Z.eqb_neq; lia).
  replace (c =? 34) with false by (symmetry; apply Z.eqb_neq; lia).
  replace (c =? 92) with false by (symmetry; apply Z.eqb_neq; lia).
  replace (c <? 32) with false by (symmetry; apply Z.ltb_ge; lia).
  unfold is_high_surrogate, is_low_surrogate.
  replace (55296 <=? c) with false by (symmetry; apply Z.leb_gt; lia).
  replace (56320 <=? c) with false by (symmetry; apply Z.leb_gt; lia).
  cbn [andb]. rewrite IH by exact Hs. reflexivity.
Qed.

(** ** Preservation *)

Section Preservation.

Variable P : world -> Prop.

Lemma preserves_ret {A} (a : A) : preserves P (ret a).
Proof. intros w H. exact H. Qed.

Lemma preserves_throw {A} (e : error) : preserves P (@throw A e).
Proof. intros w H. exact H. Qed.

Lemma preserves_lift {A} (c : completion A) : preserves P (lift c).
Proof. intros w H. exact H. Qed.

Lemma preserves_emit (e : effect) : preserves P (emit e).
Proof. intros w H. exact H. Qed.

Lemma preserves_read {A} (f : instance -> A) : preserves P (read f).
Proof. intros w H. exact H. Qed.

Lemma preserves_bind {A B} (m : M A) (k : A -> M B) :
  preserves P m -> (forall a, preserves P (k a)) -> preserves P (bind m k).
Proof.
  intros Hm Hk w H. specialize (Hm w H). unfold bind, world_after in *.
  destruct (m w) as [[[a|e] w1] e1]; cbn in Hm |- *; [|exact Hm].
  specialize (Hk a w1 Hm). unfold world_after in Hk.
  destruct (k a w1) as [[r w2] e2]. exact Hk.
Qed.

Lemma preserves_try_catch {A} (body : M A) (handler : error -> M A) :
  preserves P body -> (forall e, preserves P (handler e)) ->
  preserves P (try_catch body handler).
Proof.
  intros Hm Hk w H. specialize (Hm w H). unfold try_catch, world_after in *.
  destruct (body w) as [[[a|e] w1] e1]; cbn in Hm |- *; [exact Hm|].
  specialize (Hk e w1 Hm). unfold world_after in Hk.
  destruct (handler e w1) as [[r w2] e2]. exact Hk.
Qed.

Lemma preserves_not_awaited (m : M unit) : preserves P m -> preserves P (not_awaited m).
Proof.
  intros Hm w H. specialize (Hm w H). unfold not_awaited, world_after in *.
  destruct (m w) as [[[a|e] w1] e1]; exact Hm.
Qed.

Lemma preserves_update (f : world -> world) :
  (forall w, P w -> P (f w)) -> preserves P (update f).
Proof. intros Hf w H. exact (Hf w H). Qed.

Lemma preserves_WebSocket (url : jsstring) (protocols : list jsstring) :
  (forall w, P w -> P (created w)) ->
  preserves P (WebSocket url protocols).
Proof.
  intros Hf w H. unfold WebSocket, world_after.
  destruct (WebSocket_throws w url); [exact H | exact (Hf w H)].
Qed.

Lemma preserves_socket_send (h : handle) (data : value) : preserves P (socket_send h data).
Proof.
  intros w H. unfold socket_send, world_after.
  destruct (find h (readyStates w)) as [[| | |]|]; exact H.
Qed.

(** what the dispatcher itself changes before it runs a listener: the
    timer that fired or the request that settled is no longer pending, and
    the socket is in the state in which the library emits the event *)
Lemma preserves_deliver (ev : event) :
  (forall w t, P w -> P (set_timers (remove t (timers w)) (next_id w) w)) ->
  (forall w r, P w -> P (set_requests (remove r (requests w)) (next_id w) w)) ->
  (forall w h f, P w -> P (moved h f w)) ->
  (forall cfg, preserves P (init cfg)) ->
  (forall cfg, preserves P (configUpdated cfg)) ->
  preserves P destroy ->
  (forall url, preserves P (on_open url)) ->
  (forall raw, preserves P (_onWsMessage raw)) ->
  (forall err, preserves P (on_error err)) ->
  preserves P on_close ->
  preserves P _connectWebSocket ->
  (forall slot, preserves P (delay_complete slot)) ->
  (forall k outcome, preserves P (resume k outcome)) ->
  (forall action, preserves P (applyGrade_callback action)) ->
  preserves P (deliver ev).
Proof.
  intros Ht Hr Hs Hi Hc Hd Ho Hm He Hcl Hcw Hdc Hres Ha w H.
  destruct ev as [cfg|cfg| |h sev|t|r outcome|action]; unfold deliver.
  - apply Hi, H.
  - apply Hc, H.
  - apply Hd, H.
  - destruct (find h (sockets w)) as [url|]; [|exact H].
    destruct sev; [apply Ho, Hs | apply Hm | apply He, Hs | apply Hcl, Hs]; exact H.
  - destruct (find t (timers w)) as [[|slot]|]; [| |exact H].
    + apply Hcw, Ht, H.
    + apply Hdc, Ht, H.
  - destruct (find r (requests w)) as [k|]; [|exact H].
    apply preserves_not_awaited; [apply Hres | apply Hr, H].
  - destruct (actions w); [apply Ha, H | exact H].
Qed.

End Preservation.

(** takes a method apart down to the calls it makes on the platform, which
    [prim] settles *)
Ltac preserve prim :=
  repeat first
    [ prim
    | apply preserves_ret | apply preserves_throw | apply preserves_lift
    | apply preserves_emit | apply preserves_read | apply preserves_socket_send
    | apply preserves_bind; [|intros]
    | apply preserves_try_catch; [|intros]
    | apply preserves_not_awaited
    | match goal with
      | |- preserves _ (match ?x with _ => _ end) => destruct x
      end ].

Ltac open_methods :=
  unfold init, configUpdated, destroy, _connectWebSocket, on_open, on_error,
    on_close, _onWsMessage, _fetchSlotsAndLooks, resume, _buildApplyAction,
    applyGrade_callback, delay_complete, this_ws_send, this_ws_close, socket_close,
    fetch_failed, set_config, set_ws, set_lastAuthCode, set_slots, set_looks,
    on_listeners;
  cbv zeta.

(** every method keeps a property that the platform calls and the field
    updates keep, once [_scheduleReconnect] is known to keep it *)
Ltac every_method prim :=
  apply preserves_deliver;
  [ | | intros ? ? ? Hm; exact Hm | intros; open_methods; preserve prim ..].

(** *** [this.ws] is never reset *)

Ltac ws_prim :=
  first
    [ apply preserves_WebSocket; intros ? ?; assumption
    | apply preserves_update; unfold ws_set; intros ? ?; (assumption || (cbn; discriminate))
    | match goal with
      | |- preserves ws_set (set_timeout _ _) => intros ? ?; assumption
      | |- preserves ws_set (clear_timeout _) => intros ? ?; assumption
      | |- preserves ws_set (fetch_await _ _) => intros ? ?; assumption
      end ].

Lemma ws_set_deliver (ev : event) : preserves ws_set (deliver ev).
Proof.
  every_method ltac:(first [progress unfold _scheduleReconnect, set_reconnectTimer | ws_prim]).
  - intros w t H. exact H.
  - intros w r H. exact H.
Qed.

(** *** No socket, request or action while [this.ws] is null *)

Lemma anchored_attach (socket : handle) (url : jsstring) :
  preserves anchored (set_ws socket ;; on_listeners socket url).
Proof. intros w _ E. cbv in E. discriminate. Qed.

Ltac anchored_prim :=
  first
    [ apply anchored_attach
    | apply preserves_WebSocket; intros ? H; exact H
    | apply preserves_update; intros ? H; exact H
    | match goal with
      | |- preserves anchored (set_timeout _ _) => intros ? H; exact H
      | |- preserves anchored (clear_timeout _) => intros ? H; exact H
      end ].

Ltac anchored_method :=
  unfold init, configUpdated, destroy, _connectWebSocket, _scheduleReconnect,
    delay_complete, set_config, set_reconnectTimer;
  cbv zeta; preserve anchored_prim.

Lemma anchored_connect : preserves anchored _connectWebSocket.
Proof. anchored_method. Qed.

Lemma anchored_deliver (ev : event) : preserves anchored (deliver ev).
Proof.
  intros w K. destruct (ws (this w)) as [s|] eqn:E.
  - assert (S : ws_set (world_after (deliver ev w))).
    { apply ws_set_deliver. unfold ws_set. rewrite E. discriminate. }
    intros N. contradiction.
  - destruct (K E) as (Hs & Hr & Ha).
    destruct ev as [cfg|cfg| |h sev|t|r outcome|action]; unfold deliver.
    + revert w K E Hs Hr Ha. intros w K _ _ _ _. revert w K.
      change (preserves anchored (init cfg)). anchored_method.
    + revert w K E Hs Hr Ha. intros w K _ _ _ _. revert w K.
      change (preserves anchored (configUpdated cfg)). anchored_method.
    + revert w K E Hs Hr Ha. intros w K _ _ _ _. revert w K.
      change (preserves anchored destroy). anchored_method.
    + rewrite Hs. exact K.
    + destruct (find t (timers w)) as [[|slot]|]; [| exact K | exact K].
      apply anchored_connect. exact K.
    + rewrite Hr. exact K.
    + rewrite Ha. exact K.
Qed.

(** *** [this.lastAuthCode] is null or a string *)

Ltac auth_prim :=
  first
    [ apply preserves_WebSocket; intros ? H; exact H
    | apply preserves_update; intros ? H;
      first [exact H | right; eexists; reflexivity]
    | match goal with
      | |- preserves auth_kept (set_timeout _ _) => intros ? H; exact H
      | |- preserves auth_kept (clear_timeout _) => intros ? H; exact H
      | |- preserves auth_kept (fetch_await _ _) => intros ? H; exact H
      end ].

Lemma auth_kept_deliver (ev : event) : preserves auth_kept (deliver ev).
Proof.
  every_method ltac:(first [progress unfold _scheduleReconnect, set_reconnectTimer | auth_prim]).
  - intros w t H. exact H.
  - intros w r H. exact H.
Qed.

(** *** One reconnect timer at a time *)

Lemma remove_subset {A} (k : nat) (l : list (nat * A)) (e : nat * A) :
  In e (remove k l) -> In e l /\ fst e <> k.
Proof.
  unfold remove. intros H. apply filter_In in H as [H1 H2]. split; [exact H1|].
  intros E. rewrite E, Nat.eqb_refl in H2. discriminate.
Qed.

Lemma remove_ids {A} (k : nat) (l : list (nat * A)) (t : nat) :
  In t (map fst (remove k l)) -> In t (map fst l) /\ t <> k.
Proof.
  intros H. apply in_map_iff in H as [[t' a] [E H]]. cbn in E. subst t'.
  apply remove_subset in H as [H1 H2]. split; [|exact H2].
  apply in_map_iff. exists (t, a). split; [reflexivity | exact H1].
Qed.

Lemma remove_NoDup {A} (k : nat) (l : list (nat * A)) :
  NoDup (map fst l) -> NoDup (map fst (remove k l)).
Proof.
  induction l as [|[t a] l IH]; [intros; constructor|].
  cbn [map fst remove filter]. intros H. inversion H as [|? ? Hn Hd]; subst.
  destruct (negb (Nat.eqb t k)); [|apply IH, Hd].
  cbn [map fst]. constructor; [|apply IH, Hd].
  intros Hin. apply Hn. apply (remove_ids k l t), Hin.
Qed.

Lemma timers_kept_remove (w : world) (t : timer_id) :
  timers_kept w -> timers_kept (set_timers (remove t (timers w)) (next_id w) w).
Proof.
  intros (Hd & Hb & Hr). unfold timers_kept. cbn [set_timers timers next_id this].
  split; [apply remove_NoDup, Hd|]. split.
  - intros t' Hin. apply Hb. apply (remove_ids t _ t'), Hin.
  - intros t' Hin. apply Hr. apply (remove_subset t _ _ Hin).
Qed.

Lemma timers_kept_fresh (w : world) :
  timers_kept w -> timers_kept (set_timers (timers w) (S (next_id w)) w).
Proof.
  intros (Hd & Hb & Hr). unfold timers_kept. cbn [set_timers timers next_id this].
  split; [exact Hd|]. split; [|exact Hr].
  intros t Hin. specialize (Hb t Hin). lia.
Qed.

Lemma timers_kept_delay (slot : number) (delay : Z) :
  preserves timers_kept (set_timeout (DelayComplete slot) delay).
Proof.
  intros w (Hd & Hb & Hr). unfold timers_kept, set_timeout, world_after.
  cbn [fst snd set_timers timers next_id this].
  rewrite map_app. cbn [map fst]. split; [|split].
  - apply NoDup_app; [exact Hd | repeat constructor; intros [] |].
    intros t Hin [E|[]]. subst t. specialize (Hb _ Hin). lia.
  - intros t Hin. apply in_app_or in Hin as [Hin|[E|[]]]; [specialize (Hb t Hin)|]; lia.
  - intros t Hin. apply in_app_or in Hin as [Hin|[E|[]]]; [apply Hr, Hin | discriminate].
Qed.

Lemma timers_kept_clear (t : timer_id) : preserves timers_kept (clear_timeout t).
Proof. intros w H. apply timers_kept_remove, H. Qed.

Lemma timers_kept_fetch (url : jsstring) (k : suspended) :
  preserves timers_kept (fetch_await url k).
Proof. intros w H. apply (timers_kept_fresh w H). Qed.

(** [_scheduleReconnect] clears the timer it holds before it arms the next *)
Lemma timers_kept_scheduleReconnect : preserves timers_kept _scheduleReconnect.
Proof.
  intros w (Hd & Hb & Hr).
  unfold _scheduleReconnect, bind, read, set_timeout, set_reconnectTimer, update,
    world_after, timers_kept.
  destruct (reconnectTimer (this w)) as [t0|] eqn:E;
    cbn [clear_timeout ret fst snd set_timers with_this timers next_id this reconnectTimer];
    rewrite map_app; cbn [map fst].
  - split; [|split].
    + apply NoDup_app; [apply remove_NoDup, Hd | repeat constructor; intros [] |].
      intros t Hin [E'|[]]. subst t. apply remove_ids in Hin as [Hin _].
      specialize (Hb _ Hin). lia.
    + intros t Hin. apply in_app_or in Hin as [Hin|[E'|[]]]; [|lia].
      apply remove_ids in Hin as [Hin _]. specialize (Hb t Hin). lia.
    + intros t Hin. apply in_app_or in Hin as [Hin|[E'|[]]].
      * apply remove_subset in Hin as [Hin Hne]. cbn in Hne.
        specialize (Hr t Hin). congruence.
      * congruence.
  - split; [|split].
    + apply NoDup_app; [exact Hd | repeat constructor; intros [] |].
      intros t Hin [E'|[]]. subst t. specialize (Hb _ Hin). lia.
    + intros t Hin. apply in_app_or in Hin as [Hin|[E'|[]]]; [specialize (Hb t Hin)|]; lia.
    + intros t Hin. apply in_app_or in Hin as [Hin|[E'|[]]].
      * specialize (Hr t Hin). congruence.
      * congruence.
Qed.

Ltac timers_prim :=
  first
    [ apply timers_kept_scheduleReconnect
    | apply timers_kept_delay
    | apply timers_kept_clear
    | apply timers_kept_fetch
    | apply preserves_WebSocket; intros ? H; apply timers_kept_fresh, H
    | apply preserves_update; intros ? H; exact H ].

Lemma timers_kept_deliver (ev : event) : preserves timers_kept (deliver ev).
Proof.
  every_method timers_prim.
  - intros w t H. apply timers_kept_remove, H.
  - intros w r H. exact H.
Qed.

Lemma run_reachable (events : list event) :
  forall w, reachable w -> reachable (fst (run w events)).
Proof.
  induction events as [|ev rest IH]; intros w H; [exact H|].
  cbn [run]. specialize (IH _ (reachable_deliver w ev H)).
  destruct (run (world_after (deliver ev w)) rest) as [w' effs]. exact IH.
Qed.

Lemma reachable_invariants (w : world) :
  reachable w -> anchored w /\ auth_kept w /\ timers_kept w.
Proof.
  induction 1 as [env|w ev _ (Ha & Hc & Ht)].
  - split; [|split].
    + intros _. repeat split.
    + left. reflexivity.
    + split; [constructor|]. split; intros t [].
  - split; [|split].
    + apply anchored_deliver, Ha.
    + apply auth_kept_deliver, Hc.
    + apply timers_kept_deliver, Ht.
Qed.

(** X1: at most one reconnect timer is pending, in every state the instance
    can reach. *)
Lemma one_pending_reconnect (w : world) :
  reachable w -> (List.length (pending_reconnects w) <= 1)%nat.
Proof.
  intros H. destruct (reachable_invariants w H) as (_ & _ & Hd & _ & Hr).
  unfold pending_reconnects.
  assert (Hn : NoDup (map fst (filter is_reconnect (timers w)))).
  { clear Hr. induction (timers w) as [|[t cb] l IH]; [constructor|].
    cbn [map fst] in Hd. inversion Hd as [|? ? Hn Hd']; subst.
    cbn [filter]. destruct (is_reconnect (t, cb)); [|apply IH, Hd'].
    cbn [map fst]. constructor; [|apply IH, Hd'].
    intros Hin. apply Hn. apply in_map_iff in Hin as [[t' a] [E Hin]].
    apply filter_In in Hin as [Hin _]. cbn in E. subst t'.
    apply in_map_iff. exists (t, a). split; [reflexivity | exact Hin]. }
  assert (Hs : forall t, In t (map fst (filter is_reconnect (timers w))) ->
                         reconnectTimer (this w) = Some t).
  { intros t Hin. apply in_map_iff in Hin as [[t' cb] [E Hin]]. cbn in E. subst t'.
    apply filter_In in Hin as [Hin Hc]. destruct cb; [|discriminate].
    apply Hr, Hin. }
  destruct (map fst (filter is_reconnect (timers w))) as [|a [|b l]]; cbn; try lia.
  exfalso. inversion Hn as [|? ? Hna _]; subst. apply Hna.
  assert (Ea := Hs a (or_introl eq_refl)).
  assert (Eb := Hs b (or_intror (or_introl eq_refl))).
  left. congruence.
Qed.

(** ** The claims *)

Lemma connected_reachable : reachable connected.
Proof. apply run_reachable, reachable_constructed. Qed.

Lemma answered_reachable : reachable answered.
Proof. apply run_reachable, connected_reachable. Qed.

Lemma fetching_reachable : reachable fetching.
Proof. apply run_reachable, answered_reachable. Qed.

Lemma empty_catalog_reachable : reachable empty_catalog.
Proof. apply run_reachable, fetching_reachable. Qed.

(** a socket that delivers an event, a pending request or an installed
    action implies that [this.ws] holds a socket *)
Lemma reachable_ws (w : world) :
  reachable w ->
  (exists h url, find h (sockets w) = Some url) \/ actions w = true
  \/ (exists r k, find r (requests w) = Some k) ->
  exists socket, ws (this w) = Some socket.
Proof.
  intros H Hx. destruct (reachable_invariants w H) as (Ha & _).
  destruct (ws (this w)) as [s|] eqn:E; [exists s; reflexivity|].
  destruct (Ha E) as (Hs & Hr & Hact). exfalso.
  destruct Hx as [(h & url & F)|[A|(r & k & F)]].
  - rewrite Hs in F. discriminate.
  - congruence.
  - rewrite Hr in F. discriminate.
Qed.

(** C7: an inbound message that JSON.parse rejects is dropped by the message
    listener: nothing is logged or reported, nothing is thrown, and the world
    (fields of the instance, sockets, timers, requests) is left as it was. *)
Theorem unparsable_message_discarded (w : world) (h : handle) (raw : jsstring) :
  JSON_parse raw = None ->
  _onWsMessage raw w = (Normal tt, w, [])
  /\ deliver (ESocket h (Message raw)) w = (Normal tt, w, []).
Proof.
  intros H.
  assert (E : _onWsMessage raw w = (Normal tt, w, [])).
  { unfold _onWsMessage. rewrite H. reflexivity. }
  split; [exact E|].
  unfold deliver. destruct (find h (sockets w)); [exact E | reflexivity].
Qed.

Lemma unparsable_message_discarded_witness :
  JSON_parse (lit "not json") = None
  /\ deliver (ESocket 0%nat (Message (lit "not json"))) fetching = (Normal tt, fetching, []).
Proof.
  split; [vm_compute; reflexivity|].
  apply (unparsable_message_discarded fetching 0%nat (lit "not json")).
  vm_compute. reflexivity.
Defined.

(** C3: for every string, [_computeAuth] is a function of the challenge
    alone that returns the upper-case hexadecimal MD5 digest of the UTF-8
    bytes of the challenge followed by the secret: 32 characters, each a digit
    or a letter from A to F; for "abc123" it is the digest of "abc123" followed
    by the secret. *)
Theorem computeAuth_is_uppercase_md5 (challenge : jsstring) :
  _computeAuth (VStr challenge) = Normal (computeAuthCode_spec challenge)
  /\ List.length (computeAuthCode_spec challenge) = 32%nat
  /\ forallb is_upper_hex (computeAuthCode_spec challenge) = true
  /\ _computeAuth (VStr (lit "abc123")) = Normal (lit "310B2C0FD71FD959759D1B93D2EF4AF0").
Proof.
  split; [apply computeAuth_meets_spec|].
  destruct (computeAuthCode_spec_shape challenge) as [L F].
  split; [exact L|]. split; [exact F|].
  vm_compute. reflexivity.
Qed.


(** ** Calls made by the methods *)

Section Silence.

Variable Q : effect -> Prop.

Lemma silent_ret {A} (a : A) : silent Q (ret a).
Proof. intros w. constructor. Qed.

Lemma silent_throw {A} (e : error) : silent Q (@throw A e).
Proof. intros w. constructor. Qed.

Lemma silent_lift {A} (c : completion A) : silent Q (lift c).
Proof. intros w. constructor. Qed.

Lemma silent_read {A} (f : instance -> A) : silent Q (read f).
Proof. intros w. constructor. Qed.

Lemma silent_update (f : world -> world) : silent Q (update f).
Proof. intros w. constructor. Qed.

Lemma silent_emit (e : effect) : Q e -> silent Q (emit e).
Proof. intros H w. repeat constructor. exact H. Qed.

Lemma silent_bind {A B} (m : M A) (k : A -> M B) :
  silent Q m -> (forall a, silent Q (k a)) -> silent Q (bind m k).
Proof.
  intros Hm Hk w. specialize (Hm w). unfold bind, effects_of in *.
  destruct (m w) as [[[a|e] w1] e1]; cbn in Hm |- *; [|exact Hm].
  specialize (Hk a w1). unfold effects_of in Hk.
  destruct (k a w1) as [[r w2] e2]. cbn in Hk |- *.
  apply Forall_app. split; assumption.
Qed.

Lemma silent_try_catch {A} (body : M A) (handler : error -> M A) :
  silent Q body -> (forall e, silent Q (handler e)) -> silent Q (try_catch body handler).
Proof.
  intros Hm Hk w. specialize (Hm w). unfold try_catch, effects_of in *.
  destruct (body w) as [[[a|e] w1] e1]; cbn in Hm |- *; [exact Hm|].
  specialize (Hk e w1). unfold effects_of in Hk.
  destruct (handler e w1) as [[r w2] e2]. cbn in Hk |- *.
  apply Forall_app. split; assumption.
Qed.

Lemma silent_not_awaited (m : M unit) :
  silent Q m -> (forall e, Q (unhandledRejection e)) -> silent Q (not_awaited m).
Proof.
  intros Hm Hq w. specialize (Hm w). unfold not_awaited, effects_of in *.
  destruct (m w) as [[[a|e] w1] e1]; cbn in Hm |- *; [exact Hm|].
  apply Forall_app. split; [exact Hm | repeat constructor; apply Hq].
Qed.

Lemma silent_set_timeout (callback : timer_callback) (delay : Z) :
  (forall t, Q (setTimeout t callback delay)) -> silent Q (set_timeout callback delay).
Proof. intros H w. repeat constructor. apply H. Qed.

Lemma silent_clear_timeout (t : timer_id) : Q (clearTimeout t) -> silent Q (clear_timeout t).
Proof. intros H w. repeat constructor. exact H. Qed.

Lemma silent_fetch_await (url : jsstring) (k : suspended) :
  (forall r, Q (fetch r url)) -> silent Q (fetch_await url k).
Proof. intros H w. repeat constructor. apply H. Qed.

Lemma silent_socket_send (h : handle) (data : value) :
  Q (ws_send h data) -> silent Q (socket_send h data).
Proof.
  intros H w. unfold socket_send.
  destruct (find h (readyStates w)) as [[| | |]|]; repeat constructor; exact H.
Qed.

End Silence.

Ltac silence :=
  repeat first
    [ apply silent_ret | apply silent_throw | apply silent_lift | apply silent_read
    | apply silent_update
    | apply silent_emit; exact I
    | apply silent_set_timeout; intros; exact I
    | apply silent_clear_timeout; exact I
    | apply silent_fetch_await; intros; exact I
    | apply silent_socket_send; exact I
    | apply silent_bind; [|intros]
    | apply silent_try_catch; [|intros]
    | apply silent_not_awaited; [|intros; exact I]
    | match goal with
      | |- silent _ (match ?x with _ => _ end) => destruct x
      end ].

Ltac open_listeners :=
  unfold destroy, _scheduleReconnect, on_open, on_error, on_close, _onWsMessage,
    _fetchSlotsAndLooks, resume, _buildApplyAction, applyGrade_callback,
    delay_complete, this_ws_send, this_ws_close, socket_close, fetch_failed, set_ws,
    set_reconnectTimer, set_lastAuthCode, set_slots, set_looks;
  cbv zeta.

(** Only [_connectWebSocket] creates sockets: no listener, continuation or
    callback does. *)
Lemma listeners_open_nothing :
  silent no_socket destroy
  /\ (forall url, silent no_socket (on_open url))
  /\ (forall raw, silent no_socket (_onWsMessage raw))
  /\ (forall err, silent no_socket (on_error err))
  /\ silent no_socket on_close
  /\ (forall slot, silent no_socket (delay_complete slot))
  /\ (forall k outcome, silent no_socket (resume k outcome))
  /\ (forall action, silent no_socket (applyGrade_callback action)).
Proof. repeat split; intros; open_listeners; silence. Qed.

Ltac config_prim :=
  first
    [ apply preserves_update; intros ? H; exact H
    | match goal with
      | |- preserves _ (set_timeout _ _) => intros ? H; exact H
      | |- preserves _ (clear_timeout _) => intros ? H; exact H
      | |- preserves _ (fetch_await _ _) => intros ? H; exact H
      end ].

(** ... and none of them assigns [this.config] *)
Lemma listeners_keep_config (cfg : value) :
  let P := fun w => config (this w) = cfg in
  preserves P destroy
  /\ (forall url, preserves P (on_open url))
  /\ (forall raw, preserves P (_onWsMessage raw))
  /\ (forall err, preserves P (on_error err))
  /\ preserves P on_close
  /\ (forall slot, preserves P (delay_complete slot))
  /\ (forall k outcome, preserves P (resume k outcome))
  /\ (forall action, preserves P (applyGrade_callback action)).
Proof. cbv zeta. repeat split; intros; open_listeners; preserve config_prim. Qed.

(** X21: with a host that is missing, empty or made of white space, [init]
    and [configUpdated] report Connecting and then BadConfig, [configUpdated]
    after closing the socket it held, and do nothing else: no socket is
    created and no timer is armed.  A reconnect timer that fires while the
    host is blank reports BadConfig again, and no event creates a socket until
    the host hands over another configuration. *)
Theorem blank_host_bad_config (w : world) (cfg h p : value) (port_text : jsstring) :
  get cfg (lit "host") = Normal h ->
  is_blank h = true ->
  get cfg (lit "port") = Normal p ->
  ToString (or_else p (VStr (lit "9000"))) = Normal port_text ->
  init cfg w =
    (Normal tt, configured cfg w,
     [updateStatus Connecting None;
      updateStatus BadConfig (Some (lit "Enter server IP"))])
  /\ configUpdated cfg w =
    (Normal tt, ws_closed (configured cfg w),
     closing w ++
     [updateStatus Connecting None;
      updateStatus BadConfig (Some (lit "Enter server IP"))])
  /\ (forall w' t,
        config (this w') = cfg ->
        find t (timers w') = Some Reconnect ->
        deliver (ETimeout t) w' =
          (Normal tt, set_timers (remove t (timers w')) (next_id w') w',
           [updateStatus BadConfig (Some (lit "Enter server IP"))]))
  /\ (forall w' ev,
        config (this w') = cfg ->
        keeps_config ev = true ->
        config (this (world_after (deliver ev w'))) = cfg
        /\ Forall no_socket (effects_of (deliver ev w'))).
Proof.
  intros Hh Hb Hp Ht.
  assert (C : forall w', config (this w') = cfg ->
     _connectWebSocket w'
     = (Normal tt, w', [updateStatus BadConfig (Some (lit "Enter server IP"))])).
  { intros w' E. unfold _connectWebSocket, bind, read, lift. rewrite E, Hh.
    rewrite (blank_host_trims _ h Hb), Hp, Ht. reflexivity. }
  split; [|split; [|split]].
  - unfold init, bind. cbn [set_config update emit].
    rewrite C by reflexivity. reflexivity.
  - unfold configUpdated, closing, ws_closed, configured, socket_close, bind.
    cbn [set_config update emit read world_after fst snd].
    cbn [with_this this ws].
    destruct (ws (this w)); cbn [emit ret update]; rewrite C by reflexivity; reflexivity.
  - intros w' t E F. unfold deliver. rewrite F. apply C. exact E.
  - intros w' ev E Hev.
    destruct listeners_open_nothing as (S1 & S2 & S3 & S4 & S5 & S6 & S7 & S8).
    destruct (listeners_keep_config cfg) as (K1 & K2 & K3 & K4 & K5 & K6 & K7 & K8).
    cbv zeta in K1, K2, K3, K4, K5, K6, K7, K8.
    destruct ev as [c|c| |s sev|t|r outcome|action]; try discriminate; unfold deliver.
    + split; [apply K1, E | apply S1].
    + destruct (find s (sockets w')) as [url|]; [|split; [exact E | constructor]].
      destruct sev.
      * split; [apply K2, E | apply S2].
      * split; [apply K3, E | apply S3].
      * split; [apply K4, E | apply S4].
      * split; [apply K5, E | apply S5].
    + destruct (find t (timers w')) as [[|slot]|]; [| |split; [exact E | constructor]].
      * rewrite C by exact E. split; [exact E | repeat constructor].
      * split; [apply K6, E | apply S6].
    + destruct (find r (requests w')) as [k|]; [|split; [exact E | constructor]].
      split.
      * apply (preserves_not_awaited _ _ (K7 k outcome)). exact E.
      * apply silent_not_awaited; [apply S7 | intros; exact I].
    + destruct (actions w'); [|split; [exact E | constructor]].
      split; [apply K8, E | apply S8].
Qed.

Lemma blank_host_bad_config_witness :
  is_blank (VStr (lit "   ")) = true
  /\ init blank_config connected =
    (Normal tt, configured blank_config connected,
     [updateStatus Connecting None;
      updateStatus BadConfig (Some (lit "Enter server IP"))])
  /\ configUpdated blank_config connected =
    (Normal tt, ws_closed (configured blank_config connected),
     [ws_close 0%nat; updateStatus Connecting None;
      updateStatus BadConfig (Some (lit "Enter server IP"))]).
Proof.
  split; [reflexivity|].
  destruct (blank_host_bad_config connected blank_config (VStr (lit "   "))
              (VStr (lit "9000")) (lit "9000") eq_refl eq_refl eq_refl eq_refl)
    as (H1 & H2 & _).
  split; [exact H1 | exact H2].
Defined.

(** C9 on the code: [configUpdated] with a blank host reports BadConfig and
    creates no socket, but a retry is scheduled all the same.  The close event
    of the socket that [configUpdated] closed arms a reconnect timer, and a
    reconnect timer that was pending is left armed; when the timer fires
    BadConfig is reported again.  An error event of the closed socket reports
    ConnectionFailure in the place of BadConfig. *)
Theorem blank_host_retry_scheduled :
  effects_of (deliver (EConfigUpdated blank_config) connected) =
    [ws_close 0%nat; updateStatus Connecting None;
     updateStatus BadConfig (Some (lit "Enter server IP"))]
  /\ timers blanked = []
  /\ effects_of (deliver (ESocket 0%nat Close) blanked) =
       [log (lit "warn") (lit "WS closed, scheduling reconnect");
        setTimeout 1%nat Reconnect 5000]
  /\ timers (world_after (deliver (ESocket 0%nat Close) blanked)) = [(1%nat, Reconnect)]
  /\ effects_of
       (deliver (ETimeout 1%nat) (world_after (deliver (ESocket 0%nat Close) blanked))) =
       [updateStatus BadConfig (Some (lit "Enter server IP"))]
  /\ effects_of
       (deliver (ESocket 0%nat (Error (Err OtherError (lit "read ECONNRESET")))) blanked) =
       [log (lit "error") (lit "WS error: read ECONNRESET");
        updateStatus ConnectionFailure (Some (lit "read ECONNRESET"));
        setTimeout 1%nat Reconnect 5000]
  /\ timers retrying = [(1%nat, Reconnect)]
  /\ effects_of (deliver (EConfigUpdated blank_config) retrying) =
       [ws_close 0%nat; updateStatus Connecting None;
        updateStatus BadConfig (Some (lit "Enter server IP"))]
  /\ timers blanked_retrying = [(1%nat, Reconnect)].
Proof. repeat split; vm_compute; reflexivity. Qed.

(** the text of the authentication response that carries [code] *)
Lemma response_text (code : jsstring) :
  forallb is_upper_hex code = true ->
  JSON_stringify
    (VObj [(lit "type", VStr (lit "authentication"));
           (lit "subtype", VStr (lit "response"));
           (lit "arguments",
            VObj [(lit "response", VStr code);
                  (lit "device", VStr (lit "Companion"))])])
  = VStr (q "{'type':'authentication','subtype':'response','arguments':{'response':'"
          ++ code ++ q "','device':'Companion'}}").
Proof.
  intros H. unfold JSON_stringify. cbn [stringify]. unfold quote.
  rewrite (quote_chars_hex code H). cbn. rewrite <- !app_assoc. reflexivity.
Qed.

(** C4, as the code has it: when a message tagged as an authentication
    challenge arrives on a socket of the instance while the socket [this.ws]
    holds is open, the code computed from the challenge is stored in
    [lastAuthCode] and exactly one message is sent, on that socket: the
    authentication response whose [response] is that code and whose [device]
    is "Companion".  Nothing else of the instance changes. *)
Theorem challenge_answered
    (w : world) (h socket : handle) (url raw : jsstring) (msg arguments : value)
    (challenge : jsstring) :
  find h (sockets w) = Some url ->
  ws (this w) = Some socket ->
  find socket (readyStates w) = Some OPEN ->
  JSON_parse raw = Some msg ->
  tagged msg (lit "challenge") = Normal true ->
  get msg (lit "arguments") = Normal arguments ->
  get arguments (lit "challenge") = Normal (VStr challenge) ->
  exists code w',
    _computeAuth (VStr challenge) = Normal code
    /\ deliver (ESocket h (Message raw)) w =
         (Normal tt, w',
          [log (lit "info") ([55357; 56592] ++ lit " Challenge: " ++ challenge);
           log (lit "info") ([55357; 57056] ++ lit " Auth code: " ++ code);
           ws_send socket
             (VStr (q "{'type':'authentication','subtype':'response','arguments':{'response':'"
                    ++ code ++ q "','device':'Companion'}}"))])
    /\ lastAuthCode (this w') = VStr code
    /\ config (this w') = config (this w) /\ ws (this w') = ws (this w)
    /\ reconnectTimer (this w') = reconnectTimer (this w)
    /\ slots (this w') = slots (this w) /\ looks (this w') = looks (this w)
    /\ sockets w' = sockets w /\ readyStates w' = readyStates w
    /\ timers w' = timers w /\ requests w' = requests w /\ actions w' = actions w
    /\ next_id w' = next_id w.
Proof.
  intros Hf Hs Ho Hp Ht Ha Hc.
  exists (computeAuthCode_spec challenge).
  eexists. split; [apply computeAuth_meets_spec|]. split.
  - unfold deliver. rewrite Hf. unfold _onWsMessage. rewrite Hp.
    unfold bind, lift. rewrite Ht, Ha, Hc. cbn [ToString emit].
    rewrite computeAuth_meets_spec.
    rewrite response_text by apply computeAuthCode_spec_shape.
    cbn [set_lastAuthCode update this_ws_send bind read with_this this ws world_after fst snd].
    rewrite Hs. unfold socket_send.
    cbn [with_this readyStates]. rewrite Ho. reflexivity.
  - cbn. repeat split; reflexivity.
Qed.

Lemma challenge_answered_witness :
  JSON_parse challenge_text
  = Some (VObj [(lit "type", VStr (lit "authentication"));
                (lit "subtype", VStr (lit "challenge"));
                (lit "arguments", VObj [(lit "challenge", VStr (lit "abc123"))])])
  /\ lastAuthCode (this connected) = VNull
  /\ effects_of (deliver (ESocket 0%nat (Message challenge_text)) connected) =
       [log (lit "info") ([55357; 56592] ++ lit " Challenge: abc123");
        log (lit "info") ([55357; 57056] ++ lit " Auth code: 310B2C0FD71FD959759D1B93D2EF4AF0");
        ws_send 0%nat
          (VStr (q "{'type':'authentication','subtype':'response','arguments':{'response':'310B2C0FD71FD959759D1B93D2EF4AF0','device':'Companion'}}"))]
  /\ lastAuthCode (this (world_after (deliver (ESocket 0%nat (Message challenge_text)) connected)))
     = VStr (lit "310B2C0FD71FD959759D1B93D2EF4AF0").
Proof.
  assert (Hp : JSON_parse challenge_text
    = Some (VObj [(lit "type", VStr (lit "authentication"));
                  (lit "subtype", VStr (lit "challenge"));
                  (lit "arguments", VObj [(lit "challenge", VStr (lit "abc123"))])]))
    by (vm_compute; reflexivity).
  split; [exact Hp|]. split; [vm_compute; reflexivity|].
  assert (Hf : find 0%nat (sockets connected) = Some (lit "ws://10.0.0.5:9000"))
    by (vm_compute; reflexivity).
  assert (Hs : ws (this connected) = Some 0%nat) by (vm_compute; reflexivity).
  assert (Ho : find 0%nat (readyStates connected) = Some OPEN) by (vm_compute; reflexivity).
  destruct (challenge_answered connected 0%nat 0%nat _ challenge_text _
              (VObj [(lit "challenge", VStr (lit "abc123"))]) (lit "abc123")
              Hf Hs Ho Hp eq_refl eq_refl eq_refl)
    as (code & w' & Hc & Hd & Hl & _).
  vm_compute in Hc. injection Hc as <-.
  rewrite Hd. split; [reflexivity | exact Hl].
Defined.

(** C4 as stated fails: a challenge that the first socket delivers after
    [configUpdated] has replaced it is answered on the socket [this.ws] holds,
    which has not opened: [send] throws and no response is sent. *)
Lemma challenge_unanswered_counterexample :
  find 0%nat (sockets two_sockets) = Some (lit "ws://10.0.0.5:9000")
  /\ ws (this two_sockets) = Some 1%nat
  /\ find 1%nat (readyStates two_sockets) = Some CONNECTING
  /\ completion_of (deliver (ESocket 0%nat (Message challenge_text)) two_sockets)
     = Throw not_open
  /\ effects_of (deliver (ESocket 0%nat (Message challenge_text)) two_sockets) =
       [log (lit "info") ([55357; 56592] ++ lit " Challenge: abc123");
        log (lit "info") ([55357; 57056] ++ lit " Auth code: 310B2C0FD71FD959759D1B93D2EF4AF0")].
Proof. repeat split; vm_compute; reflexivity. Qed.

(** the first step of a sequence, when it is a plain value *)
Lemma bind_lift {A B} (a : A) (k : A -> M B) (w : world) :
  bind (lift (Normal a)) k w = k a w.
Proof. unfold bind, lift. destruct (k a w) as [[r w2] e2]. reflexivity. Qed.

Lemma bind_read {A B} (f : instance -> A) (k : A -> M B) (w : world) :
  bind (read f) k w = k (f (this w)) w.
Proof. unfold bind, read. destruct (k (f (this w)) w) as [[r w2] e2]. reflexivity. Qed.

Lemma str_eqb_eq (a b : jsstring) : str_eqb a b = true -> a = b.
Proof.
  revert b. induction a as [|x a IH]; intros [|y b] H; try discriminate; [reflexivity|].
  cbn [str_eqb] in H. apply andb_true_iff in H as [H1 H2].
  apply Z.eqb_eq in H1. rewrite (IH b H2), H1. reflexivity.
Qed.

(** a message tagged as a result is not tagged as a challenge *)
Lemma result_not_challenge (msg : value) :
  tagged msg (lit "result") = Normal true -> tagged msg (lit "challenge") = Normal false.
Proof.
  unfold tagged, and_then.
  destruct (get msg (lit "type")) as [t|e]; [|discriminate].
  destruct (strict_eq t (lit "authentication")); [|discriminate].
  destruct (get msg (lit "subtype")) as [s|e]; [|discriminate].
  intros H. injection H as H. destruct s as [| |b|x|s|l|l]; try discriminate.
  cbn [strict_eq] in H |- *. rewrite (str_eqb_eq _ _ H). reflexivity.
Qed.

Lemma auth_kept_text (w : world) :
  auth_kept w -> exists auth, ToString (lastAuthCode (this w)) = Normal auth.
Proof. intros [E|[code E]]; rewrite E; eexists; reflexivity. Qed.

(** C5: an authentication result whose [success] is truthy issues exactly
    one request, for the slots, and suspends; the request for the looks, one
    again, is issued when the slot request resolves with a body, not before.
    A result whose [success] is falsy closes the socket [this.ws] holds,
    which is closing from then on, and issues no request. *)
Theorem auth_result_handled
    (w : world) (h : handle) (url raw : jsstring) (msg arguments success : value) :
  reachable w ->
  find h (sockets w) = Some url ->
  JSON_parse raw = Some msg ->
  tagged msg (lit "result") = Normal true ->
  get msg (lit "arguments") = Normal arguments ->
  get arguments (lit "success") = Normal success ->
  (truthy success = false ->
   exists socket,
     ws (this w) = Some socket
     /\ deliver (ESocket h (Message raw)) w =
          (Normal tt, moved socket begin_closing w,
           [log (lit "error") ([10060] ++ lit " Auth failed, closing");
            ws_close socket]))
  /\ (truthy success = true ->
      forall (host : jsstring) (port : value) (port_text : jsstring),
      get (config (this w)) (lit "host") = Normal (VStr host) ->
      get (config (this w)) (lit "port") = Normal port ->
      ToString (or_else port (VStr (lit "9000"))) = Normal port_text ->
      exists auth,
        ToString (lastAuthCode (this w)) = Normal auth
        /\ let r := next_id w in
           let base := lit "http://" ++ trim host ++ lit ":" ++ trim port_text in
           let k := AwaitSlots (trim host) (trim port_text) (lastAuthCode (this w)) in
           deliver (ESocket h (Message raw)) w =
             (Normal tt, set_requests (requests w ++ [(r, k)]) (S r) w,
              [log (lit "info") ([9989] ++ lit " Auth OK, fetching slots & looks" ++ [8230]);
               fetch r (base ++ lit "/devices/slots?auth=" ++ auth)])
           /\ forall (w' : world) (body result : value),
                find r (requests w') = Some k ->
                get body (lit "result") = Normal result ->
                let w1 := set_requests (remove r (requests w')) (next_id w') w' in
                let w2 := world_after (set_slots (or_else result (VArr [])) w1) in
                let r' := next_id w' in
                deliver (ESettled r (Normal body)) w' =
                  (Normal tt,
                   set_requests
                     (requests w2
                      ++ [(r', AwaitLooks (trim host) (trim port_text) (lastAuthCode (this w)))])
                     (S r') w2,
                   [fetch r' (base ++ lit "/library/grades?auth=" ++ auth)])).
Proof.
  intros Hr Hf Hp Ht Ha Hs.
  assert (D : deliver (ESocket h (Message raw)) w
              = (if truthy success then
                   (emit (log (lit "info")
                            ([9989] ++ lit " Auth OK, fetching slots & looks" ++ [8230])) ;;
                    not_awaited _fetchSlotsAndLooks) w
                 else
                   (emit (log (lit "error") ([10060] ++ lit " Auth failed, closing")) ;;
                    this_ws_close) w)).
  { unfold deliver. rewrite Hf. unfold _onWsMessage. rewrite Hp.
    rewrite (result_not_challenge msg Ht), bind_lift.
    rewrite Ht, bind_lift, Ha, bind_lift, Hs, bind_lift.
    destruct (truthy success); reflexivity. }
  split.
  - intros F. destruct (reachable_ws w Hr) as [socket Hw]; [left; eauto|].
    exists socket. split; [exact Hw|].
    rewrite D, F. unfold this_ws_close, socket_close. unfold bind, emit, read, update.
    rewrite Hw. reflexivity.
  - intros T host port port_text Hh Hpo Hpt.
    destruct (reachable_invariants w Hr) as (_ & Hk & _).
    destruct (auth_kept_text w Hk) as [auth Hauth].
    exists auth. split; [exact Hauth|]. cbv zeta. split.
    + rewrite D, T.
      unfold _fetchSlotsAndLooks.
      unfold bind, emit, not_awaited, try_catch, read, lift.
      rewrite Hh, Hpo, Hpt. cbn [call_trim and_then]. unfold endpoint.
      rewrite Hauth. cbn [and_then fetch_await app]. rewrite <- !app_assoc. reflexivity.
    + intros w' body result Fr Hb.
      unfold deliver. rewrite Fr.
      unfold not_awaited, resume, try_catch, bind, lift. rewrite Hb.
      cbn [set_slots update]. unfold endpoint. rewrite Hauth.
      cbn [and_then fetch_await app world_after fst snd]. rewrite <- !app_assoc. reflexivity.
Qed.

Lemma auth_result_handled_witness :
  JSON_parse (result_text true)
  = Some (VObj [(lit "type", VStr (lit "authentication"));
                (lit "subtype", VStr (lit "result"));
                (lit "arguments", VObj [(lit "success", VBool true)])])
  /\ deliver (ESocket 0%nat (Message (result_text true))) answered =
       (Normal tt, fetching,
        [log (lit "info") ([9989] ++ lit " Auth OK, fetching slots & looks" ++ [8230]);
         fetch 1%nat
           (lit "http://10.0.0.5:9000/devices/slots?auth=310B2C0FD71FD959759D1B93D2EF4AF0")])
  /\ effects_of (deliver (ESettled 1%nat (Normal (catalog []))) fetching) =
       [fetch 2%nat
          (lit "http://10.0.0.5:9000/library/grades?auth=310B2C0FD71FD959759D1B93D2EF4AF0")].
Proof.
  assert (Hp : JSON_parse (result_text true)
    = Some (VObj [(lit "type", VStr (lit "authentication"));
                  (lit "subtype", VStr (lit "result"));
                  (lit "arguments", VObj [(lit "success", VBool true)])]))
    by (vm_compute; reflexivity).
  split; [exact Hp|].
  assert (Hf : find 0%nat (sockets answered) = Some (lit "ws://10.0.0.5:9000"))
    by (vm_compute; reflexivity).
  destruct (auth_result_handled answered 0%nat _ (result_text true) _
              (VObj [(lit "success", VBool true)]) (VBool true)
              answered_reachable Hf Hp eq_refl eq_refl eq_refl) as [_ H].
  assert (Hh : get (config (this answered)) (lit "host") = Normal (VStr (lit "10.0.0.5")))
    by (vm_compute; reflexivity).
  assert (Hq : get (config (this answered)) (lit "port") = Normal (VStr (lit "9000")))
    by (vm_compute; reflexivity).
  destruct (H eq_refl (lit "10.0.0.5") (VStr (lit "9000")) (lit "9000") Hh Hq eq_refl)
    as (auth & Hauth & Hd & Hsettle).
  vm_compute in Hauth. injection Hauth as <-.
  split.
  - rewrite Hd. vm_compute. reflexivity.
  - assert (Fr : find (next_id answered) (requests fetching)
                 = Some (AwaitSlots (trim (lit "10.0.0.5")) (trim (lit "9000"))
                           (lastAuthCode (this answered))))
      by (vm_compute; reflexivity).
    pose proof (Hsettle fetching (catalog []) (VArr []) Fr eq_refl) as E.
    cbv zeta in E. change (next_id answered) with 1%nat in E.
    rewrite E. vm_compute. reflexivity.
Defined.

(** [this.ws.send(data)] while the socket is open *)
Lemma this_ws_send_open (w : world) (socket : handle) (data : value) :
  ws (this w) = Some socket ->
  find socket (readyStates w) = Some OPEN ->
  this_ws_send data w = (Normal tt, w, [ws_send socket data]).
Proof.
  intros Hw Ho. unfold this_ws_send. rewrite bind_read, Hw.
  unfold socket_send. rewrite Ho. reflexivity.
Qed.

(** a step that only makes a call *)
Lemma bind_call {B} (m : M unit) (k : unit -> M B) (w : world) (calls : list effect) :
  m w = (Normal tt, w, calls) ->
  bind m k w = (let '(r, w', e) := k tt w in (r, w', calls ++ e)).
Proof. intros H. unfold bind. rewrite H. reflexivity. Qed.

(** [applyGrade]'s callback on an instance whose [ws] holds an open socket *)
Lemma applyGrade_callback_runs
    (w : world) (socket : handle) (action options slot_option : value) (slot : number)
    (uid : value) (uid_text : jsstring) :
  ws (this w) = Some socket ->
  find socket (readyStates w) = Some OPEN ->
  get action (lit "options") = Normal options ->
  get options (lit "slot") = Normal slot_option ->
  parseInt slot_option = Normal slot ->
  get options (lit "look") = Normal uid ->
  ToString uid = Normal uid_text ->
  applyGrade_callback action w =
    (Normal tt,
     set_timers (timers w ++ [(next_id w, DelayComplete slot)]) (S (next_id w)) w,
     [log (lit "info") ([8594] ++ lit " Changing to slot " ++ number_toString slot);
      ws_send socket
        (JSON_stringify (command (lit "changeDevice") (VObj [(lit "index", VNum slot)])));
      log (lit "info")
        ([8594] ++ lit " Applying UID " ++ uid_text ++ lit " to slot " ++ number_toString slot);
      ws_send socket
        (JSON_stringify (command (lit "applyGrade") (VObj [(lit "uid", uid)])));
      setTimeout (next_id w) (DelayComplete slot) 500]).
Proof.
  intros Hw Hopen Ho Hs Hp Hl Ht. unfold applyGrade_callback.
  rewrite Ho, bind_lift, Hs, bind_lift, Hp, bind_lift, bind_lift, Hl, bind_lift.
  rewrite (bind_call _ _ w _ eq_refl).
  rewrite (bind_call _ _ w _ (this_ws_send_open w socket _ Hw Hopen)).
  rewrite Ht, bind_lift.
  rewrite (bind_call _ _ w _ eq_refl).
  rewrite (bind_call _ _ w _ (this_ws_send_open w socket _ Hw Hopen)).
  reflexivity.
Qed.

Lemma changeDevice_text (x : number) :
  JSON_stringify (command (lit "changeDevice") (VObj [(lit "index", VNum x)]))
  = VStr (q "{'type':'command','subtype':'changeDevice','arguments':{'index':"
          ++ number_json x ++ q "}}").
Proof.
  unfold JSON_stringify, command, number_json.
  destruct x as [|neg|m e]; cbn [stringify]; cbn; rewrite <- ?app_assoc; reflexivity.
Qed.

Lemma applyGrade_text (uid : jsstring) :
  JSON_stringify (command (lit "applyGrade") (VObj [(lit "uid", VStr uid)]))
  = VStr (q "{'type':'command','subtype':'applyGrade','arguments':{'uid':"
          ++ quote uid ++ q "}}").
Proof.
  unfold JSON_stringify, command. cbn [stringify]. cbn. rewrite <- ?app_assoc. reflexivity.
Qed.

Lemma of_int_json (index : Z) : number_json (of_int index) = number_toString (of_int index).
Proof.
  unfold of_int, mk_fin.
  destruct index as [|p|p]; [reflexivity | |]; destruct (strip2 p 0); reflexivity.
Qed.

(** the ids that [_buildApplyAction] gives the slot choices, [String(index)],
    read back as the index; checked here for the indices below 2000 *)
Lemma slot_ids_read_back :
  forallb
    (fun i =>
       match parseInt (VStr (number_toString (of_int (Z.of_nat i)))), of_int (Z.of_nat i) with
       | Normal (Fin m e), Fin m' e' => (m =? m') && (e =? e')
       | _, _ => false
       end)
    (seq 0 2000) = true.
Proof. vm_compute. reflexivity. Qed.

(** C6, as the code has it: while the socket [this.ws] holds is open, an
    invocation of the applyGrade action whose slot option reads as the integer
    [index] and whose look option is the string [uid] sends exactly two
    messages on that socket, the changeDevice command with [index] and then
    the applyGrade command with [uid], and arms a timer of 500 ms; nothing
    depends on the cached lists, and all the timer does when it fires is write
    a log line. *)
Theorem applyGrade_sends_two_commands
    (w : world) (socket : handle) (action options slot_option : value) (index : Z)
    (uid : jsstring) :
  actions w = true ->
  ws (this w) = Some socket ->
  find socket (readyStates w) = Some OPEN ->
  get action (lit "options") = Normal options ->
  get options (lit "slot") = Normal slot_option ->
  parseInt slot_option = Normal (of_int index) ->
  get options (lit "look") = Normal (VStr uid) ->
       let t := next_id w in
       let slot := of_int index in
       deliver (EAction action) w =
         (Normal tt, set_timers (timers w ++ [(t, DelayComplete slot)]) (S t) w,
          [log (lit "info") ([8594] ++ lit " Changing to slot " ++ number_toString slot);
           ws_send socket
             (VStr (q "{'type':'command','subtype':'changeDevice','arguments':{'index':"
                    ++ number_toString slot ++ q "}}"));
           log (lit "info")
             ([8594] ++ lit " Applying UID " ++ uid ++ lit " to slot "
              ++ number_toString slot);
           ws_send socket
             (VStr (q "{'type':'command','subtype':'applyGrade','arguments':{'uid':"
                    ++ quote uid ++ q "}}"));
           setTimeout t (DelayComplete slot) 500])
       /\ forall w',
            find t (timers w') = Some (DelayComplete slot) ->
            deliver (ETimeout t) w' =
              (Normal tt, set_timers (remove t (timers w')) (next_id w') w',
               [log (lit "info")
                  ([8594] ++ lit " Delay complete after applying grade to slot "
                   ++ number_toString slot)]).
Proof.
  intros Ha Hw Hopen Ho Hs Hp Hl. cbv zeta. split.
  - unfold deliver. rewrite Ha.
    rewrite (applyGrade_callback_runs w socket action options slot_option (of_int index)
               (VStr uid) uid Hw Hopen Ho Hs Hp Hl eq_refl).
    rewrite changeDevice_text, applyGrade_text, of_int_json. reflexivity.
  - intros w' F. unfold deliver. rewrite F. reflexivity.
Qed.

Lemma applyGrade_sends_two_commands_witness :
  slots (this empty_catalog) = VArr [] /\ looks (this empty_catalog) = VArr []
  /\ parseInt (VStr (lit "3")) = Normal (of_int 3)
  /\ effects_of (deliver (EAction (apply_action (VStr (lit "3")) (VStr (lit "uid-xyz"))))
                   empty_catalog) =
       [log (lit "info") ([8594] ++ lit " Changing to slot 3");
        ws_send 0%nat
          (VStr (q "{'type':'command','subtype':'changeDevice','arguments':{'index':3}}"));
        log (lit "info") ([8594] ++ lit " Applying UID uid-xyz to slot 3");
        ws_send 0%nat
          (VStr (q "{'type':'command','subtype':'applyGrade','arguments':{'uid':'uid-xyz'}}"));
        setTimeout 3%nat (DelayComplete (of_int 3)) 500].
Proof.
  split; [vm_compute; reflexivity|]. split; [vm_compute; reflexivity|].
  assert (Hp : parseInt (VStr (lit "3")) = Normal (of_int 3)) by (vm_compute; reflexivity).
  split; [exact Hp|].
  assert (Ha : actions empty_catalog = true) by (vm_compute; reflexivity).
  assert (Hw : ws (this empty_catalog) = Some 0%nat) by (vm_compute; reflexivity).
  assert (Hopen : find 0%nat (readyStates empty_catalog) = Some OPEN)
    by (vm_compute; reflexivity).
  destruct (applyGrade_sends_two_commands empty_catalog 0%nat
              (apply_action (VStr (lit "3")) (VStr (lit "uid-xyz")))
              _ (VStr (lit "3")) 3 (lit "uid-xyz")
              Ha Hw Hopen eq_refl eq_refl Hp eq_refl)
    as (Hd & _).
  rewrite Hd. vm_compute. reflexivity.
Defined.

(** C6 as stated fails: an invocation made after [configUpdated], before
    the new socket has opened, stops at its first send, which throws: no
    message is sent and no timer is armed. *)
Lemma applyGrade_refused_counterexample :
  actions reconfigured = true
  /\ ws (this reconfigured) = Some 3%nat
  /\ find 3%nat (readyStates reconfigured) = Some CONNECTING
  /\ deliver (EAction (apply_action (VStr (lit "3")) (VStr (lit "uid-xyz")))) reconfigured =
       (Throw not_open, reconfigured,
        [log (lit "info") ([8594] ++ lit " Changing to slot 3")]).
Proof. repeat split; vm_compute; reflexivity. Qed.


(** C10, as the code has it: when [parseInt] makes NaN of the slot option,
    the callback, run while the socket [this.ws] holds is open, still sends
    both messages, and the changeDevice message carries [index] as the JSON
    literal [null]. *)
Theorem unparsable_slot_sends_null
    (w : world) (socket : handle) (action options slot_option : value) (uid : jsstring) :
  actions w = true ->
  ws (this w) = Some socket ->
  find socket (readyStates w) = Some OPEN ->
  get action (lit "options") = Normal options ->
  get options (lit "slot") = Normal slot_option ->
  parseInt slot_option = Normal NaN ->
  get options (lit "look") = Normal (VStr uid) ->
       let t := next_id w in
       deliver (EAction action) w =
         (Normal tt, set_timers (timers w ++ [(t, DelayComplete NaN)]) (S t) w,
          [log (lit "info") ([8594] ++ lit " Changing to slot NaN");
           ws_send socket
             (VStr (q "{'type':'command','subtype':'changeDevice','arguments':{'index':null}}"));
           log (lit "info") ([8594] ++ lit " Applying UID " ++ uid ++ lit " to slot NaN");
           ws_send socket
             (VStr (q "{'type':'command','subtype':'applyGrade','arguments':{'uid':"
                    ++ quote uid ++ q "}}"));
           setTimeout t (DelayComplete NaN) 500]).
Proof.
  intros Ha Hw Hopen Ho Hs Hp Hl. cbv zeta.
  unfold deliver. rewrite Ha.
  rewrite (applyGrade_callback_runs w socket action options slot_option NaN
             (VStr uid) uid Hw Hopen Ho Hs Hp Hl eq_refl).
  rewrite changeDevice_text, applyGrade_text. reflexivity.
Qed.

Lemma unparsable_slot_sends_null_witness :
  parseInt (VStr (lit "abc")) = Normal NaN
  /\ effects_of (deliver (EAction (apply_action (VStr (lit "abc")) (VStr (lit "uid-xyz"))))
                   empty_catalog) =
       [log (lit "info") ([8594] ++ lit " Changing to slot NaN");
        ws_send 0%nat
          (VStr (q "{'type':'command','subtype':'changeDevice','arguments':{'index':null}}"));
        log (lit "info") ([8594] ++ lit " Applying UID uid-xyz to slot NaN");
        ws_send 0%nat
          (VStr (q "{'type':'command','subtype':'applyGrade','arguments':{'uid':'uid-xyz'}}"));
        setTimeout 3%nat (DelayComplete NaN) 500].
Proof.
  assert (Hp : parseInt (VStr (lit "abc")) = Normal NaN) by (vm_compute; reflexivity).
  split; [exact Hp|].
  assert (Ha : actions empty_catalog = true) by (vm_compute; reflexivity).
  assert (Hw : ws (this empty_catalog) = Some 0%nat) by (vm_compute; reflexivity).
  assert (Hopen : find 0%nat (readyStates empty_catalog) = Some OPEN)
    by (vm_compute; reflexivity).
  pose proof (unparsable_slot_sends_null empty_catalog 0%nat
                (apply_action (VStr (lit "abc")) (VStr (lit "uid-xyz")))
                _ (VStr (lit "abc")) (lit "uid-xyz")
                Ha Hw Hopen eq_refl eq_refl Hp eq_refl) as Hd.
  cbv zeta in Hd. rewrite Hd. vm_compute. reflexivity.
Defined.

(** C10 as stated fails: with a slot option that does not parse, an
    invocation made before the socket [this.ws] holds has opened sends
    nothing, the first send throws. *)
Lemma unparsable_slot_refused_counterexample :
  parseInt (VStr (lit "abc")) = Normal NaN
  /\ actions reconfigured = true
  /\ find 3%nat (readyStates reconfigured) = Some CONNECTING
  /\ deliver (EAction (apply_action (VStr (lit "abc")) (VStr (lit "uid-xyz")))) reconfigured =
       (Throw not_open, reconfigured,
        [log (lit "info") ([8594] ++ lit " Changing to slot NaN")]).
Proof. repeat split; vm_compute; reflexivity. Qed.


(** C1, as the code has it: a failure at either step of the catalogue
    fetch is logged and ends the sequence there, without another request and
    without rebuilding the action; the step that fails changes no field of the
    instance, so the look list is never touched by a failing sequence and the
    slot list is not touched when the slot step fails.  The slot list is
    assigned as soon as the slot step succeeds, before the look request is
    issued. *)
Theorem fetch_failure_aborts
    (w : world) (r : request_id) (k : suspended) (outcome : completion value) (e : error) :
  find r (requests w) = Some k ->
  failure outcome = Some e ->
  deliver (ESettled r outcome) w =
    (Normal tt, set_requests (remove r (requests w)) (next_id w) w,
     [log (lit "error") (lit "Fetch error: " ++ message e)])
  /\ forall (host port : jsstring) (auth body result : value) (auth_text : jsstring),
       k = AwaitSlots host port auth ->
       get body (lit "result") = Normal result ->
       ToString auth = Normal auth_text ->
       let w' := world_after (deliver (ESettled r (Normal body)) w) in
       slots (this w') = or_else result (VArr [])
       /\ looks (this w') = looks (this w).
Proof.
  intros Fr Hf. split.
  - unfold deliver. rewrite Fr. unfold not_awaited, failure in *.
    destruct outcome as [body|e'].
    + destruct (get body (lit "result")) as [x|e'] eqn:G; [discriminate|].
      injection Hf as ->.
      destruct k; unfold resume, try_catch, bind, lift; rewrite G; reflexivity.
    + injection Hf as ->. destruct k; reflexivity.
  - intros host port auth body result auth_text -> Hb Ha. cbv zeta.
    unfold deliver. rewrite Fr.
    unfold not_awaited, resume, try_catch, bind, lift. rewrite Hb.
    cbn [set_slots update]. unfold endpoint. rewrite Ha.
    cbn [and_then fetch_await world_after fst snd set_requests with_this this slots looks
         requests next_id].
    split; reflexivity.
Qed.

Lemma fetch_failure_aborts_witness :
  failure (Throw (Err OtherError (lit "fetch failed"))) = Some (Err OtherError (lit "fetch failed"))
  /\ deliver (ESettled 1%nat (Throw (Err OtherError (lit "fetch failed")))) fetching =
       (Normal tt, set_requests [] 2%nat fetching,
        [log (lit "error") (lit "Fetch error: fetch failed")]).
Proof.
  split; [reflexivity|].
  assert (Fr : find 1%nat (requests fetching)
               = Some (AwaitSlots (lit "10.0.0.5") (lit "9000")
                         (VStr (lit "310B2C0FD71FD959759D1B93D2EF4AF0"))))
    by (vm_compute; reflexivity).
  destruct (fetch_failure_aborts fetching 1%nat _ (Throw (Err OtherError (lit "fetch failed")))
              (Err OtherError (lit "fetch failed")) Fr eq_refl) as [H _].
  rewrite H. vm_compute. reflexivity.
Defined.

(** C1 as stated fails: when the look request fails after the slot request
    succeeded, the sequence ends with the old look list and the new slot
    list. *)
Lemma partial_overwrite_counterexample :
  slots (this refetching) = VArr [slot_entry 1 (lit "Main")]
  /\ looks (this refetching) = VArr [look_entry (lit "uid-xyz") (lit "Warm")]
  /\ requests look_fetch_fails = []
  /\ looks (this look_fetch_fails) = looks (this refetching)
  /\ slots (this look_fetch_fails) = VArr [slot_entry 2 (lit "Spare")]
  /\ slots (this look_fetch_fails) <> slots (this refetching).
Proof.
  repeat split; try (vm_compute; reflexivity).
  vm_compute. discriminate.
Qed.

(** the close listener arms a reconnect timer whatever the state *)
Lemma on_close_rearms (w : world) :
  In (setTimeout (next_id w) Reconnect 5000) (effects_of (on_close w))
  /\ In (next_id w, Reconnect) (timers (world_after (on_close w))).
Proof.
  unfold on_close, _scheduleReconnect, bind, read, emit.
  destruct (reconnectTimer (this w)) as [t|];
    cbn [ret clear_timeout set_timeout set_reconnectTimer update world_after effects_of
         fst snd app timers next_id set_timers with_this];
    (split; [cbn; tauto | apply in_or_app; right; left; reflexivity]).
Qed.

(** [destroy] leaves the listeners in place: after it, the close event of
    any socket of the instance leaves a reconnect timer pending. *)
Lemma close_after_destroy_rearms (w : world) (h : handle) (url : jsstring) :
  find h (sockets w) = Some url ->
  let closed := deliver (ESocket h Close) (world_after (deliver EDestroy w)) in
  In (setTimeout (next_id w) Reconnect 5000) (effects_of closed)
  /\ In (next_id w, Reconnect) (timers (world_after closed)).
Proof.
  intros F. cbv zeta.
  assert (K : preserves (fun w' => sockets w' = sockets w /\ next_id w' = next_id w) destroy).
  { unfold destroy. preserve config_prim. }
  destruct (K w (conj eq_refl eq_refl)) as [Es En].
  change (world_after (deliver EDestroy w)) with (world_after (destroy w)).
  unfold deliver. rewrite Es, F.
  pose proof (on_close_rearms (arrived h Close (world_after (destroy w)))) as R.
  unfold arrived in R. cbn [moved next_id] in R. rewrite En in R. exact R.
Qed.

(** C2 on the code: after [destroy()], the close event of the socket that
    [destroy] closed arms a reconnect timer, and when the timer fires a new
    socket is created. *)
Theorem destroy_then_close_reconnects :
  effects_of (deliver EDestroy connected) =
    [ws_close 0%nat; updateStatus Disconnected None]
  /\ timers stopped = []
  /\ deliver (ESocket 0%nat Close) stopped =
       (Normal tt,
        world_after
          (set_reconnectTimer 1%nat
             (set_timers [(1%nat, Reconnect)] 2%nat (arrived 0%nat Close stopped))),
        [log (lit "warn") (lit "WS closed, scheduling reconnect");
         setTimeout 1%nat Reconnect 5000])
  /\ effects_of
       (deliver (ETimeout 1%nat) (world_after (deliver (ESocket 0%nat Close) stopped))) =
       [log (lit "info") ([8594] ++ lit " Connecting to ws://10.0.0.5:9000");
        new_WebSocket (lit "ws://10.0.0.5:9000") [lit "livegrade-live-updates"] (Some 2%nat)].
Proof. repeat split; vm_compute; reflexivity. Qed.

(** C8 on the code: [configUpdated] closes the socket it holds but leaves
    the pending reconnect timer armed; when that timer fires, another socket is
    created while the one [configUpdated] opened is still in use and is never
    closed. *)
Theorem configUpdated_keeps_reconnect_timer :
  timers retrying = [(1%nat, Reconnect)]
  /\ effects_of (deliver (EConfigUpdated other_config) retrying) =
       [ws_close 0%nat; updateStatus Connecting None;
        log (lit "info") ([8594] ++ lit " Connecting to ws://10.0.0.6:9000");
        new_WebSocket (lit "ws://10.0.0.6:9000") [lit "livegrade-live-updates"] (Some 2%nat)]
  /\ timers (world_after (deliver (EConfigUpdated other_config) retrying))
     = [(1%nat, Reconnect)]
  /\ effects_of
       (deliver (ETimeout 1%nat)
          (world_after (deliver (EConfigUpdated other_config) retrying))) =
       [log (lit "info") ([8594] ++ lit " Connecting to ws://10.0.0.6:9000");
        new_WebSocket (lit "ws://10.0.0.6:9000") [lit "livegrade-live-updates"] (Some 3%nat)]
  /\ map fst
       (sockets
          (world_after
             (deliver (ETimeout 1%nat)
                (world_after (deliver (EConfigUpdated other_config) retrying)))))
     = [0%nat; 2%nat; 3%nat].
Proof. repeat split; vm_compute; reflexivity. Qed.

(** * Further properties of the adapter *)

(** ** Reconnect timers *)

Lemma no_reconnect_filtered (l : list (timer_id * timer_callback)) :
  (forall t, ~ In (t, Reconnect) l) -> filter is_reconnect l = [].
Proof.
  induction l as [|[t cb] l IH]; intros H; [reflexivity|].
  cbn [filter]. destruct cb as [|slot].
  - exfalso. apply (H t). left. reflexivity.
  - cbn. apply IH. intros t' Hin. apply (H t'). right. exact Hin.
Qed.

(** once the held timer is cleared, no reconnect timer is pending *)
Lemma held_timer_is_the_only_one (w : world) :
  timers_kept w -> filter is_reconnect (without_held_timer w) = [].
Proof.
  intros (_ & _ & Hr). apply no_reconnect_filtered. intros t Hin.
  unfold without_held_timer in Hin.
  destruct (reconnectTimer (this w)) as [t0|] eqn:E.
  - apply remove_subset in Hin as [Hin Hne]. cbn in Hne.
    specialize (Hr t Hin). congruence.
  - specialize (Hr t Hin). congruence.
Qed.

Lemma scheduleReconnect_runs (w : world) :
  _scheduleReconnect w =
    (Normal tt, rearmed w, cleared w ++ [setTimeout (next_id w) Reconnect 5000]).
Proof.
  unfold _scheduleReconnect, rearmed, cleared, without_held_timer, bind, read.
  destruct (reconnectTimer (this w)); reflexivity.
Qed.

Lemma rearmed_pending (w : world) :
  timers_kept w -> pending_reconnects (rearmed w) = [next_id w].
Proof.
  intros H. unfold pending_reconnects, rearmed.
  cbn [set_reconnectTimer update world_after fst snd with_this timers set_timers].
  rewrite filter_app, (held_timer_is_the_only_one w H). reflexivity.
Qed.

(** X2: in every state the instance can reach, the close event and the error
    event of one of its sockets clear the reconnect timer the instance holds
    and arm a new one with a delay of 5000 ms; afterwards that timer is the
    only reconnect timer pending and [this.reconnectTimer] holds it.  The
    error event first logs the message of the error and reports
    ConnectionFailure with it.  The listeners run with the socket in the state
    in which the library emits the event, closed or closing. *)
Theorem close_or_error_rearms_once (w : world) (h : handle) (url : jsstring) :
  reachable w ->
  find h (sockets w) = Some url ->
  deliver (ESocket h Close) w =
    (Normal tt, rearmed (arrived h Close w),
     [log (lit "warn") (lit "WS closed, scheduling reconnect")]
     ++ cleared w ++ [setTimeout (next_id w) Reconnect 5000])
  /\ (forall err,
        deliver (ESocket h (Error err)) w =
          (Normal tt, rearmed (arrived h (Error err) w),
           [log (lit "error") (lit "WS error: " ++ message err);
            updateStatus ConnectionFailure (Some (message err))]
           ++ cleared w ++ [setTimeout (next_id w) Reconnect 5000]))
  /\ (forall sev,
        pending_reconnects (rearmed (arrived h sev w)) = [next_id w]
        /\ reconnectTimer (this (rearmed (arrived h sev w))) = Some (next_id w)).
Proof.
  intros Hr Hf. destruct (reachable_invariants w Hr) as (_ & _ & Ht).
  split; [|split].
  - unfold deliver. rewrite Hf. unfold on_close, bind at 1, emit.
    rewrite scheduleReconnect_runs. reflexivity.
  - intros err. unfold deliver. rewrite Hf. unfold on_error, bind, emit.
    rewrite scheduleReconnect_runs. reflexivity.
  - intros sev. split; [|reflexivity].
    apply (rearmed_pending (arrived h sev w)). exact Ht.
Qed.

Lemma retrying_reachable : reachable retrying.
Proof. apply reachable_deliver, connected_reachable. Qed.

Lemma one_pending_reconnect_witness :
  (List.length (pending_reconnects retrying) <= 1)%nat.
Proof. apply (one_pending_reconnect retrying retrying_reachable). Defined.


Lemma close_or_error_rearms_once_witness :
  pending_reconnects retrying = [1%nat]
  /\ effects_of (deliver (ESocket 0%nat Close) retrying) =
       [log (lit "warn") (lit "WS closed, scheduling reconnect");
        clearTimeout 1%nat; setTimeout 2%nat Reconnect 5000]
  /\ pending_reconnects (world_after (deliver (ESocket 0%nat Close) retrying)) = [2%nat].
Proof.
  assert (Hf : find 0%nat (sockets retrying) = Some (lit "ws://10.0.0.5:9000"))
    by (vm_compute; reflexivity).
  destruct (close_or_error_rearms_once retrying 0%nat _ retrying_reachable Hf)
    as (Hc & _ & Hp).
  split; [vm_compute; reflexivity|].
  rewrite Hc. split; [vm_compute; reflexivity|].
  unfold world_after. cbn [fst snd]. destruct (Hp Close) as [Hq _].
  rewrite Hq. vm_compute. reflexivity.
Defined.

Lemma remove_twice {A} (k : nat) (l : list (nat * A)) : remove k (remove k l) = remove k l.
Proof.
  unfold remove. induction l as [|[t a] l IH]; [reflexivity|].
  cbn [filter fst]. destruct (negb (Nat.eqb t k)) eqn:E; [|exact IH].
  cbn [filter fst]. rewrite E, IH. reflexivity.
Qed.

(** closing a socket twice is closing it once *)
Lemma moved_twice (h : handle) (w : world) :
  moved h begin_closing (moved h begin_closing w) = moved h begin_closing w.
Proof.
  unfold moved.
  cbn [this sockets readyStates timers requests actions next_id WebSocket_throws].
  f_equal. rewrite map_map. apply map_ext. intros [k s]. cbn [fst snd].
  destruct (Nat.eqb k h) eqn:E; cbn [fst snd]; rewrite E; [destruct s|]; reflexivity.
Qed.

(** X13: [destroy] never throws.  It closes the socket [this.ws] holds, if
    any, clears the timer [this.reconnectTimer] holds, if any, and reports
    Disconnected; in every state the instance can reach no reconnect timer is
    pending afterwards.  A second [destroy] makes the same calls and leaves the
    world as the first left it. *)
Theorem destroy_disarms (w : world) :
  reachable w ->
  destroy w =
    (Normal tt, disarmed w, closing w ++ cleared w ++ [updateStatus Disconnected None])
  /\ pending_reconnects (disarmed w) = []
  /\ destroy (disarmed w) =
       (Normal tt, disarmed w, closing w ++ cleared w ++ [updateStatus Disconnected None]).
Proof.
  intros Hr. destruct (reachable_invariants w Hr) as (_ & _ & Ht).
  assert (D : forall w0, destroy w0 =
    (Normal tt, disarmed w0, closing w0 ++ cleared w0 ++ [updateStatus Disconnected None])).
  { intros w0.
    unfold destroy, disarmed, closing, cleared, ws_closed, socket_close, bind, read, emit,
      update.
    destruct (ws (this w0)) as [h|]; cbn [ret moved this];
      destruct (reconnectTimer (this w0)); reflexivity. }
  split; [apply D|]. split.
  - pose proof (held_timer_is_the_only_one w Ht) as H.
    unfold pending_reconnects, disarmed, without_held_timer, ws_closed in *.
    destruct (reconnectTimer (this w)); destruct (ws (this w));
      cbn [timers set_timers moved]; rewrite H; reflexivity.
  - rewrite D. unfold disarmed, closing, cleared, ws_closed.
    destruct (ws (this w)) as [h|] eqn:Ew;
      destruct (reconnectTimer (this w)) as [t|] eqn:E;
      cbn [this set_timers moved reconnectTimer timers next_id ws];
      rewrite ?Ew, ?E;
      cbn [this set_timers moved reconnectTimer timers next_id ws sockets readyStates
           requests actions WebSocket_throws];
      rewrite ?remove_twice; try reflexivity.
    + pose proof (moved_twice h w) as T. unfold moved in T.
      cbn [this sockets readyStates timers requests actions next_id WebSocket_throws] in T.
      injection T as T. unfold set_timers, moved.
      cbn [this sockets readyStates timers requests actions next_id WebSocket_throws].
      rewrite T. reflexivity.
    + rewrite (moved_twice h w). reflexivity.
Qed.

Lemma destroy_disarms_witness :
  pending_reconnects retrying = [1%nat]
  /\ effects_of (destroy retrying) =
       [ws_close 0%nat; clearTimeout 1%nat; updateStatus Disconnected None]
  /\ pending_reconnects (world_after (destroy retrying)) = [].
Proof.
  destruct (destroy_disarms retrying retrying_reachable) as (Hd & Hp & _).
  split; [vm_compute; reflexivity|].
  rewrite Hd. split; [vm_compute; reflexivity|].
  unfold world_after. cbn [fst snd]. exact Hp.
Defined.

(** ** Opening the connection *)

Lemma connect_with_host (w : world) (host : jsstring) (p : value) (port_text : jsstring) :
  get (config (this w)) (lit "host") = Normal (VStr host) ->
  trim host <> [] ->
  get (config (this w)) (lit "port") = Normal p ->
  ToString (or_else p (VStr (lit "9000"))) = Normal port_text ->
  _connectWebSocket w =
    (let '(r, w', effs) :=
       try_catch
         (socket <- WebSocket (ws_url host port_text) subprotocols ;;
          set_ws socket ;;
          on_listeners socket (ws_url host port_text))
         (fun e =>
            emit (log (lit "error") (lit "Connect failed: " ++ message e)) ;;
            emit (updateStatus ConnectionFailure (Some (message e))) ;;
            _scheduleReconnect) w in
     (r, w', log (lit "info") ([8594] ++ lit " Connecting to " ++ ws_url host port_text) :: effs)).
Proof.
  intros Hh Hn Hp Ht. unfold _connectWebSocket.
  rewrite bind_read, Hh, bind_lift.
  assert (Eh : or_else (VStr host) (VStr []) = VStr host).
  { unfold or_else. destruct host; [|reflexivity]. exfalso. apply Hn. reflexivity. }
  rewrite Eh. cbn [call_trim]. rewrite bind_lift, Hp, bind_lift, Ht.
  cbn [and_then]. rewrite bind_lift.
  destruct (trim host) as [|c s] eqn:E; [exfalso; apply Hn; reflexivity|].
  cbn [truthy negb]. cbv zeta. unfold ws_url, subprotocols. rewrite E.
  unfold bind at 1, emit at 1. reflexivity.
Qed.

(** [_connectWebSocket] with a host and a platform that accepts the url *)
Lemma connect_runs
    (w : world) (host : jsstring) (p : value) (port_text : jsstring) :
  get (config (this w)) (lit "host") = Normal (VStr host) ->
  trim host <> [] ->
  get (config (this w)) (lit "port") = Normal p ->
  ToString (or_else p (VStr (lit "9000"))) = Normal port_text ->
  WebSocket_throws w (ws_url host port_text) = None ->
  _connectWebSocket w =
    (Normal tt, opened (ws_url host port_text) w,
     [log (lit "info") ([8594] ++ lit " Connecting to " ++ ws_url host port_text);
      new_WebSocket (ws_url host port_text) subprotocols (Some (next_id w))]).
Proof.
  intros Hh Hn Hp Ht Ew.
  rewrite (connect_with_host w host p port_text) by assumption.
  unfold try_catch, bind at 1, WebSocket. rewrite Ew. reflexivity.
Qed.

(** X3: with a host that is a string with more than white space, and a
    platform that accepts the url, [_connectWebSocket] creates exactly one
    socket, for [ws://host:port] with host and port trimmed (port 9000 when the
    configuration has none) and the sub-protocol [livegrade-live-updates],
    stores it in [this.ws] and attaches the listeners; it closes nothing and
    arms no timer.  [init] reports Connecting first; [configUpdated] first
    closes the socket it held, which is closing from then on; a reconnect
    timer that fires connects with the configuration of that moment. *)
Theorem connect_opens_socket
    (w : world) (cfg : value) (host : jsstring) (p : value) (port_text : jsstring) :
  get cfg (lit "host") = Normal (VStr host) ->
  trim host <> [] ->
  get cfg (lit "port") = Normal p ->
  ToString (or_else p (VStr (lit "9000"))) = Normal port_text ->
  WebSocket_throws w (ws_url host port_text) = None ->
  let url := ws_url host port_text in
  let calls :=
    [log (lit "info") ([8594] ++ lit " Connecting to " ++ url);
     new_WebSocket url subprotocols (Some (next_id w))] in
  init cfg w =
    (Normal tt, opened url (configured cfg w), updateStatus Connecting None :: calls)
  /\ configUpdated cfg w =
       (Normal tt, opened url (ws_closed (configured cfg w)),
        closing w ++ updateStatus Connecting None :: calls)
  /\ (truthy p = false -> port_text = lit "9000")
  /\ (forall t,
        config (this w) = cfg ->
        find t (timers w) = Some Reconnect ->
        deliver (ETimeout t) w =
          (Normal tt, opened url (set_timers (remove t (timers w)) (next_id w) w), calls)).
Proof.
  intros Hh Hn Hp Ht Ha. cbv zeta.
  assert (C : forall w', config (this w') = cfg ->
            WebSocket_throws w' (ws_url host port_text) = None ->
            _connectWebSocket w' =
              (Normal tt, opened (ws_url host port_text) w',
               [log (lit "info") ([8594] ++ lit " Connecting to " ++ ws_url host port_text);
                new_WebSocket (ws_url host port_text) subprotocols (Some (next_id w'))])).
  { intros w' E Ew. apply (connect_runs w' host p port_text); rewrite ?E; assumption. }
  split; [|split; [|split]].
  - unfold init, bind. cbn [set_config update emit].
    rewrite C by (try reflexivity; exact Ha). reflexivity.
  - unfold configUpdated, closing, ws_closed, configured, socket_close, bind.
    cbn [set_config update emit read world_after fst snd].
    cbn [with_this this ws].
    destruct (ws (this w)); cbn [emit ret update];
      rewrite C by (try reflexivity; exact Ha); reflexivity.
  - intros F. unfold or_else in Ht. rewrite F in Ht. cbn [ToString] in Ht.
    injection Ht as <-. reflexivity.
  - intros t E F. unfold deliver. rewrite F.
    rewrite C; [reflexivity | exact E | exact Ha].
Qed.

Lemma connect_opens_socket_witness :
  effects_of (init padded_config (constructed accepting)) =
    [updateStatus Connecting None;
     log (lit "info") ([8594] ++ lit " Connecting to ws://10.0.0.5:9000");
     new_WebSocket (lit "ws://10.0.0.5:9000") [lit "livegrade-live-updates"] (Some 0%nat)]
  /\ ws (this (world_after (init padded_config (constructed accepting)))) = Some 0%nat
  /\ sockets (world_after (init padded_config (constructed accepting)))
     = [(0%nat, lit "ws://10.0.0.5:9000")].
Proof.
  assert (Hn : trim (lit " 10.0.0.5 ") <> []) by (vm_compute; discriminate).
  destruct (connect_opens_socket (constructed accepting) padded_config (lit " 10.0.0.5 ")
              VUndefined (lit "9000") eq_refl Hn eq_refl eq_refl eq_refl) as (Hi & _).
  rewrite Hi. repeat split; vm_compute; reflexivity.
Defined.

(** X4: when [new WebSocket] throws, [_connectWebSocket] catches the
    exception: it logs its message, reports ConnectionFailure with it and
    schedules a reconnect.  Nothing is thrown to the caller, [this.ws] keeps
    the value it had and no listener is attached. *)
Theorem connect_exception_caught
    (w : world) (cfg : value) (host : jsstring) (p : value) (port_text : jsstring)
    (e : error) :
  get cfg (lit "host") = Normal (VStr host) ->
  trim host <> [] ->
  get cfg (lit "port") = Normal p ->
  ToString (or_else p (VStr (lit "9000"))) = Normal port_text ->
  WebSocket_throws w (ws_url host port_text) = Some e ->
  let url := ws_url host port_text in
  init cfg w =
    (Normal tt, rearmed (configured cfg w),
     [updateStatus Connecting None;
      log (lit "info") ([8594] ++ lit " Connecting to " ++ url);
      new_WebSocket url subprotocols None;
      log (lit "error") (lit "Connect failed: " ++ message e);
      updateStatus ConnectionFailure (Some (message e))]
     ++ cleared w ++ [setTimeout (next_id w) Reconnect 5000])
  /\ ws (this (rearmed (configured cfg w))) = ws (this w)
  /\ sockets (rearmed (configured cfg w)) = sockets w.
Proof.
  intros Hh Hn Hp Ht Ha. cbv zeta. split; [|split; reflexivity].
  unfold init, bind at 1 2. cbn [set_config update emit].
  rewrite (connect_with_host _ host p port_text) by assumption.
  unfold try_catch, bind at 1, WebSocket.
  cbn [WebSocket_throws configured set_config update world_after fst snd with_this].
  rewrite Ha. unfold bind, emit. rewrite scheduleReconnect_runs. reflexivity.
Qed.

Lemma connect_exception_caught_witness :
  completion_of (init sample_config (constructed refusing)) = Normal tt
  /\ effects_of (init sample_config (constructed refusing)) =
       [updateStatus Connecting None;
        log (lit "info") ([8594] ++ lit " Connecting to ws://10.0.0.5:9000");
        new_WebSocket (lit "ws://10.0.0.5:9000") [lit "livegrade-live-updates"] None;
        log (lit "error") (lit "Connect failed: Invalid URL");
        updateStatus ConnectionFailure (Some (lit "Invalid URL"));
        setTimeout 0%nat Reconnect 5000]
  /\ ws (this (world_after (init sample_config (constructed refusing)))) = None.
Proof.
  assert (Hn : trim (lit "10.0.0.5") <> []) by (vm_compute; discriminate).
  destruct (connect_exception_caught (constructed refusing) sample_config (lit "10.0.0.5")
              (VStr (lit "9000")) (lit "9000") (Err SyntaxError (lit "Invalid URL"))
              eq_refl Hn eq_refl eq_refl eq_refl) as (Hi & _).
  rewrite Hi. repeat split; vm_compute; reflexivity.
Defined.

(** ** Inbound messages *)

(** X5: a message that parses to something other than null and is not an
    authentication challenge or result (its [type] is not the string
    "authentication", or its [subtype] is neither "challenge" nor "result") is
    ignored: nothing is logged, sent or stored, and nothing is thrown. *)
Theorem other_messages_ignored
    (w : world) (h : handle) (raw : jsstring) (msg type : value) :
  JSON_parse raw = Some msg ->
  get msg (lit "type") = Normal type ->
  (strict_eq type (lit "authentication") = false
   \/ exists subtype,
        get msg (lit "subtype") = Normal subtype
        /\ strict_eq subtype (lit "challenge") = false
        /\ strict_eq subtype (lit "result") = false) ->
  deliver (ESocket h (Message raw)) w = (Normal tt, w, []).
Proof.
  intros Hp Ht Hx.
  assert (T : forall s, s = lit "challenge" \/ s = lit "result" -> tagged msg s = Normal false).
  { intros s Hs. unfold tagged. rewrite Ht. cbn [and_then].
    destruct Hx as [Hx|(subtype & Hsub & Hc & Hr)].
    - rewrite Hx. reflexivity.
    - destruct (strict_eq type (lit "authentication")); [|reflexivity].
      rewrite Hsub. cbn [and_then]. destruct Hs as [-> | ->]; congruence. }
  unfold deliver. destruct (find h (sockets w)); [|reflexivity].
  unfold _onWsMessage. rewrite Hp.
  rewrite (T (lit "challenge")) by (left; reflexivity). rewrite bind_lift.
  rewrite (T (lit "result")) by (right; reflexivity). rewrite bind_lift.
  reflexivity.
Qed.

Lemma other_messages_ignored_witness :
  deliver (ESocket 0%nat (Message update_text)) fetching = (Normal tt, fetching, [])
  /\ deliver (ESocket 0%nat (Message (lit "[1,2]"))) fetching = (Normal tt, fetching, []).
Proof.
  split.
  - apply (other_messages_ignored fetching 0%nat update_text
             (VObj [(lit "type", VStr (lit "update"));
                    (lit "subtype", VStr (lit "lookChanged"));
                    (lit "arguments", VObj [(lit "uid", VStr (lit "uid-xyz"))])])
             (VStr (lit "update"))); [vm_compute; reflexivity | reflexivity |].
    left. reflexivity.
  - apply (other_messages_ignored fetching 0%nat (lit "[1,2]")
             (VArr [VNum (of_int 1); VNum (of_int 2)]) VUndefined);
      [vm_compute; reflexivity | reflexivity |].
    left. reflexivity.
Defined.

(** X6: an authentication challenge or result whose [arguments] is missing
    or null makes the message listener throw a TypeError before anything is
    logged, stored or sent; so does a message that parses to null. *)
Theorem handshake_without_arguments_throws
    (w : world) (h : handle) (url raw : jsstring) (msg : value) :
  find h (sockets w) = Some url ->
  JSON_parse raw = Some msg ->
  msg = VNull
  \/ ((tagged msg (lit "challenge") = Normal true \/ tagged msg (lit "result") = Normal true)
      /\ (get msg (lit "arguments") = Normal VUndefined
          \/ get msg (lit "arguments") = Normal VNull)) ->
  exists e,
    kind e = TypeError
    /\ deliver (ESocket h (Message raw)) w = (Throw e, w, []).
Proof.
  intros Hf Hp Hx. unfold deliver. rewrite Hf. unfold _onWsMessage. rewrite Hp.
  destruct Hx as [-> | [[Hc|Hr] Ha]].
  - eexists. split; [|reflexivity]. reflexivity.
  - rewrite Hc, bind_lift.
    destruct Ha as [Ha|Ha]; rewrite Ha, bind_lift;
      (eexists; split; [|reflexivity]; reflexivity).
  - rewrite (result_not_challenge msg Hr), bind_lift, Hr, bind_lift.
    destruct Ha as [Ha|Ha]; rewrite Ha, bind_lift;
      (eexists; split; [|reflexivity]; reflexivity).
Qed.

Lemma handshake_without_arguments_throws_witness :
  exists e,
    kind e = TypeError
    /\ deliver (ESocket 0%nat (Message result_without_arguments)) answered
       = (Throw e, answered, []).
Proof.
  apply (handshake_without_arguments_throws answered 0%nat (lit "ws://10.0.0.5:9000")
           result_without_arguments
           (VObj [(lit "type", VStr (lit "authentication"));
                  (lit "subtype", VStr (lit "result"))]));
    [vm_compute; reflexivity | vm_compute; reflexivity |].
  right. split; [right; reflexivity | left; reflexivity].
Defined.

Lemma computeAuth_of_text (challenge : value) (text : jsstring) :
  ToString challenge = Normal text ->
  _computeAuth challenge = Normal (computeAuthCode_spec text).
Proof.
  intros H. rewrite <- (computeAuth_meets_spec text).
  unfold _computeAuth. rewrite H. reflexivity.
Qed.

(** X7: the challenge is not required to be a string.  [_computeAuth]
    converts it as [challenge + salt] does, so a challenge message is answered
    with the code of the text the challenge converts to: "undefined" when
    [arguments] carries no [challenge], the decimal text of a number.  While
    the socket [this.ws] holds is open, the code is stored and sent as for a
    string. *)
Theorem challenge_of_any_type_answered
    (w : world) (h socket : handle) (url raw : jsstring) (msg arguments challenge : value)
    (text : jsstring) :
  find h (sockets w) = Some url ->
  ws (this w) = Some socket ->
  find socket (readyStates w) = Some OPEN ->
  JSON_parse raw = Some msg ->
  tagged msg (lit "challenge") = Normal true ->
  get msg (lit "arguments") = Normal arguments ->
  get arguments (lit "challenge") = Normal challenge ->
  ToString challenge = Normal text ->
  let code := computeAuthCode_spec text in
  let w' := world_after (deliver (ESocket h (Message raw)) w) in
  _computeAuth challenge = Normal code
  /\ deliver (ESocket h (Message raw)) w =
       (Normal tt, world_after (set_lastAuthCode (VStr code) w),
        [log (lit "info") ([55357; 56592] ++ lit " Challenge: " ++ text);
         log (lit "info") ([55357; 57056] ++ lit " Auth code: " ++ code);
         ws_send socket
           (VStr (q "{'type':'authentication','subtype':'response','arguments':{'response':'"
                  ++ code ++ q "','device':'Companion'}}"))])
  /\ lastAuthCode (this w') = VStr code.
Proof.
  intros Hf Hw Ho Hp Ht Ha Hc Hs. cbv zeta.
  assert (D : deliver (ESocket h (Message raw)) w =
       (Normal tt, world_after (set_lastAuthCode (VStr (computeAuthCode_spec text)) w),
        [log (lit "info") ([55357; 56592] ++ lit " Challenge: " ++ text);
         log (lit "info") ([55357; 57056] ++ lit " Auth code: " ++ computeAuthCode_spec text);
         ws_send socket
           (VStr (q "{'type':'authentication','subtype':'response','arguments':{'response':'"
                  ++ computeAuthCode_spec text ++ q "','device':'Companion'}}"))])).
  { unfold deliver. rewrite Hf. unfold _onWsMessage. rewrite Hp.
    rewrite Ht, bind_lift, Ha, bind_lift, Hc, bind_lift, Hs, bind_lift.
    unfold this_ws_send, socket_send. unfold bind, emit, lift, read.
    rewrite (computeAuth_of_text challenge text Hs). cbv beta iota.
    rewrite response_text by apply computeAuthCode_spec_shape.
    cbn [set_lastAuthCode update with_this this ws world_after fst snd].
    rewrite Hw. cbv beta iota. cbn [with_this readyStates]. rewrite Ho. reflexivity. }
  split; [apply computeAuth_of_text, Hs|]. split; [exact D|].
  rewrite D. reflexivity.
Qed.

Lemma challenge_of_any_type_answered_witness :
  JSON_parse bare_challenge_text
  = Some (VObj [(lit "type", VStr (lit "authentication"));
                (lit "subtype", VStr (lit "challenge"));
                (lit "arguments", VObj [])])
  /\ lastAuthCode
       (this (world_after (deliver (ESocket 0%nat (Message bare_challenge_text)) connected)))
     = VStr (computeAuthCode_spec (lit "undefined")).
Proof.
  assert (Hp : JSON_parse bare_challenge_text
    = Some (VObj [(lit "type", VStr (lit "authentication"));
                  (lit "subtype", VStr (lit "challenge"));
                  (lit "arguments", VObj [])])) by (vm_compute; reflexivity).
  split; [exact Hp|].
  assert (Hf : find 0%nat (sockets connected) = Some (lit "ws://10.0.0.5:9000"))
    by (vm_compute; reflexivity).
  assert (Hw : ws (this connected) = Some 0%nat) by (vm_compute; reflexivity).
  assert (Ho : find 0%nat (readyStates connected) = Some OPEN) by (vm_compute; reflexivity).
  destruct (challenge_of_any_type_answered connected 0%nat 0%nat _ bare_challenge_text _
              (VObj []) VUndefined (lit "undefined")
              Hf Hw Ho Hp eq_refl eq_refl eq_refl eq_refl)
    as (_ & _ & Hl).
  exact Hl.
Defined.

(** X18: [_fetchSlotsAndLooks] reads [this.config.host.trim()] before its
    [try].  When the configuration in force has no host string (it was
    replaced while a socket still delivers messages), an accepted
    authentication logs "Auth OK" and then the method throws a TypeError that
    nobody handles: no request is issued, no "Fetch error" is logged and the
    state is unchanged. *)
Theorem accepted_result_without_host_rejects
    (w : world) (h : handle) (url raw : jsstring) (msg arguments success host : value) :
  find h (sockets w) = Some url ->
  JSON_parse raw = Some msg ->
  tagged msg (lit "result") = Normal true ->
  get msg (lit "arguments") = Normal arguments ->
  get arguments (lit "success") = Normal success ->
  truthy success = true ->
  get (config (this w)) (lit "host") = Normal host ->
  (forall s, host <> VStr s) ->
  exists e,
    kind e = TypeError
    /\ deliver (ESocket h (Message raw)) w =
         (Normal tt, w,
          [log (lit "info") ([9989] ++ lit " Auth OK, fetching slots & looks" ++ [8230]);
           unhandledRejection e]).
Proof.
  intros Hf Hp Ht Ha Hs Hy Hh Hn.
  unfold deliver. rewrite Hf. unfold _onWsMessage. rewrite Hp.
  rewrite (result_not_challenge msg Ht), bind_lift, Ht, bind_lift, Ha, bind_lift,
    Hs, bind_lift, Hy.
  unfold _fetchSlotsAndLooks.
  unfold bind at 1, emit at 1, not_awaited. rewrite bind_read, Hh, bind_lift.
  destruct host as [| |b|x|s|l|l];
    try (eexists; split; [|reflexivity]; reflexivity).
  exfalso. apply (Hn s). reflexivity.
Qed.

Lemma accepted_result_without_host_rejects_witness :
  config (this unconfigured) = VObj []
  /\ exists e,
       kind e = TypeError
       /\ deliver (ESocket 0%nat (Message (result_text true))) unconfigured =
            (Normal tt, unconfigured,
             [log (lit "info") ([9989] ++ lit " Auth OK, fetching slots & looks" ++ [8230]);
              unhandledRejection e]).
Proof.
  split; [vm_compute; reflexivity|].
  apply (accepted_result_without_host_rejects unconfigured 0%nat (lit "ws://10.0.0.5:9000")
           (result_text true)
           (VObj [(lit "type", VStr (lit "authentication"));
                  (lit "subtype", VStr (lit "result"));
                  (lit "arguments", VObj [(lit "success", VBool true)])])
           (VObj [(lit "success", VBool true)]) (VBool true) VUndefined);
    try (vm_compute; reflexivity).
  intros s. discriminate.
Defined.

(** ** The catalogue *)

Lemma bind_update {B} (f : world -> world) (k : unit -> M B) (w : world) :
  bind (update f) k w = k tt (f w).
Proof. unfold bind, update. destruct (k tt (f w)) as [[r w2] e2]. reflexivity. Qed.

Lemma slot_choice_of_object (s : number * option jsstring) :
  slot_choice (slot_object s) = Normal (slot_choice_of s).
Proof.
  destruct s as [index [[|c l]|]]; reflexivity.
Qed.

Lemma look_choice_of_object (l : jsstring * jsstring) :
  look_choice (look_object l) = Normal (look_choice_of l).
Proof. destruct l as [uid name]. reflexivity. Qed.

Lemma map_items_all {A B} (f : value -> completion B) (g : A -> value) (h : A -> B)
    (l : list A) :
  (forall a, f (g a) = Normal (h a)) ->
  map_items f (map g l) = Normal (map h l).
Proof.
  intros H. induction l as [|a l IH]; [reflexivity|].
  cbn [map map_items]. rewrite H, IH. reflexivity.
Qed.

Lemma map_items_stops {A B} (f : value -> completion B) (g : A -> value) (h : A -> B)
    (before : list A) (bad : value) (after : list value) (e : error) :
  (forall a, f (g a) = Normal (h a)) ->
  f bad = Throw e ->
  map_items f (map g before ++ bad :: after) = Throw e.
Proof.
  intros H Hb. induction before as [|a l IH].
  - cbn [map app map_items]. rewrite Hb. reflexivity.
  - cbn [map app map_items]. rewrite H, IH. reflexivity.
Qed.

(** X12: for a list of slots that each carry an index and, optionally, a
    label, [_buildApplyAction] derives one choice per slot, in the order of the
    list: the id is the index as text and the label is the slot's label, or
    "Slot " followed by the index when the label is missing or empty.  A look
    gives its uid and its name.  A null entry in either list makes the
    derivation throw a TypeError instead, whatever follows it. *)
Theorem choices_follow_the_lists
    (entries : list (number * option jsstring)) (names : list (jsstring * jsstring)) :
  call_map (lit "this.slots.map") (VArr (map slot_object entries)) slot_choice
  = Normal (map slot_choice_of entries)
  /\ call_map (lit "this.looks.map") (VArr (map look_object names)) look_choice
     = Normal (map look_choice_of names)
  /\ (forall after,
        exists e,
          kind e = TypeError
          /\ call_map (lit "this.slots.map")
               (VArr (map slot_object entries ++ VNull :: after)) slot_choice = Throw e)
  /\ (forall after,
        exists e,
          kind e = TypeError
          /\ call_map (lit "this.looks.map")
               (VArr (map look_object names ++ VNull :: after)) look_choice = Throw e).
Proof.
  split; [|split; [|split]].
  - apply map_items_all, slot_choice_of_object.
  - apply map_items_all, look_choice_of_object.
  - intros after. eexists. split; [|apply map_items_stops with (h := slot_choice_of);
      [apply slot_choice_of_object | reflexivity]].
    reflexivity.
  - intros after. eexists. split; [|apply map_items_stops with (h := look_choice_of);
      [apply look_choice_of_object | reflexivity]].
    reflexivity.
Qed.

Lemma look_step_runs
    (w : world) (r : request_id) (host port : jsstring) (auth body result : value)
    (slotChoices lookChoices : list choice) :
  find r (requests w) = Some (AwaitLooks host port auth) ->
  get body (lit "result") = Normal result ->
  call_map (lit "this.slots.map") (slots (this w)) slot_choice = Normal slotChoices ->
  call_map (lit "this.looks.map") (or_else result (VArr [])) look_choice = Normal lookChoices ->
  deliver (ESettled r (Normal body)) w =
    (Normal tt, set_actions (looks_stored r result w),
     [setActionDefinitions slotChoices lookChoices]).
Proof.
  intros Hf Hb Hs Hl.
  unfold deliver. rewrite Hf.
  unfold not_awaited, resume, try_catch. rewrite bind_lift, Hb, bind_lift.
  unfold set_looks. rewrite bind_update. unfold _buildApplyAction.
  rewrite bind_read.
  cbn [set_requests with_this this slots looks]. rewrite Hs, bind_lift, bind_read.
  cbn [set_requests with_this this slots looks]. rewrite Hl, bind_lift. reflexivity.
Qed.

(** X10: when the look request resolves with a body, the look list becomes
    the body's [result], or the empty list when [result] is missing or falsy,
    and, provided a choice can be derived from every cached slot and look, the
    action definitions are installed with those choices by one call of
    [setActionDefinitions]; nothing else is called and no request remains from
    the sequence. *)
Theorem look_step_installs_action
    (w : world) (r : request_id) (host port : jsstring) (auth body result : value)
    (slotChoices lookChoices : list choice) :
  find r (requests w) = Some (AwaitLooks host port auth) ->
  get body (lit "result") = Normal result ->
  call_map (lit "this.slots.map") (slots (this w)) slot_choice = Normal slotChoices ->
  call_map (lit "this.looks.map") (or_else result (VArr [])) look_choice = Normal lookChoices ->
  deliver (ESettled r (Normal body)) w =
    (Normal tt, set_actions (looks_stored r result w),
     [setActionDefinitions slotChoices lookChoices])
  /\ looks (this (looks_stored r result w)) = or_else result (VArr [])
  /\ (truthy result = false ->
      looks (this (looks_stored r result w)) = VArr [] /\ lookChoices = []).
Proof.
  intros Hf Hb Hs Hl. split; [|split].
  - apply (look_step_runs w r host port auth body result); assumption.
  - reflexivity.
  - intros F. unfold looks_stored, or_else in *. rewrite F in *. split; [reflexivity|].
    cbn in Hl. congruence.
Qed.

Lemma look_step_installs_action_witness :
  deliver (ESettled 2%nat (Normal (VObj [])))
    (world_after (deliver (ESettled 1%nat (Normal (catalog [slot_entry 1 []]))) fetching))
  = (Normal tt,
     set_actions
       (looks_stored 2%nat VUndefined
          (world_after (deliver (ESettled 1%nat (Normal (catalog [slot_entry 1 []]))) fetching))),
     [setActionDefinitions
        [ {| id := VStr (lit "1"); label := VStr (lit "Slot 1") |} ] [] ]).
Proof.
  apply (look_step_installs_action _ 2%nat (lit "10.0.0.5") (lit "9000")
           (VStr (lit "310B2C0FD71FD959759D1B93D2EF4AF0")) (VObj []) VUndefined);
    vm_compute; reflexivity.
Defined.

(** X11: when the look request resolves with a [result] that is truthy but
    not an array, the look list is overwritten with it all the same; deriving
    the choices then throws the TypeError "this.looks.map is not a function",
    which the method catches and logs: the action definitions are not
    installed and those installed before stay as they are. *)
Theorem malformed_looks_are_stored
    (w : world) (r : request_id) (host port : jsstring) (auth body result : value)
    (slotChoices : list choice) :
  find r (requests w) = Some (AwaitLooks host port auth) ->
  get body (lit "result") = Normal result ->
  truthy result = true ->
  (forall items, result <> VArr items) ->
  call_map (lit "this.slots.map") (slots (this w)) slot_choice = Normal slotChoices ->
  exists e,
    kind e = TypeError
    /\ deliver (ESettled r (Normal body)) w =
         (Normal tt, looks_stored r result w,
          [log (lit "error") (lit "Fetch error: " ++ message e)])
    /\ looks (this (looks_stored r result w)) = result
    /\ actions (looks_stored r result w) = actions w
    /\ message e = lit "this.looks.map is not a function".
Proof.
  intros Hf Hb Ht Hn Hs.
  assert (E : call_map (lit "this.looks.map") result look_choice
              = Throw (Err TypeError (lit "this.looks.map is not a function"))).
  { destruct result as [| |b|x|s|l|l]; try discriminate; try reflexivity.
    exfalso. apply (Hn l). reflexivity. }
  exists (Err TypeError (lit "this.looks.map is not a function")).
  pose proof E as He.
  split; [reflexivity|]. split; [|split; [|split; [|reflexivity]]].
  - unfold deliver. rewrite Hf.
    unfold not_awaited, resume, try_catch. rewrite bind_lift, Hb, bind_lift.
    unfold set_looks. rewrite bind_update. unfold _buildApplyAction.
    rewrite bind_read.
    cbn [set_requests with_this this slots looks]. rewrite Hs, bind_lift, bind_read.
    cbn [set_requests with_this this slots looks]. unfold or_else. rewrite Ht, He.
    unfold looks_stored, or_else. rewrite Ht. reflexivity.
  - unfold looks_stored, or_else. rewrite Ht. reflexivity.
  - reflexivity.
Qed.

Lemma malformed_looks_are_stored_witness :
  exists e,
    kind e = TypeError
    /\ effects_of
         (deliver (ESettled 2%nat (Normal (VObj [(lit "result", VStr (lit "none"))])))
            (world_after (deliver (ESettled 1%nat (Normal (catalog []))) fetching)))
       = [log (lit "error") (lit "Fetch error: " ++ message e)]
    /\ looks
         (this
            (world_after
               (deliver (ESettled 2%nat (Normal (VObj [(lit "result", VStr (lit "none"))])))
                  (world_after (deliver (ESettled 1%nat (Normal (catalog []))) fetching)))))
       = VStr (lit "none").
Proof.
  destruct (malformed_looks_are_stored
              (world_after (deliver (ESettled 1%nat (Normal (catalog []))) fetching))
              2%nat (lit "10.0.0.5") (lit "9000")
              (VStr (lit "310B2C0FD71FD959759D1B93D2EF4AF0"))
              (VObj [(lit "result", VStr (lit "none"))]) (VStr (lit "none")) [])
    as (e & Hk & Hd & Hl & _ & _); try (vm_compute; reflexivity).
  - intros items. discriminate.
  - exists e. split; [exact Hk|]. rewrite Hd. split; [reflexivity | exact Hl].
Defined.

(** ** Further invariants *)

Lemma computeAuth_shape (challenge : value) (code : jsstring) :
  _computeAuth challenge = Normal code ->
  List.length code = 32%nat /\ forallb is_upper_hex code = true.
Proof.
  intros H. destruct (ToString challenge) as [text|e] eqn:E.
  - rewrite (computeAuth_of_text challenge text E) in H. injection H as <-.
    apply computeAuthCode_spec_shape.
  - unfold _computeAuth in H. rewrite E in H. discriminate.
Qed.

(** a step that is a plain value hands that value on *)
Lemma preserves_bind_lift (P : world -> Prop) {A B} (c : completion A) (k : A -> M B) :
  (forall a, c = Normal a -> preserves P (k a)) -> preserves P (bind (lift c) k).
Proof.
  intros H w Hw. destruct c as [a|e].
  - rewrite bind_lift. apply (H a eq_refl), Hw.
  - exact Hw.
Qed.

Ltac auth_shaped_prim :=
  let Hw := fresh "Hw" in
  first
    [ apply preserves_bind_lift; intros ? ?
    | apply preserves_WebSocket; intros ? Hw; exact Hw
    | apply preserves_update; intros ? Hw;
      first [ exact Hw
            | right; eexists; split;
              [reflexivity | eapply computeAuth_shape; eassumption] ]
    | match goal with
      | |- preserves auth_shaped (set_timeout _ _) => intros ? Hw; exact Hw
      | |- preserves auth_shaped (clear_timeout _) => intros ? Hw; exact Hw
      | |- preserves auth_shaped (fetch_await _ _) => intros ? Hw; exact Hw
      end ].

Lemma auth_shaped_deliver (ev : event) : preserves auth_shaped (deliver ev).
Proof.
  every_method ltac:(first [progress unfold _scheduleReconnect, set_reconnectTimer
                           | auth_shaped_prim]).
  - intros w t H. exact H.
  - intros w r H. exact H.
Qed.

(** X8: in every state the instance can reach, [this.lastAuthCode] is null
    or a string of thirty-two upper-case hexadecimal digits: the only
    assignment stores what [_computeAuth] returned, whatever the challenge
    was. *)
Theorem lastAuthCode_is_a_digest (w : world) : reachable w -> auth_shaped w.
Proof.
  induction 1 as [env|w ev _ IH].
  - left. reflexivity.
  - apply auth_shaped_deliver, IH.
Qed.

Lemma lastAuthCode_is_a_digest_witness :
  lastAuthCode (this answered) = VStr (lit "310B2C0FD71FD959759D1B93D2EF4AF0")
  /\ auth_shaped answered.
Proof.
  split; [vm_compute; reflexivity|].
  apply (lastAuthCode_is_a_digest answered answered_reachable).
Defined.

Lemma latest_attach (socket : handle) (url : jsstring) :
  preserves ws_latest (set_ws socket ;; on_listeners socket url).
Proof.
  intros w _. unfold ws_latest, latest_socket.
  cbn [bind set_ws on_listeners update world_after fst snd with_this this ws sockets].
  rewrite map_app. cbn [map fst]. rewrite last_last. reflexivity.
Qed.

Ltac latest_prim :=
  first
    [ apply latest_attach
    | apply preserves_WebSocket; intros ? H; exact H
    | apply preserves_update; intros ? H; exact H
    | match goal with
      | |- preserves ws_latest (set_timeout _ _) => intros ? H; exact H
      | |- preserves ws_latest (clear_timeout _) => intros ? H; exact H
      | |- preserves ws_latest (fetch_await _ _) => intros ? H; exact H
      end ].

Ltac open_methods_but_attach :=
  unfold init, configUpdated, destroy, _connectWebSocket, _scheduleReconnect, on_open,
    on_error, on_close, _onWsMessage, _fetchSlotsAndLooks, resume, _buildApplyAction,
    applyGrade_callback, delay_complete, this_ws_send, this_ws_close, socket_close,
    fetch_failed, set_config, set_reconnectTimer, set_lastAuthCode, set_slots, set_looks;
  cbv zeta.

Lemma ws_latest_deliver (ev : event) : preserves ws_latest (deliver ev).
Proof.
  apply preserves_deliver;
    [ | | intros ? ? ? Hm; exact Hm
    | intros; open_methods_but_attach; preserve latest_prim ..].
  - intros w t H. exact H.
  - intros w r H. exact H.
Qed.

(** X9: in every state the instance can reach, [this.ws] is the socket
    created last, and null only while none was created: the sockets created
    before it are never referred to again, closed or not. *)
Theorem ws_is_latest_socket (w : world) :
  reachable w ->
  ws (this w) = latest_socket w
  /\ (ws (this w) = None <-> sockets w = []).
Proof.
  intros H.
  assert (L : ws_latest w).
  { induction H as [env|w ev _ IH]; [reflexivity | apply ws_latest_deliver, IH]. }
  split; [exact L|]. unfold ws_latest, latest_socket in L. rewrite L. split.
  - destruct (sockets w) as [|s l] using rev_ind; [reflexivity|].
    rewrite map_app. cbn [map]. rewrite last_last. discriminate.
  - intros ->. reflexivity.
Qed.

Lemma ws_is_latest_socket_witness :
  map fst (sockets (world_after (deliver (EConfigUpdated other_config) connected)))
  = [0%nat; 1%nat]
  /\ ws (this (world_after (deliver (EConfigUpdated other_config) connected))) = Some 1%nat.
Proof.
  split; [vm_compute; reflexivity|].
  destruct (ws_is_latest_socket _ (reachable_deliver _ (EConfigUpdated other_config)
                                     connected_reachable)) as [H _].
  rewrite H. vm_compute. reflexivity.
Defined.

Ltac requests_prim :=
  first
    [ apply preserves_WebSocket; intros ? H ? Hr; specialize (H _ Hr); cbn; lia
    | apply preserves_update; intros ? H; exact H
    | match goal with
      | |- preserves requests_kept (set_timeout _ _) =>
          intros ? H ? Hr; specialize (H _ Hr); cbn; lia
      | |- preserves requests_kept (clear_timeout _) => intros ? H; exact H
      | |- preserves requests_kept (fetch_await _ _) =>
          intros ? H ? Hr; unfold fetch_await, world_after in Hr;
          cbn [fst snd set_requests requests] in Hr; rewrite map_app in Hr;
          apply in_app_or in Hr as [Hr|[<-|[]]]; [specialize (H _ Hr)|]; cbn; lia
      end ].

Lemma requests_kept_deliver (ev : event) : preserves requests_kept (deliver ev).
Proof.
  every_method ltac:(first [progress unfold _scheduleReconnect, set_reconnectTimer
                           | requests_prim]).
  - intros w t H. exact H.
  - intros w r H x Hx. apply H. apply (remove_ids r _ x), Hx.
Qed.

Lemma reachable_requests (w : world) : reachable w -> requests_kept w.
Proof.
  induction 1 as [env|w ev _ IH]; [intros r [] | apply requests_kept_deliver, IH].
Qed.

Lemma slot_step_runs
    (w : world) (r : request_id) (host port : jsstring) (auth body result : value)
    (auth_text : jsstring) :
  find r (requests w) = Some (AwaitSlots host port auth) ->
  get body (lit "result") = Normal result ->
  ToString auth = Normal auth_text ->
  deliver (ESettled r (Normal body)) w =
    (Normal tt, slots_stored r result (AwaitLooks host port auth) w,
     [fetch (next_id w)
        (lit "http://" ++ host ++ lit ":" ++ port ++ lit "/library/grades?auth=" ++ auth_text)]).
Proof.
  intros Hf Hb Ha.
  unfold deliver. rewrite Hf.
  unfold not_awaited, resume, try_catch. rewrite bind_lift, Hb, bind_lift.
  unfold set_slots. rewrite bind_update. unfold endpoint. rewrite Ha.
  cbn [and_then]. rewrite bind_lift. unfold fetch_await, slots_stored.
  cbn [set_slots update world_after fst snd app]. rewrite <- ?app_assoc. reflexivity.
Qed.

Lemma find_fresh {A} (n : nat) (a : A) (l : list (nat * A)) :
  (forall x, In x (map fst l) -> (x < n)%nat) ->
  find n (l ++ [(n, a)]) = Some a.
Proof.
  induction l as [|[x b] l IH]; intros H.
  - cbn. rewrite Nat.eqb_refl. reflexivity.
  - cbn [app find]. destruct (Nat.eqb n x) eqn:E.
    + apply Nat.eqb_eq in E. specialize (H x (or_introl eq_refl)). lia.
    + apply IH. intros y Hy. apply H. right. exact Hy.
Qed.

(** X19: the whole catalogue fetch.  From a state the instance can reach in
    which the slot request [r] is pending, when that request resolves with a
    list of slots and the look request issued next resolves with a list of
    looks, the calls made are the look request, once, built from the host, port
    and code held since the sequence started, and then one
    [setActionDefinitions] with one choice per slot and per look, in order;
    both lists are stored and the action is installed. *)
Theorem catalogue_fetched
    (w : world) (r : request_id) (host port : jsstring) (auth : value)
    (auth_text : jsstring) (entries : list (number * option jsstring))
    (names : list (jsstring * jsstring)) :
  reachable w ->
  find r (requests w) = Some (AwaitSlots host port auth) ->
  ToString auth = Normal auth_text ->
  let after :=
    run w [ESettled r (Normal (catalog (map slot_object entries)));
           ESettled (next_id w) (Normal (catalog (map look_object names)))] in
  snd after =
    [fetch (next_id w)
       (lit "http://" ++ host ++ lit ":" ++ port ++ lit "/library/grades?auth=" ++ auth_text);
     setActionDefinitions (map slot_choice_of entries) (map look_choice_of names)]
  /\ slots (this (fst after)) = VArr (map slot_object entries)
  /\ looks (this (fst after)) = VArr (map look_object names)
  /\ actions (fst after) = true.
Proof.
  intros Hr Hf Ha. cbv zeta. cbn [run].
  rewrite (slot_step_runs w r host port auth (catalog (map slot_object entries))
             (VArr (map slot_object entries)) auth_text Hf eq_refl Ha).
  cbn [world_after effects_of fst snd].
  assert (F2 : find (next_id w)
                 (requests (slots_stored r (VArr (map slot_object entries))
                              (AwaitLooks host port auth) w))
               = Some (AwaitLooks host port auth)).
  { unfold slots_stored. cbn [set_requests requests set_slots update world_after fst snd
                               with_this].
    apply find_fresh. intros x Hx. apply (reachable_requests w Hr).
    apply (remove_ids r _ x), Hx. }
  rewrite (look_step_runs _ (next_id w) host port auth (catalog (map look_object names))
             (VArr (map look_object names))
             (map slot_choice_of entries) (map look_choice_of names) F2 eq_refl).
  - cbn [world_after effects_of fst snd app]. repeat split.
  - apply map_items_all, slot_choice_of_object.
  - apply map_items_all, look_choice_of_object.
Qed.

Lemma catalogue_fetched_witness :
  let after :=
    run fetching
      [ESettled 1%nat
         (Normal (catalog (map slot_object
                    [(of_int 1, None); (of_int 2, Some (lit "Main"))])));
       ESettled 2%nat
         (Normal (catalog (map look_object [(lit "uid-xyz", lit "Warm")])))] in
  snd after =
    [fetch 2%nat
       (lit "http://10.0.0.5:9000/library/grades?auth=310B2C0FD71FD959759D1B93D2EF4AF0");
     setActionDefinitions
       [ {| id := VStr (lit "1"); label := VStr (lit "Slot 1") |};
         {| id := VStr (lit "2"); label := VStr (lit "Main") |} ]
       [ {| id := VStr (lit "uid-xyz"); label := VStr (lit "Warm") |} ] ]
  /\ actions (fst after) = true.
Proof.
  assert (Hf : find 1%nat (requests fetching)
               = Some (AwaitSlots (lit "10.0.0.5") (lit "9000")
                         (VStr (lit "310B2C0FD71FD959759D1B93D2EF4AF0"))))
    by (vm_compute; reflexivity).
  pose proof (catalogue_fetched fetching 1%nat _ _ _
                (lit "310B2C0FD71FD959759D1B93D2EF4AF0")
                [(of_int 1, None); (of_int 2, Some (lit "Main"))]
                [(lit "uid-xyz", lit "Warm")] fetching_reachable Hf eq_refl)
    as (Hc & _ & _ & Hact).
  cbv zeta. change (next_id fetching) with 2%nat in Hc, Hact.
  split; [rewrite Hc; vm_compute; reflexivity | exact Hact].
Defined.

(** ** What each event can lead to *)

Lemma silent_WebSocket (Q : effect -> Prop) (url : jsstring) (protocols : list jsstring) :
  (forall object, Q (new_WebSocket url protocols object)) ->
  silent Q (WebSocket url protocols).
Proof.
  intros H w. unfold WebSocket, effects_of.
  destruct (WebSocket_throws w url); repeat constructor; apply H.
Qed.

Ltac permitted :=
  repeat first
    [ apply silent_ret | apply silent_throw | apply silent_lift | apply silent_read
    | apply silent_update
    | apply silent_emit; reflexivity
    | apply silent_set_timeout; intros; reflexivity
    | apply silent_clear_timeout; reflexivity
    | apply silent_fetch_await; intros; reflexivity
    | apply silent_WebSocket; intros; reflexivity
    | apply silent_socket_send; reflexivity
    | apply silent_bind; [|intros]
    | apply silent_try_catch; [|intros]
    | apply silent_not_awaited; [|intros; reflexivity]
    | match goal with
      | |- silent _ (match ?x with _ => _ end) => destruct x
      end ].

Ltac open_all :=
  unfold init, configUpdated, destroy, _connectWebSocket, _scheduleReconnect, on_open,
    on_error, on_close, _onWsMessage, _fetchSlotsAndLooks, resume, _buildApplyAction,
    applyGrade_callback, delay_complete, this_ws_send, this_ws_close, socket_close,
    fetch_failed, set_config, set_ws, set_reconnectTimer, set_lastAuthCode, set_slots, set_looks,
    on_listeners;
  cbv zeta.

(** the [try] of [_fetchSlotsAndLooks] covers all that runs after an
    [await]: a resumed activation always completes *)
Lemma resume_settles (k : suspended) (outcome : completion value) (w : world) :
  completion_of (resume k outcome w) = Normal tt.
Proof.
  assert (T : forall body : M unit,
             completion_of (try_catch body fetch_failed w) = Normal tt).
  { intros body. unfold try_catch, completion_of.
    destruct (body w) as [[[[]|e] w1] e1]; reflexivity. }
  destruct k; apply T.
Qed.

Lemma not_awaited_completed (m : M unit) (w : world) :
  completion_of (m w) = Normal tt -> not_awaited m w = m w.
Proof.
  unfold not_awaited, completion_of.
  destruct (m w) as [[[[]|e] w1] e1]; [reflexivity | discriminate].
Qed.

(** X14: the calls an event leads to are among those of the methods it
    runs, in every state.  In particular only a message and the action send on
    the socket; only [init], [configUpdated] and a reconnect timer create a
    socket; only a message and a settlement issue a request; only a settlement
    installs the action definitions and it never leaves a rejection unhandled;
    [destroy] logs nothing; a timer is armed for 5000 ms to reconnect and for
    500 ms by the action, and for nothing else; Ok is reported by the open
    listener alone, Disconnected by [destroy] alone and Connecting by [init]
    and [configUpdated] alone. *)
Theorem calls_by_event (w : world) (ev : event) :
  Forall (fun e => may_call ev e = true) (effects_of (deliver ev w)).
Proof.
  destruct ev as [cfg|cfg| |h sev|t|r outcome|action]; unfold deliver.
  - assert (S : silent (fun e => may_call (EInit cfg) e = true) (init cfg))
      by (open_all; permitted).
    apply S.
  - assert (S : silent (fun e => may_call (EConfigUpdated cfg) e = true) (configUpdated cfg))
      by (open_all; permitted).
    apply S.
  - assert (S : silent (fun e => may_call EDestroy e = true) destroy)
      by (open_all; permitted).
    apply S.
  - destruct (find h (sockets w)) as [url|]; [|constructor].
    destruct sev as [|data|err|].
    + assert (S : silent (fun e => may_call (ESocket h Open) e = true) (on_open url))
        by (open_all; permitted).
      apply S.
    + assert (S : silent (fun e => may_call (ESocket h (Message data)) e = true)
                    (_onWsMessage data))
        by (open_all; permitted).
      apply S.
    + assert (S : silent (fun e => may_call (ESocket h (Error err)) e = true) (on_error err))
        by (open_all; permitted).
      apply S.
    + assert (S : silent (fun e => may_call (ESocket h Close) e = true) on_close)
        by (open_all; permitted).
      apply S.
  - destruct (find t (timers w)) as [[|slot]|]; [| |constructor].
    + assert (S : silent (fun e => may_call (ETimeout t) e = true) _connectWebSocket)
        by (open_all; permitted).
      apply S.
    + assert (S : silent (fun e => may_call (ETimeout t) e = true) (delay_complete slot))
        by (open_all; permitted).
      apply S.
  - destruct (find r (requests w)) as [k|]; [|constructor].
    rewrite not_awaited_completed by apply resume_settles.
    assert (S : silent (fun e => may_call (ESettled r outcome) e = true) (resume k outcome))
      by (open_all; permitted).
    apply S.
  - destruct (actions w); [|constructor].
    assert (S : silent (fun e => may_call (EAction action) e = true)
                  (applyGrade_callback action))
      by (open_all; permitted).
    apply S.
Qed.

(** X17: [destroy], the open, error and close listeners and the settlement
    of a request complete without throwing in every state: whatever goes wrong
    with a connection or a request is reported or logged, never raised. *)
Theorem handlers_never_throw (w : world) (ev : event) :
  cannot_throw ev = true -> completion_of (deliver ev w) = Normal tt.
Proof.
  intros H.
  destruct ev as [cfg|cfg| |h sev|t|r outcome|action]; try discriminate; unfold deliver.
  - unfold destroy, socket_close, bind, read, emit, update, completion_of.
    destruct (ws (this w)); cbn [ret moved this];
      destruct (reconnectTimer (this w)); reflexivity.
  - destruct (find h (sockets w)) as [url|]; [|reflexivity].
    destruct sev as [|data|err|]; try discriminate.
    + reflexivity.
    + unfold on_error, bind, emit. rewrite scheduleReconnect_runs. reflexivity.
    + unfold on_close, bind, emit. rewrite scheduleReconnect_runs. reflexivity.
  - destruct (find r (requests w)) as [k|]; [|reflexivity].
    rewrite not_awaited_completed by apply resume_settles. apply resume_settles.
Qed.

Lemma handlers_never_throw_witness :
  completion_of
    (deliver (ESettled 1%nat (Normal VNull)) fetching) = Normal tt
  /\ completion_of
       (deliver (ESocket 0%nat (Error (Err OtherError (lit "socket hang up")))) fetching)
     = Normal tt.
Proof.
  split.
  - apply (handlers_never_throw fetching (ESettled 1%nat (Normal VNull))). reflexivity.
  - apply (handlers_never_throw fetching
             (ESocket 0%nat (Error (Err OtherError (lit "socket hang up"))))).
    reflexivity.
Defined.

(** ** The messages sent are JSON that reads back *)

Lemma scan_all_app (st : scanner * pstate) (a b : jsstring) :
  scan_all st (a ++ b)
  = match scan_all st a with
    | Some st' => scan_all st' b
    | None => None
    end.
Proof.
  revert st. induction a as [|c a IH]; intros st; [reflexivity|].
  cbn [app scan_all]. destruct (scan st c); [apply IH | reflexivity].
Qed.

Lemma scan_literal (acc : jsstring) (ps : pstate) (c : code_unit) :
  32 <= c -> c <> 34 -> c <> 92 ->
  scan (LString acc, ps) c = Some (LString (c :: acc), ps).
Proof.
  intros H1 H2 H3. cbn [scan].
  replace (c =? 34) with false by (symmetry; apply Z.eqb_neq; exact H2).
  replace (c =? 92) with false by (symmetry; apply Z.eqb_neq; exact H3).
  replace (c <? 32) with false by (symmetry; apply Z.ltb_ge; exact H1).
  reflexivity.
Qed.

Lemma digit_of_hex_digit (d : Z) : 0 <= d < 16 -> digit_value 16 (hex_digit d) = Some d.
Proof.
  intros H. unfold digit_value, hex_digit.
  destruct (d <? 10) eqn:E; [apply Z.ltb_lt in E | apply Z.ltb_ge in E].
  - replace (48 <=? 48 + d) with true by (symmetry; apply Z.leb_le; lia).
    replace (48 + d <=? 57) with true by (symmetry; apply Z.leb_le; lia).
    cbn [andb]. replace (48 + d - 48) with d by lia.
    replace (d <? 16) with true by (symmetry; apply Z.ltb_lt; lia). reflexivity.
  - replace (48 <=? 87 + d) with true by (symmetry; apply Z.leb_le; lia).
    replace (87 + d <=? 57) with false by (symmetry; apply Z.leb_gt; lia).
    replace (97 <=? 87 + d) with true by (symmetry; apply Z.leb_le; lia).
    replace (87 + d <=? 122) with true by (symmetry; apply Z.leb_le; lia).
    cbn [andb]. replace (87 + d - 87) with d by lia.
    replace (d <? 16) with true by (symmetry; apply Z.ltb_lt; lia). reflexivity.
Qed.

Lemma four_nibbles (c : Z) :
  is_code_unit c ->
  0 <= c / 4096 < 16 /\ 0 <= c / 256 mod 16 < 16 /\ 0 <= c / 16 mod 16 < 16
  /\ 0 <= c mod 16 < 16
  /\ c / 4096 * 4096 + c / 256 mod 16 * 256 + c / 16 mod 16 * 16 + c mod 16 = c.
Proof.
  unfold is_code_unit. intros H.
  pose proof (Z.div_mod c 16 ltac:(lia)) as E1.
  pose proof (Z.div_mod (c / 16) 16 ltac:(lia)) as E2.
  pose proof (Z.div_mod (c / 256) 16 ltac:(lia)) as E3.
  replace (c / 16 / 16) with (c / 256) in E2 by (rewrite Z.div_div by lia; reflexivity).
  replace (c / 256 / 16) with (c / 4096) in E3 by (rewrite Z.div_div by lia; reflexivity).
  pose proof (Z.mod_pos_bound c 16 ltac:(lia)).
  pose proof (Z.mod_pos_bound (c / 16) 16 ltac:(lia)).
  pose proof (Z.mod_pos_bound (c / 256) 16 ltac:(lia)).
  assert (0 <= c / 4096 < 16)
    by (split; [apply Z.div_pos; lia | apply Z.div_lt_upper_bound; lia]).
  repeat split; lia.
Qed.

Lemma scan_all_cons (st st' : scanner * pstate) (c : code_unit) (rest : jsstring) :
  scan st c = Some st' -> scan_all st (c :: rest) = scan_all st' rest.
Proof. intros H. cbn [scan_all]. rewrite H. reflexivity. Qed.

(** a [\u] escape reads back as the code unit it was written for *)
Lemma scan_unicode_escape (acc : jsstring) (ps : pstate) (c : code_unit) (rest : jsstring) :
  is_code_unit c ->
  scan_all (LString acc, ps) (unicode_escape c ++ rest)
  = scan_all (LString (c :: acc), ps) rest.
Proof.
  intros H. destruct (four_nibbles c H) as (H1 & H2 & H3 & H4 & E).
  unfold unicode_escape. cbn [app].
  rewrite (scan_all_cons _ (LEscape acc, ps)) by reflexivity.
  rewrite (scan_all_cons _ (LUnicode acc [], ps)) by reflexivity.
  rewrite (scan_all_cons _ (LUnicode acc [c / 4096], ps))
    by (cbn [scan]; rewrite (digit_of_hex_digit _ H1); reflexivity).
  rewrite (scan_all_cons _ (LUnicode acc [c / 256 mod 16; c / 4096], ps))
    by (cbn [scan]; rewrite (digit_of_hex_digit _ H2); reflexivity).
  rewrite (scan_all_cons _ (LUnicode acc [c / 16 mod 16; c / 256 mod 16; c / 4096], ps))
    by (cbn [scan]; rewrite (digit_of_hex_digit _ H3); reflexivity).
  rewrite (scan_all_cons _ (LString (c :: acc), ps))
    by (cbn [scan]; rewrite (digit_of_hex_digit _ H4), E; reflexivity).
  reflexivity.
Qed.

Lemma scan_short_escape (acc : jsstring) (ps : pstate) (letter c : code_unit)
    (rest : jsstring) :
  scan (LEscape acc, ps) letter = Some (LString (c :: acc), ps) ->
  scan_all (LString acc, ps) ([92; letter] ++ rest) = scan_all (LString (c :: acc), ps) rest.
Proof.
  intros H. cbn [app].
  rewrite (scan_all_cons _ (LEscape acc, ps)) by reflexivity.
  rewrite (scan_all_cons _ _ _ _ H). reflexivity.
Qed.

(** the characters [QuoteJSONString] writes for a string read back, inside a
    JSON string, as that string *)
Lemma scan_quote_chars (ps : pstate) (rest : jsstring) :
  forall n s acc,
    (List.length s <= n)%nat ->
    Forall is_code_unit s ->
    scan_all (LString acc, ps) (quote_chars s ++ rest)
    = scan_all (LString (rev s ++ acc), ps) rest.
Proof.
  induction n as [|n IH]; intros s acc Hl Hs.
  - destruct s; [reflexivity | simpl in Hl; lia].
  - destruct s as [|c s]; [reflexivity|].
    simpl in Hl. inversion Hs as [|? ? Hc Hs']; subst.
    assert (Step : forall acc',
               scan_all (LString acc', ps) (quote_chars s ++ rest)
               = scan_all (LString (rev s ++ acc'), ps) rest)
      by (intros acc'; apply IH; [lia | exact Hs']).
    assert (R : rev (c :: s) ++ acc = rev s ++ c :: acc)
      by (cbn [rev]; rewrite <- app_assoc; reflexivity).
    rewrite R. cbn [quote_chars].
    destruct (c =? 8) eqn:E8.
    { apply Z.eqb_eq in E8. subst c. rewrite <- app_assoc.
      rewrite (scan_short_escape acc ps 98 8) by reflexivity. apply Step. }
    destruct (c =? 9) eqn:E9.
    { apply Z.eqb_eq in E9. subst c. rewrite <- app_assoc.
      rewrite (scan_short_escape acc ps 116 9) by reflexivity. apply Step. }
    destruct (c =? 10) eqn:E10.
    { apply Z.eqb_eq in E10. subst c. rewrite <- app_assoc.
      rewrite (scan_short_escape acc ps 110 10) by reflexivity. apply Step. }
    destruct (c =? 12) eqn:E12.
    { apply Z.eqb_eq in E12. subst c. rewrite <- app_assoc.
      rewrite (scan_short_escape acc ps 102 12) by reflexivity. apply Step. }
    destruct (c =? 13) eqn:E13.
    { apply Z.eqb_eq in E13. subst c. rewrite <- app_assoc.
      rewrite (scan_short_escape acc ps 114 13) by reflexivity. apply Step. }
    destruct (c =? 34) eqn:E34.
    { apply Z.eqb_eq in E34. subst c. rewrite <- app_assoc.
      rewrite (scan_short_escape acc ps 34 34) by reflexivity. apply Step. }
    destruct (c =? 92) eqn:E92.
    { apply Z.eqb_eq in E92. subst c. rewrite <- app_assoc.
      rewrite (scan_short_escape acc ps 92 92) by reflexivity. apply Step. }
    apply Z.eqb_neq in E34, E92.
    destruct (c <? 32) eqn:E32.
    { rewrite <- app_assoc, scan_unicode_escape by exact Hc. apply Step. }
    apply Z.ltb_ge in E32.
    assert (Lit : forall tail,
               scan_all (LString acc, ps) (c :: tail)
               = scan_all (LString (c :: acc), ps) tail).
    { intros tail. apply scan_all_cons, scan_literal; assumption. }
    destruct (is_high_surrogate c) eqn:Eh.
    { destruct s as [|c2 s2].
      - rewrite scan_unicode_escape by exact Hc. reflexivity.
      - destruct (is_low_surrogate c2) eqn:El.
        + cbn [app]. rewrite Lit.
          assert (B : 56320 <= c2).
          { unfold is_low_surrogate in El. apply andb_true_iff in El as [El _].
            apply Z.leb_le in El. exact El. }
          rewrite (scan_all_cons _ (LString (c2 :: c :: acc), ps))
            by (apply scan_literal; lia).
          inversion Hs' as [|? ? Hc2 Hs2]; subst.
          rewrite (IH s2 (c2 :: c :: acc)) by (simpl in Hl; lia || exact Hs2).
          cbn [rev]. rewrite <- !app_assoc. reflexivity.
        + rewrite <- app_assoc, scan_unicode_escape by exact Hc. apply Step. }
    destruct (is_low_surrogate c) eqn:El.
    { rewrite <- app_assoc, scan_unicode_escape by exact Hc. apply Step. }
    cbn [app]. rewrite Lit. apply Step.
Qed.

(** reading [prefix "text" suffix]: the string in the middle is handed to the
    parser as [text], whatever it holds *)
Lemma parse_around_string
    (prefix suffix text : jsstring) (ps : pstate) :
  Forall is_code_unit text ->
  scan_all (LIdle, ([], MValue)) prefix = Some (LString [], ps) ->
  scan_all (LIdle, ([], MValue)) (prefix ++ quote_chars text ++ suffix)
  = scan_all (LString (rev text), ps) suffix.
Proof.
  intros Ht Hp. rewrite scan_all_app, Hp.
  rewrite (scan_quote_chars ps suffix (List.length text) text [] (Nat.le_refl _) Ht).
  rewrite app_nil_r. reflexivity.
Qed.

(** X16: the applyGrade command the callback sends is JSON that reads back
    as the command object with the uid unchanged, whatever characters the uid
    holds (quotes, backslashes, control characters, lone surrogates). *)
Theorem applyGrade_command_reads_back (uid : jsstring) :
  Forall is_code_unit uid ->
  JSON_stringify (command (lit "applyGrade") (VObj [(lit "uid", VStr uid)]))
  = VStr (q "{'type':'command','subtype':'applyGrade','arguments':{'uid':"
          ++ quote uid ++ q "}}")
  /\ JSON_parse (q "{'type':'command','subtype':'applyGrade','arguments':{'uid':"
                 ++ quote uid ++ q "}}")
     = Some (command (lit "applyGrade") (VObj [(lit "uid", VStr uid)])).
Proof.
  intros H. split; [apply applyGrade_text|].
  assert (T : q "{'type':'command','subtype':'applyGrade','arguments':{'uid':"
              ++ quote uid ++ q "}}"
              = (q "{'type':'command','subtype':'applyGrade','arguments':{'uid':" ++ [34])
                ++ quote_chars uid ++ ([34] ++ q "}}"))
    by (unfold quote; rewrite <- !app_assoc; reflexivity).
  rewrite T. unfold JSON_parse.
  rewrite (parse_around_string _ _ uid
             ([FKey [] (lit "uid");
               FKey [(lit "type", VStr (lit "command"));
                     (lit "subtype", VStr (lit "applyGrade"))] (lit "arguments")],
              MValue) H) by (vm_compute; reflexivity).
  cbn. rewrite rev_involutive. reflexivity.
Qed.

Lemma applyGrade_command_reads_back_witness :
  JSON_parse
    (q "{'type':'command','subtype':'applyGrade','arguments':{'uid':"
     ++ quote awkward_uid ++ q "}}")
  = Some (command (lit "applyGrade") (VObj [(lit "uid", VStr awkward_uid)])).
Proof.
  apply (applyGrade_command_reads_back awkward_uid).
  vm_compute. repeat (constructor; [split; [discriminate | reflexivity]|]). constructor.
Defined.

Lemma hex_is_code_unit (s : jsstring) :
  forallb is_upper_hex s = true -> Forall is_code_unit s.
Proof.
  induction s as [|c s IH]; [constructor|].
  cbn [forallb]. intros H. apply andb_true_iff in H as [Hc Hs].
  constructor; [|apply IH, Hs].
  unfold is_upper_hex in Hc. unfold is_code_unit.
  apply orb_true_iff in Hc as [Hc|Hc];
    apply andb_true_iff in Hc as [H1 H2]; apply Z.leb_le in H1, H2; lia.
Qed.

(** X15: the authentication response sent for any challenge, whatever code
    [_computeAuth] returned for it, is JSON that reads back as the object with
    [type] "authentication", [subtype] "response" and [arguments] holding the
    code as [response] and "Companion" as [device]. *)
Theorem response_reads_back (challenge : value) (code : jsstring) :
  _computeAuth challenge = Normal code ->
  JSON_stringify (response_message code)
  = VStr (q "{'type':'authentication','subtype':'response','arguments':{'response':'"
          ++ code ++ q "','device':'Companion'}}")
  /\ JSON_parse
       (q "{'type':'authentication','subtype':'response','arguments':{'response':'"
        ++ code ++ q "','device':'Companion'}}")
     = Some (response_message code).
Proof.
  intros H. destruct (computeAuth_shape challenge code H) as [_ Hx].
  split; [apply (response_text _ Hx)|].
  unfold JSON_parse.
  rewrite <- (quote_chars_hex _ Hx) at 1.
  erewrite parse_around_string; [|apply hex_is_code_unit, Hx|vm_compute; reflexivity].
  cbn. rewrite rev_involutive. reflexivity.
Qed.

Lemma response_reads_back_witness :
  JSON_parse
    (q "{'type':'authentication','subtype':'response','arguments':{'response':'"
     ++ lit "310B2C0FD71FD959759D1B93D2EF4AF0" ++ q "','device':'Companion'}}")
  = Some (response_message (lit "310B2C0FD71FD959759D1B93D2EF4AF0")).
Proof.
  assert (H : _computeAuth (VStr (lit "abc123"))
              = Normal (lit "310B2C0FD71FD959759D1B93D2EF4AF0"))
    by (vm_compute; reflexivity).
  apply (response_reads_back (VStr (lit "abc123")) _ H).
Defined.

(** ** The action without its options *)

(** X20: the callback does not check its options.  Without a look option the
    uid is undefined: while the socket [this.ws] holds is open, the
    changeDevice command is sent as usual and the applyGrade command is sent
    with empty [arguments], the key being left out by JSON.stringify.  Without
    [options] at all the callback throws a TypeError before anything is logged
    or sent. *)
Theorem applyGrade_without_look
    (w : world) (socket : handle) (action options slot_option : value) (slot : number) :
  actions w = true ->
  (ws (this w) = Some socket ->
   find socket (readyStates w) = Some OPEN ->
   get action (lit "options") = Normal options ->
   get options (lit "slot") = Normal slot_option ->
   parseInt slot_option = Normal slot ->
   get options (lit "look") = Normal VUndefined ->
   deliver (EAction action) w =
     (Normal tt,
      set_timers (timers w ++ [(next_id w, DelayComplete slot)]) (S (next_id w)) w,
      [log (lit "info") ([8594] ++ lit " Changing to slot " ++ number_toString slot);
       ws_send socket
         (VStr (q "{'type':'command','subtype':'changeDevice','arguments':{'index':"
                ++ number_json slot ++ q "}}"));
       log (lit "info")
         ([8594] ++ lit " Applying UID undefined to slot " ++ number_toString slot);
       ws_send socket
         (VStr (q "{'type':'command','subtype':'applyGrade','arguments':{}}"));
       setTimeout (next_id w) (DelayComplete slot) 500]))
  /\ (get action (lit "options") = Normal VUndefined ->
      exists e,
        kind e = TypeError /\ deliver (EAction action) w = (Throw e, w, [])).
Proof.
  intros Ha. split.
  - intros Hw Hopen Ho Hs Hp Hl.
    unfold deliver. rewrite Ha.
    rewrite (applyGrade_callback_runs w socket action options slot_option slot
               VUndefined (lit "undefined") Hw Hopen Ho Hs Hp Hl eq_refl).
    rewrite changeDevice_text. reflexivity.
  - intros Ho. unfold deliver. rewrite Ha. unfold applyGrade_callback.
    rewrite Ho, bind_lift. eexists. split; [|reflexivity]. reflexivity.
Qed.

Lemma applyGrade_without_look_witness :
  effects_of
    (deliver (EAction (VObj [(lit "options", VObj [(lit "slot", VStr (lit "3"))])]))
       empty_catalog) =
    [log (lit "info") ([8594] ++ lit " Changing to slot 3");
     ws_send 0%nat
       (VStr (q "{'type':'command','subtype':'changeDevice','arguments':{'index':3}}"));
     log (lit "info") ([8594] ++ lit " Applying UID undefined to slot 3");
     ws_send 0%nat (VStr (q "{'type':'command','subtype':'applyGrade','arguments':{}}"));
     setTimeout 3%nat (DelayComplete (of_int 3)) 500].
Proof.
  assert (Ha : actions empty_catalog = true) by (vm_compute; reflexivity).
  assert (Hw : ws (this empty_catalog) = Some 0%nat) by (vm_compute; reflexivity).
  assert (Hopen : find 0%nat (readyStates empty_catalog) = Some OPEN)
    by (vm_compute; reflexivity).
  assert (Hp : parseInt (VStr (lit "3")) = Normal (of_int 3)) by (vm_compute; reflexivity).
  destruct (applyGrade_without_look empty_catalog 0%nat
              (VObj [(lit "options", VObj [(lit "slot", VStr (lit "3"))])])
              (VObj [(lit "slot", VStr (lit "3"))]) (VStr (lit "3")) (of_int 3) Ha)
    as [H _].
  rewrite (H Hw Hopen eq_refl eq_refl Hp eq_refl). vm_compute. reflexivity.
Defined.

(** ** Sending before the socket has opened *)

(** [this.ws.send(data)] while the socket is connecting *)
Lemma this_ws_send_connecting (w : world) (socket : handle) (data : value) :
  ws (this w) = Some socket ->
  find socket (readyStates w) = Some CONNECTING ->
  this_ws_send data w = (Throw not_open, w, []).
Proof.
  intros Hw Hc. unfold this_ws_send. rewrite bind_read, Hw.
  unfold socket_send. rewrite Hc. reflexivity.
Qed.

(** X22: nothing in the adapter waits for the socket to open.  While the
    socket [this.ws] holds is still connecting, [send] throws "WebSocket is not
    open: readyState 0 (CONNECTING)".  The applyGrade callback then stops at
    its first send: the first line is logged, nothing is sent and no timer is
    armed.  A challenge that an older socket still delivers is logged and its
    code is stored and logged, and then the listener throws without sending
    the response. *)
Theorem send_while_connecting_throws (w : world) (socket : handle) :
  ws (this w) = Some socket ->
  find socket (readyStates w) = Some CONNECTING ->
  (forall (action options slot_option : value) (slot : number) (uid : value),
     actions w = true ->
     get action (lit "options") = Normal options ->
     get options (lit "slot") = Normal slot_option ->
     parseInt slot_option = Normal slot ->
     get options (lit "look") = Normal uid ->
     deliver (EAction action) w =
       (Throw not_open, w,
        [log (lit "info") ([8594] ++ lit " Changing to slot " ++ number_toString slot)]))
  /\ (forall (h : handle) (url raw : jsstring) (msg arguments challenge : value)
        (text : jsstring),
        find h (sockets w) = Some url ->
        JSON_parse raw = Some msg ->
        tagged msg (lit "challenge") = Normal true ->
        get msg (lit "arguments") = Normal arguments ->
        get arguments (lit "challenge") = Normal challenge ->
        ToString challenge = Normal text ->
        let code := computeAuthCode_spec text in
        let w' := world_after (deliver (ESocket h (Message raw)) w) in
        deliver (ESocket h (Message raw)) w =
          (Throw not_open, world_after (set_lastAuthCode (VStr code) w),
           [log (lit "info") ([55357; 56592] ++ lit " Challenge: " ++ text);
            log (lit "info") ([55357; 57056] ++ lit " Auth code: " ++ code)])
        /\ lastAuthCode (this w') = VStr code).
Proof.
  intros Hw Hc. split.
  - intros action options slot_option slot uid Ha Ho Hs Hp Hl.
    unfold deliver. rewrite Ha. unfold applyGrade_callback.
    rewrite Ho, bind_lift, Hs, bind_lift, Hp, bind_lift, bind_lift, Hl, bind_lift.
    rewrite (bind_call _ _ w _ eq_refl).
    unfold bind at 1. rewrite (this_ws_send_connecting w socket _ Hw Hc). reflexivity.
  - intros h url raw msg arguments challenge text Hf Hp Ht Ha Hch Hs. cbv zeta.
    assert (D : deliver (ESocket h (Message raw)) w =
      (Throw not_open, world_after (set_lastAuthCode (VStr (computeAuthCode_spec text)) w),
       [log (lit "info") ([55357; 56592] ++ lit " Challenge: " ++ text);
        log (lit "info") ([55357; 57056] ++ lit " Auth code: " ++ computeAuthCode_spec text)])).
    { unfold deliver. rewrite Hf. unfold _onWsMessage. rewrite Hp.
      rewrite Ht, bind_lift, Ha, bind_lift, Hch, bind_lift, Hs, bind_lift.
      unfold this_ws_send, socket_send. unfold bind, emit, lift, read.
      rewrite (computeAuth_of_text challenge text Hs). cbv beta iota.
      cbn [set_lastAuthCode update with_this this ws world_after fst snd].
      rewrite Hw. cbv beta iota. cbn [with_this readyStates]. rewrite Hc. reflexivity. }
    split; [exact D|]. rewrite D. reflexivity.
Qed.

Lemma send_while_connecting_throws_witness :
  actions reconfigured = true
  /\ find 0%nat (readyStates reconfigured) = Some CLOSING
  /\ deliver (EAction (apply_action (VStr (lit "3")) (VStr (lit "uid-xyz")))) reconfigured =
       (Throw not_open, reconfigured, [log (lit "info") ([8594] ++ lit " Changing to slot 3")])
  /\ effects_of (deliver (ESocket 0%nat (Message challenge_text)) reconfigured) =
       [log (lit "info") ([55357; 56592] ++ lit " Challenge: abc123");
        log (lit "info") ([55357; 57056] ++ lit " Auth code: 310B2C0FD71FD959759D1B93D2EF4AF0")].
Proof.
  assert (Ha : actions reconfigured = true) by (vm_compute; reflexivity).
  assert (Hw : ws (this reconfigured) = Some 3%nat) by (vm_compute; reflexivity).
  assert (Hc : find 3%nat (readyStates reconfigured) = Some CONNECTING)
    by (vm_compute; reflexivity).
  assert (Hp : parseInt (VStr (lit "3")) = Normal (of_int 3)) by (vm_compute; reflexivity).
  assert (Hm : JSON_parse challenge_text
    = Some (VObj [(lit "type", VStr (lit "authentication"));
                  (lit "subtype", VStr (lit "challenge"));
                  (lit "arguments", VObj [(lit "challenge", VStr (lit "abc123"))])]))
    by (vm_compute; reflexivity).
  assert (Hf : find 0%nat (sockets reconfigured) = Some (lit "ws://10.0.0.5:9000"))
    by (vm_compute; reflexivity).
  destruct (send_while_connecting_throws reconfigured 3%nat Hw Hc) as [A M].
  split; [exact Ha|]. split; [vm_compute; reflexivity|]. split.
  - rewrite (A (apply_action (VStr (lit "3")) (VStr (lit "uid-xyz"))) _ (VStr (lit "3"))
               (of_int 3) (VStr (lit "uid-xyz")) Ha eq_refl eq_refl Hp eq_refl).
    vm_compute. reflexivity.
  - destruct (M 0%nat _ challenge_text _ (VObj [(lit "challenge", VStr (lit "abc123"))])
                (VStr (lit "abc123")) (lit "abc123") Hf Hm eq_refl eq_refl eq_refl eq_refl)
      as [D _].
    rewrite D. vm_compute. reflexivity.
Defined.

(** ** The state of the socket in use *)

Lemma moved_ids (h : handle) (f : readyState -> readyState) (w : world) :
  map fst (readyStates (moved h f w)) = map fst (readyStates w).
Proof.
  unfold moved. cbn [readyStates]. rewrite map_map. apply map_ext.
  intros [k s]. cbn [fst snd]. destruct (Nat.eqb k h); reflexivity.
Qed.

Lemma sockets_kept_moved (h : handle) (f : readyState -> readyState) (w : world) :
  sockets_kept w -> sockets_kept (moved h f w).
Proof.
  intros [Hs Hr]. split; [exact Hs|].
  intros k Hk. rewrite moved_ids in Hk. exact (Hr k Hk).
Qed.

Lemma sockets_kept_later (w w' : world) :
  sockets w' = sockets w -> readyStates w' = readyStates w ->
  (next_id w <= next_id w')%nat ->
  sockets_kept w -> sockets_kept w'.
Proof.
  intros Es Er Hn [Hs Hr]. split; intros k Hk.
  - rewrite Es in Hk. specialize (Hs k Hk). lia.
  - rewrite Er in Hk. specialize (Hr k Hk). lia.
Qed.

Lemma sockets_kept_attach (url : jsstring) (protocols : list jsstring) :
  preserves sockets_kept
    (socket <- WebSocket url protocols ;; set_ws socket ;; on_listeners socket url).
Proof.
  intros w [Hs Hr]. unfold bind, WebSocket.
  destruct (WebSocket_throws w url); [split; assumption|].
  unfold sockets_kept.
  cbn [set_ws on_listeners update world_after fst snd with_this created sockets readyStates
       next_id].
  split; intros k Hk; rewrite map_app in Hk; apply in_app_or in Hk as [Hk|[<-|[]]].
  - specialize (Hs k Hk). lia.
  - cbn. lia.
  - specialize (Hr k Hk). lia.
  - cbn. lia.
Qed.

Lemma sockets_kept_set_timeout (callback : timer_callback) (delay : Z) :
  preserves sockets_kept (set_timeout callback delay).
Proof.
  intros w H. apply (sockets_kept_later w); [reflexivity | reflexivity | cbn; lia | exact H].
Qed.

Lemma sockets_kept_fetch_await (url : jsstring) (k : suspended) :
  preserves sockets_kept (fetch_await url k).
Proof.
  intros w H. apply (sockets_kept_later w); [reflexivity | reflexivity | cbn; lia | exact H].
Qed.

Ltac sockets_prim :=
  first
    [ apply sockets_kept_attach
    | apply sockets_kept_set_timeout
    | apply sockets_kept_fetch_await
    | apply preserves_update; intros ? H; apply sockets_kept_moved; exact H
    | apply preserves_update; intros ? H; exact H
    | match goal with
      | |- preserves sockets_kept (clear_timeout _) => intros ? H; exact H
      end ].

Ltac open_methods_to_attach :=
  unfold init, configUpdated, destroy, _connectWebSocket, _scheduleReconnect, on_open,
    on_error, on_close, _onWsMessage, _fetchSlotsAndLooks, resume, _buildApplyAction,
    applyGrade_callback, delay_complete, this_ws_send, this_ws_close, socket_close,
    fetch_failed, set_config, set_reconnectTimer, set_lastAuthCode, set_slots, set_looks;
  cbv zeta.

Lemma sockets_kept_deliver (ev : event) : preserves sockets_kept (deliver ev).
Proof.
  apply preserves_deliver;
    [ | | | intros; open_methods_to_attach; preserve sockets_prim ..].
  - intros w t H. exact H.
  - intros w r H. exact H.
  - intros w h f H. apply sockets_kept_moved, H.
Qed.

Lemma reachable_sockets (w : world) : reachable w -> sockets_kept w.
Proof.
  induction 1 as [env|w ev _ IH]; [split; intros h [] | apply sockets_kept_deliver, IH].
Qed.

Lemma find_fresh_last {A} (k : nat) (a : A) (l : list (nat * A)) :
  (forall h, In h (map fst l) -> (h < k)%nat) -> find k (l ++ [(k, a)]) = Some a.
Proof.
  induction l as [|[k' a'] l IH]; intros H.
  - cbn. rewrite Nat.eqb_refl. reflexivity.
  - cbn [app find]. destruct (Nat.eqb k k') eqn:E.
    + apply Nat.eqb_eq in E. subst k'. specialize (H k (or_introl eq_refl)). lia.
    + apply IH. intros h Hh. apply H. right. exact Hh.
Qed.

Lemma find_moved (h : handle) (f : readyState -> readyState) (l : list (handle * readyState))
    (s : readyState) :
  find h l = Some s ->
  find h (map (fun e => if Nat.eqb (fst e) h then (fst e, f (snd e)) else e) l) = Some (f s).
Proof.
  induction l as [|[k a] l IH]; [discriminate|].
  cbn [map find fst snd]. destruct (Nat.eqb k h) eqn:E.
  - apply Nat.eqb_eq in E. subst k. cbn [find]. rewrite Nat.eqb_refl.
    intros H. injection H as ->. reflexivity.
  - cbn [find]. rewrite Nat.eqb_sym, E. exact IH.
Qed.

(** X23: a socket is CONNECTING from its creation to its open event.  In
    every state the instance can reach, once [init] or [configUpdated] has
    connected, [this.ws] holds the new socket and that socket is CONNECTING, so
    that a send throws until the socket opens; its open event makes it OPEN
    before the listener reports Ok and logs, and [this.ws] still holds it. *)
Theorem new_socket_connects_then_opens
    (w : world) (cfg : value) (host : jsstring) (p : value) (port_text : jsstring)
    (ev : event) :
  reachable w ->
  get cfg (lit "host") = Normal (VStr host) ->
  trim host <> [] ->
  get cfg (lit "port") = Normal p ->
  ToString (or_else p (VStr (lit "9000"))) = Normal port_text ->
  WebSocket_throws w (ws_url host port_text) = None ->
  ev = EInit cfg \/ ev = EConfigUpdated cfg ->
  let socket := next_id w in
  let w1 := world_after (deliver ev w) in
  let w2 := world_after (deliver (ESocket socket Open) w1) in
  ws (this w1) = Some socket
  /\ find socket (readyStates w1) = Some CONNECTING
  /\ deliver (ESocket socket Open) w1 =
       (Normal tt, arrived socket Open w1,
        [updateStatus Ok None;
         log (lit "info") (lit "WebSocket opened to " ++ ws_url host port_text)])
  /\ ws (this w2) = Some socket
  /\ find socket (readyStates w2) = Some OPEN.
Proof.
  intros Hr Hh Hn Hp Ht Ha Hev. cbv zeta.
  destruct (reachable_sockets w Hr) as [Bs Br].
  assert (C : forall w0, config (this w0) = cfg ->
             WebSocket_throws w0 (ws_url host port_text) = None ->
             world_after (_connectWebSocket w0) = opened (ws_url host port_text) w0).
  { intros w0 E Ew. rewrite (connect_runs w0 host p port_text); rewrite ?E; auto. }
  assert (E : exists w0,
             world_after (deliver ev w) = opened (ws_url host port_text) w0
             /\ next_id w0 = next_id w /\ sockets w0 = sockets w
             /\ map fst (readyStates w0) = map fst (readyStates w)).
  { destruct Hev as [-> | ->]; unfold deliver.
    - exists (configured cfg w). split; [|repeat split; reflexivity].
      rewrite <- (C (configured cfg w) eq_refl Ha).
      unfold init, bind, world_after. cbn [set_config update emit configured world_after fst snd].
      destruct (_connectWebSocket _) as [[r w2] e2]. reflexivity.
    - exists (ws_closed (configured cfg w)). split.
      + assert (Ec : config (this (ws_closed (configured cfg w))) = cfg).
        { unfold ws_closed, configured.
          cbn [set_config update world_after fst snd with_this this ws].
          destruct (ws (this w)); reflexivity. }
        assert (Ew : WebSocket_throws (ws_closed (configured cfg w)) (ws_url host port_text)
                     = None).
        { unfold ws_closed, configured.
          cbn [set_config update world_after fst snd with_this this ws].
          destruct (ws (this w)); exact Ha. }
        rewrite <- (C _ Ec Ew).
        unfold configUpdated, ws_closed, configured, socket_close, bind, world_after.
        cbn [set_config update emit read world_after fst snd].
        cbn [with_this this ws].
        destruct (ws (this w)); cbn [emit ret update];
          destruct (_connectWebSocket _) as [[r w2] e2]; reflexivity.
      + unfold ws_closed, configured.
        cbn [set_config update world_after fst snd with_this this ws].
        destruct (ws (this w)) as [h|]; repeat split; try reflexivity.
        rewrite moved_ids. reflexivity. }
  destruct E as (w0 & -> & En & Es & Er).
  assert (Fs : find (next_id w) (sockets (opened (ws_url host port_text) w0))
               = Some (ws_url host port_text)).
  { unfold opened. cbn [sockets]. rewrite En, Es. apply find_fresh_last, Bs. }
  assert (Fr : find (next_id w) (readyStates (opened (ws_url host port_text) w0))
               = Some CONNECTING).
  { unfold opened. cbn [readyStates]. rewrite En. apply find_fresh_last.
    intros k Hk. apply Br. rewrite <- Er. exact Hk. }
  assert (D : deliver (ESocket (next_id w) Open) (opened (ws_url host port_text) w0) =
       (Normal tt, arrived (next_id w) Open (opened (ws_url host port_text) w0),
        [updateStatus Ok None;
         log (lit "info") (lit "WebSocket opened to " ++ ws_url host port_text)])).
  { unfold deliver. rewrite Fs. reflexivity. }
  split; [unfold opened; cbn [this ws]; rewrite En; reflexivity|].
  split; [exact Fr|]. split; [exact D|]. rewrite D.
  unfold world_after, arrived. cbn [fst snd].
  split; [unfold opened; cbn [moved this ws]; rewrite En; reflexivity|].
  unfold moved. cbn [readyStates].
  apply (find_moved (next_id w) (library_state Open) _ CONNECTING Fr).
Qed.

Lemma new_socket_connects_then_opens_witness :
  ws (this reconfigured) = Some 3%nat
  /\ find 3%nat (readyStates reconfigured) = Some CONNECTING
  /\ find 3%nat (readyStates (world_after (deliver (ESocket 3%nat Open) reconfigured)))
     = Some OPEN
  /\ find 0%nat (readyStates (world_after (deliver (ESocket 3%nat Open) reconfigured)))
     = Some CLOSING.
Proof.
  assert (Hr : reachable empty_catalog) by exact empty_catalog_reachable.
  assert (Hn : trim (lit "10.0.0.6") <> []) by (vm_compute; discriminate).
  assert (Ha : WebSocket_throws empty_catalog (ws_url (lit "10.0.0.6") (lit "9000")) = None)
    by reflexivity.
  destruct (new_socket_connects_then_opens empty_catalog other_config (lit "10.0.0.6")
              (VStr (lit "9000")) (lit "9000") (EConfigUpdated other_config)
              Hr eq_refl Hn eq_refl eq_refl Ha (or_intror eq_refl))
    as (H1 & H2 & _ & _ & H5).
  split; [exact H1|]. split; [exact H2|]. split; [exact H5|].
  vm_compute. reflexivity.
Defined.
